(** * EasySXB serial terminal: the session protocol of [Terminal.cxx]

    A shallow embedding of [src/Terminal.cxx]: the serial link
    ([sendChar], [sendString], [getData], ...), the two monitor
    dialects ([changeReg], [jml], [jsl], [dump], ...) and the two upload
    routines ([uploadHex], [uploadSrec]).

    Conventions of the embedding.
    - A C [int] is a [Z]; [>>] is [Z.shiftr], [&] is [Z.land].
    - A C string is a [list ascii] holding no NUL; a [FILE*] opened for
      reading is the list of characters not yet read.
    - The globals of the anonymous namespace ([connected], [flash],
      [buf], [buf_pos]) and the collaborators the file talks to
      (serial port, [Gui], [Dialog], [Fl]) live in one [State] that every
      operation threads through.
    - A local array ([char s[256]]) is the list of the characters
      written to it; a write whose place or length depends on what was
      read from the file or from the device is checked against the size
      of the array, and a routine that writes past the end ends as
      [Overrun]: what the program does from there on is not defined by
      its text.
    - The POSIX branch of each [#ifdef WIN32] is the one embedded.
    - [delay] only sleeps; time is not part of the state. *)

From Stdlib Require Import Ascii String.
From Stdlib Require Import ZArith List Bool Lia.
Import ListNotations.
Open Scope Z_scope.

(** ** Characters and C strings *)

Definition text := list ascii.

Definition txt (s : string) : text := list_ascii_of_string s.
Arguments txt s%_string.

Definition char_code (c : ascii) : Z := Z.of_N (N_of_ascii c).

Definition NL : ascii := "010"%char.
Definition CR : ascii := "013"%char.
Definition NUL : ascii := "000"%char.

Definition EOF : Z := -1.

(** [strlen]-view of a byte buffer: the bytes before the first NUL. *)
Fixpoint cstr (b : text) : text :=
  match b with
  | [] => []
  | c :: r => if Ascii.eqb c NUL then [] else c :: cstr r
  end.

(** A [char] holding the [int] that [fgetc] returned ([char] is signed
    on the platforms the program targets). *)
Definition to_char (z : Z) : Z :=
  let b := z mod 256 in if 128 <=? b then b - 256 else b.

(** The [unsigned int] that [%X] stores, read back through the [int]
    the program passed. *)
Definition to_int (z : Z) : Z :=
  let u := z mod 2 ^ 32 in if 2 ^ 31 <=? u then u - 2 ^ 32 else u.

(** ** [sprintf] with [%0wX] *)

Definition hexdigit (d : Z) : ascii :=
  ascii_of_N (Z.to_N (if d <? 10 then 48 + d else 55 + d)).

(** The digits of [n] without leading zeros, at least one. *)
Fixpoint hexdigits (fuel : nat) (n : Z) : text :=
  match fuel with
  | O => []
  | S f =>
      (if n / 16 =? 0 then [] else hexdigits f (n / 16)) ++ [hexdigit (n mod 16)]
  end.

(** [%0wX] applied to the [int] [v]: the argument is converted as an
    [unsigned int], printed in upper-case hexadecimal and padded with
    zeros on the left up to [w] characters; wider values are not cut. *)
Definition fmtX (w : nat) (v : Z) : text :=
  let ds := hexdigits 8 (v mod 2 ^ 32) in
  repeat "0"%char (w - length ds) ++ ds.

(** [sprintf(s + index, ...)]: the text lands at offset [index] and is
    NUL-terminated there, so the string in [s] is now its first [index]
    characters followed by the text. *)
Definition sprintf_at (s : text) (index : nat) (t : text) : text :=
  firstn index s ++ t.

(** ** [fgetc] and [fscanf] with [%0wX] *)

Definition file := list ascii.

Definition fgetc (fp : file) : Z * file :=
  match fp with
  | [] => (EOF, [])
  | c :: r => (char_code c, r)
  end.

Definition isspace (c : ascii) : bool :=
  let n := char_code c in (n =? 32) || ((9 <=? n) && (n <=? 13)).

Fixpoint skip_ws (fp : file) : file :=
  match fp with
  | [] => []
  | c :: r => if isspace c then skip_ws r else fp
  end.

Definition hexval (c : ascii) : option Z :=
  let n := char_code c in
  if (48 <=? n) && (n <=? 57) then Some (n - 48)
  else if (65 <=? n) && (n <=? 70) then Some (n - 55)
  else if (97 <=? n) && (n <=? 102) then Some (n - 87)
  else None.

(** An optional sign counts against the field width. *)
Definition scan_sign (w : nat) (fp : file) : bool * nat * file :=
  match w, fp with
  | S w', c :: r =>
      if Ascii.eqb c "-" then (true, w', r)
      else if Ascii.eqb c "+" then (false, w', r)
      else (false, w, fp)
  | _, _ => (false, w, fp)
  end.

(** An optional [0x] or [0X] counts against the field width too. *)
Definition scan_prefix (w : nat) (fp : file) : nat * file :=
  match w, fp with
  | S (S w'), c0 :: cx :: r =>
      if Ascii.eqb c0 "0" && (Ascii.eqb cx "x" || Ascii.eqb cx "X")
      then (w', r) else (w, fp)
  | _, _ => (w, fp)
  end.

(** Up to [w] hexadecimal digits; [seen] tells whether there was one. *)
Fixpoint scan_digits (w : nat) (fp : file) (acc : Z) (seen : bool)
  : bool * Z * file :=
  match w with
  | O => (seen, acc, fp)
  | S w' =>
      match fp with
      | [] => (seen, acc, fp)
      | c :: r =>
          match hexval c with
          | Some d => scan_digits w' r (acc * 16 + d) true
          | None => (seen, acc, fp)
          end
      end
  end.

(** [ret = fscanf(fp, "%0wX", &var)], following ISO C 7.21.6.2: white
    space is skipped (line ends included); at end of file the call
    returns [EOF] (an input failure); otherwise the longest prefix of
    at most [w] characters of the form sign, [0x], digits is consumed,
    and the call returns 1 and stores the value when the prefix holds a
    digit after the optional sign and [0x], and returns 0 (a matching
    failure) and leaves [var] alone when it does not.  (On a [0x] with
    no digit after it the GNU C library departs from the standard: it
    returns 1 and stores 0.  No record of a well-formed file holds one.)
    The result is the triple (ret, var, fp). *)
Definition fscanfX (w : nat) (var : Z) (fp : file) : Z * Z * file :=
  match skip_ws fp with
  | [] => (EOF, var, [])
  | fp1 =>
      let '(neg, w1, fp2) := scan_sign w fp1 in
      let '(w2, fp3) := scan_prefix w1 fp2 in
      let '(seen, v, fp4) := scan_digits w2 fp3 0 false in
      if seen then (1, to_int (if neg then - v else v), fp4)
      else (0, var, fp4)
  end.

(** The test the program applies to every [fscanf] result:
    [ret == -1 || ret == EOF]. *)
Definition scan_failed (ret : Z) : bool := (ret =? -1) || (ret =? EOF).

(** ** The session state *)

(** Modelled from the spec: [Gui::getMode()] reports "a two-valued mode
    selected externally"; [MODE_265] is the 24-bit dialect (dialect A
    of the spec), [MODE_134] the 16-bit one (dialect B). *)
Inductive Mode := MODE_265 | MODE_134.

(** Modelled from the spec: the register selectors [REG_*] that
    [Terminal.H] declares, "program counter, accumulator, X, Y, stack
    pointer, direct-page register, status register, data-bank
    register". *)
Inductive Reg :=
  REG_PC | REG_A | REG_X | REG_Y | REG_SP | REG_DP | REG_SR | REG_DB.

(** Modelled from the spec: [Gui] and [Dialog] are not in
    [Terminal.cxx]; the spec lists them as the collaborator interfaces
    "append text to a log view", "update displayed register values",
    "report/clear a user cancellation flag", "report the currently
    selected firmware dialect".  A call that only shows something is
    logged with its arguments, in call order. *)
Inductive GuiCall :=
| Gui_append (s : text)
| Gui_flashCursor (on : bool)
| Gui_setToggles (num : Z)
| Gui_updateRegs (s : text)
| Gui_setAddress (address : Z)
| Dialog_message (title body : text).

(** - [connected], [flash], [buf], [buf_pos]: the globals of the file;
      [buf] holds the bytes stored in the 4096-byte array since it was
      last cleared, the rest of the array being zero.
    - [tx]: the serial line as the device sees it, one entry per
      [write] call.
    - [rx]: what the device will say, as the bursts of bytes that future
      [read] calls find; an empty burst is a [read] that finds nothing.
    - [ui]: the calls made to [Gui] and [Dialog].
    - [mode], [cancelled]: the values behind [Gui::getMode()] and
      [Gui::getCancelled()].
    - [esc]: for each coming [Fl::check()], whether the escape key
      handler runs inside it. *)
Record State := mkState {
  connected : bool;
  flash : Z;
  buf : text;
  buf_pos : Z;
  tx : list text;
  rx : list text;
  ui : list GuiCall;
  mode : Mode;
  cancelled : bool;
  esc : list bool
}.

Definition set_connected (b : bool) (st : State) : State :=
  mkState b (flash st) (buf st) (buf_pos st) (tx st) (rx st) (ui st)
          (mode st) (cancelled st) (esc st).

Definition set_flash (f : Z) (st : State) : State :=
  mkState (connected st) f (buf st) (buf_pos st) (tx st) (rx st) (ui st)
          (mode st) (cancelled st) (esc st).

Definition set_buf (b : text) (pos : Z) (st : State) : State :=
  mkState (connected st) (flash st) b pos (tx st) (rx st) (ui st)
          (mode st) (cancelled st) (esc st).

Definition set_rx (r : list text) (st : State) : State :=
  mkState (connected st) (flash st) (buf st) (buf_pos st) (tx st) r (ui st)
          (mode st) (cancelled st) (esc st).

(** [write(fd, b, strlen(b))]. *)
Definition write (b : text) (st : State) : State :=
  mkState (connected st) (flash st) (buf st) (buf_pos st) (tx st ++ [b])
          (rx st) (ui st) (mode st) (cancelled st) (esc st).

Definition call (c : GuiCall) (st : State) : State :=
  mkState (connected st) (flash st) (buf st) (buf_pos st) (tx st) (rx st)
          (ui st ++ [c]) (mode st) (cancelled st) (esc st).

(** Modelled from the spec: [Gui::setCancelled(b)] sets the flag that
    [Gui::getCancelled()] reports. *)
Definition setCancelled (b : bool) (st : State) : State :=
  mkState (connected st) (flash st) (buf st) (buf_pos st) (tx st) (rx st)
          (ui st) (mode st) b (esc st).

(** Modelled from the spec: [Fl::check()] and the escape-key handler are
    not in [Terminal.cxx].  The spec has the cancel flag "set externally,
    e.g. by an escape-key handler" while the interface processes its
    pending events; the flag is raised when [esc] says the handler runs
    during this call, and left as it is otherwise. *)
Definition Fl_check (st : State) : State :=
  match esc st with
  | [] => st
  | pressed :: later =>
      mkState (connected st) (flash st) (buf st) (buf_pos st) (tx st) (rx st)
              (ui st) (mode st) (cancelled st || pressed) later
  end.

(** [read(fd, dst, n)] on the non-blocking port: the number of bytes
    stored (-1 when nothing is there), the bytes, and the state. *)
Definition read (n : nat) (st : State) : Z * text * State :=
  match rx st with
  | [] => (-1, [], st)
  | burst :: later =>
      let got := firstn n burst in
      let left := skipn n burst in
      (Z.of_nat (length got), got,
       set_rx (match left with [] => later | _ => left :: later end) st)
  end.

(** ** Link layer *)

Definition fileError (st : State) : State :=
  call (Dialog_message (txt "Error") (txt "Error reading file." ++ [NL])) st.

(** What the environment answers to [open] and [tcsetattr]. *)
Inductive PortAnswer := OpenFails | SetAttrFails | PortOk.

Definition connect (port : PortAnswer) (hardware_flow : Z) (st : State)
  : State :=
  match port with
  | OpenFails =>
      call (Dialog_message (txt "Error") (txt "Could not open serial port.")) st
  | SetAttrFails =>
      call (Dialog_message (txt "Error") (txt "tcsetattr() failed.")) st
  | PortOk =>
      let st := set_flash 0 st in
      let st := set_connected true st in
      let st := call (Gui_append ([NL] ++ txt ">> Connected to SXB at 9600 baud."
                                       ++ [NL; NL])) st in
      call (Gui_append [NL]) st
  end.

Definition disconnect (st : State) : State :=
  if connected st then
    let st := set_connected false st in
    let st := call (Gui_append ([NL] ++ txt ">> Connection Closed." ++ [NL])) st in
    call (Dialog_message (txt "Disconnected") (txt "Connection Closed.")) st
  else st.

Definition isConnected (st : State) : bool := connected st.

(** "convert carriage return" *)
Definition nl_to_cr (c : ascii) : ascii := if Ascii.eqb c NL then CR else c.

Definition sendChar (c : ascii) (st : State) : State :=
  if connected st then write [nl_to_cr c] st else st.

(** The character returned, as the [char] it is. *)
Definition getChar (st : State) : Z * State :=
  if connected st then
    let '(temp, got, st) := read 1 st in
    if temp <=? 0 then (-1, st)
    else (to_char (char_code (hd " "%char got)), st)
  else (to_char (char_code " "%char), st).

(** [s] is a C string shorter than the 4096 characters of [buf]: it is
    copied into [buf], line feeds become carriage returns and the lot is
    written in one call.  A string of 4096 characters or more would
    leave [buf] unterminated, and the length of the write undefined;
    every caller in the file passes a literal or the content of a
    [char s[256]], and the theorems on [sendString] alone assume the
    bound. *)
Definition sendString (s : text) (st : State) : State :=
  if connected st then
    let b := map nl_to_cr s in
    write b (set_buf b (buf_pos st) st)
  else st.

(** The passes granted to the [while (1)] of [getData]. *)
Definition getData_passes : nat := 2049.

(** The [while (1)] of [getData]: a pass stores at least one byte or
    leaves, and the loop leaves once [buf_pos] exceeds 2048, so 2049
    passes are always enough ([getData_loop_fuel] below). *)
Fixpoint getData_loop (fuel : nat) (st : State) : State :=
  match fuel with
  | O => st
  | S f =>
      let '(bytes, got, st) := read 256 st in
      if bytes <=? 0 then st
      else
        let st := set_buf (buf st ++ got) (buf_pos st + bytes) st in
        if 2048 <? buf_pos st then st else getData_loop f st
  end.

Definition cr_to_nl (c : ascii) : ascii := if Ascii.eqb c CR then NL else c.

Definition getData (st : State) : State :=
  let st := set_buf [] 0 st in
  let st := if connected st then getData_loop getData_passes st else st in
  set_buf (map cr_to_nl (buf st)) (buf_pos st) st.

(** How a routine ends that builds text in an array of its own, such
    as the [char s[256]] of [updateRegs] and of the upload routines: it
    returns; or it writes past the end of the array, from where on the
    text of the program no longer says what it does; or it is cut short
    by the passes granted to a loop here. *)
Inductive Run (A : Type) : Type :=
| Done (a : A)
| Overrun
| Unfinished.

Arguments Done {A} a.
Arguments Overrun {A}.
Arguments Unfinished {A}.

Definition run_map {A B : Type} (f : A -> B) (r : Run A) : Run B :=
  match r with
  | Done a => Done (f a)
  | Overrun => Overrun
  | Unfinished => Unfinished
  end.

(** The size of the arrays [s] these routines declare. *)
Definition s_size : nat := 256.

(** [sprintf(s + index, ...)] stays within [char s[256]] when the text
    and the NUL after it end inside the array. *)
Definition fits (index : nat) (t : text) : bool :=
  (index + length t <? s_size)%nat.

(** The characters [getResult] keeps. *)
Definition is_result_char (c : ascii) : bool :=
  let n := char_code c in
  ((48 <=? n) && (n <=? 57)) || ((65 <=? n) && (n <=? 90)) || (n =? 32).

(** [getResult(s)], [s] pointing to an array of [size] characters: the
    new content of [s] and the state.  The function copies what it keeps
    with no bound of its own; the content is [None] when the characters
    kept and the NUL after them do not fit the array. *)
Definition getResult (size : nat) (s : text) (st : State) : option text * State :=
  if connected st then
    let st := getData st in
    let kept := filter is_result_char (cstr (buf st)) in
    (if (length kept <? size)%nat then Some kept else None, st)
  else (Some s, st).

(** The timer callback; re-arming the timer is left to the caller. *)
Definition receive (st : State) : State :=
  let st := getData st in
  let st := call (Gui_append (cstr (buf st))) st in
  let st := set_flash (flash st + 1) st in
  let st := if 63 <? flash st then set_flash 0 st else st in
  call (Gui_flashCursor (Z.land (Z.shiftr (flash st) 2) 1 =? 1)) st.

(** ** Framing layer *)

Definition changeReg (reg : Reg) (num : Z) (st : State) : State :=
  if negb (connected st) then st else
  let num := if num <? 0 then 0 else num in
  match mode st with
  | MODE_265 =>
      let st :=
        match reg with
        | REG_PC => sendString (txt "|P" ++ fmtX 2 (Z.shiftr num 16) ++ txt ":"
                                ++ fmtX 4 (Z.land num 65535)) st
        | REG_A => sendString (txt "|A" ++ fmtX 4 num) st
        | REG_X => sendString (txt "|X" ++ fmtX 4 num) st
        | REG_Y => sendString (txt "|Y" ++ fmtX 4 num) st
        | REG_SP => sendString (txt "|S" ++ fmtX 4 num) st
        | REG_DP => sendString (txt "|D" ++ fmtX 4 num) st
        | REG_SR => sendString (txt "|F" ++ fmtX 2 num) st
        | REG_DB => sendString (txt "|B" ++ fmtX 2 num) st
        end in
      let st := sendString (txt "R") st in
      match reg with REG_SR => call (Gui_setToggles num) st | _ => st end
  | MODE_134 =>
      let st :=
        match reg with
        | REG_PC => sendString (txt "A" ++ fmtX 4 (Z.land num 65535)
                                ++ txt "     ") st
        | REG_SR => sendString (txt "A " ++ fmtX 2 (Z.land num 255)
                                ++ txt "    ") st
        | REG_A => sendString (txt "A  " ++ fmtX 2 num ++ txt "   ") st
        | REG_X => sendString (txt "A   " ++ fmtX 2 num ++ txt "  ") st
        | REG_Y => sendString (txt "A    " ++ fmtX 2 num ++ txt " ") st
        | REG_SP => sendString (txt "A     " ++ fmtX 2 num) st
        | _ => st
        end in
      let st := sendString (txt "R") st in
      match reg with REG_SR => call (Gui_setToggles num) st | _ => st end
  end.

(** [updateRegs] hands [getResult] its own [char s[256]], zeroed. *)
Definition updateRegs (st : State) : Run State :=
  if negb (connected st) then Done st else
  match mode st with
  | MODE_265 =>
      let st := sendString (txt "| ") st in
      match getResult s_size [] st with
      | (Some s, st) => Done (call (Gui_updateRegs s) st)
      | (None, _) => Overrun
      end
  | MODE_134 =>
      let st := sendString (txt "R") st in
      match getResult s_size [] st with
      | (Some s, st) => Done (call (Gui_updateRegs s) st)
      | (None, _) => Overrun
      end
  end.

Definition jml (address : Z) (st : State) : State :=
  if negb (connected st) then st else
  let address := if address <? 0 then 0 else address in
  match mode st with
  | MODE_265 =>
      let st := sendString (txt "G") st in
      sendString (fmtX 2 (Z.shiftr address 16) ++ fmtX 4 (Z.land address 65535)) st
  | MODE_134 =>
      let st := sendString (txt "G") st in
      sendString (fmtX 4 (Z.land address 65535)) st
  end.

Definition jsl (address : Z) (st : State) : State :=
  if negb (connected st) then st else
  let address := if address <? 0 then 0 else address in
  match mode st with
  | MODE_265 =>
      let st := sendString (txt "J") st in
      sendString (fmtX 2 (Z.shiftr address 16) ++ fmtX 4 (Z.land address 65535)) st
  | MODE_134 =>
      let st := sendString (txt "J") st in
      sendString (fmtX 4 (Z.land address 65535)) st
  end.

Definition dump (address : Z) (st : State) : State :=
  if negb (connected st) then st else
  let address := if address <? 0 then 0 else address in
  let last := to_int (address + 255) in
  let st :=
    call (Gui_append ([NL] ++ txt "Memory dump from "
                      ++ fmtX 2 (Z.shiftr address 16) ++ txt ":"
                      ++ fmtX 4 (Z.land address 65535) ++ txt " - "
                      ++ fmtX 2 (Z.shiftr last 16) ++ txt ":"
                      ++ fmtX 4 (Z.land last 65535) ++ [NL])) st in
  match mode st with
  | MODE_265 =>
      let st := sendString (txt "D") st in
      let st := sendString (fmtX 2 (Z.shiftr address 16)
                            ++ fmtX 4 (Z.land address 65535)) st in
      sendString (fmtX 2 (Z.shiftr last 16) ++ fmtX 4 (Z.land last 65535)
                  ++ [NL]) st
  | MODE_134 =>
      let st := sendString (txt "D") st in
      sendString (fmtX 4 (Z.land address 65535) ++ fmtX 4 (Z.land last 65535)) st
  end.

(** ** Upload engine *)

(** The [int] locals that live across the passes of a record loop.
    [uploadSrec] declares no [segment] and leaves that field alone. *)
Record Locals := mkLocals {
  segment : Z;
  address : Z;
  start_address : Z;
  code : Z;
  value : Z;
  count : Z
}.

(** The initialisers at the top of both upload routines. *)
Definition locals0 : Locals := mkLocals 0 0 (-1) 0 0 0.

(** How a pass of a record loop ends: it goes round again, it
    [break]s, or it has written past the end of [s] ([Overflow]; the
    other components of its result mean nothing then). *)
Inductive Flow := Next | Break | Overflow.

(** The bound of the "skip to next line" loops. *)
Definition line_limit : nat := 256.

(** "skip to next line": at most [n] characters are read, up to and
    including the first line feed; at end of file [fgetc] keeps
    answering [EOF]. *)
Fixpoint skipLine (n : nat) (fp : file) : file :=
  match n with
  | O => fp
  | S n' =>
      match fp with
      | [] => []
      | c :: r => if Ascii.eqb c NL then r else skipLine n' r
      end
  end.

(** The [for] over the data bytes in [uploadHex], [n] passes to go:
    (cancel, fp, value, checksum, s, index) when the loop is left, and
    [None] when a [sprintf] of the loop wrote past the end of [s]. *)
Fixpoint hexData (n : nat) (fp : file) (value checksum : Z) (s : text)
  (index : nat) : option (bool * file * Z * Z * text * nat) :=
  match n with
  | O => Some (false, fp, value, checksum, s, index)
  | S n' =>
      let '(ret, value, fp) := fscanfX 2 value fp in
      if scan_failed ret then Some (true, fp, value, checksum, s, index)
      else if fits index (fmtX 2 value) then
        let s := sprintf_at s index (fmtX 2 value) in
        hexData n' fp value (checksum + value) s (index + 2)
      else None
  end.

(** The end of a pass, the same text in both routines: the rest of
    the line is skipped, [Fl::check()] gives the interface a turn, and
    the cancel flag is looked at and cleared when found set. *)
Definition pass_end (v : Locals) (fp : file) (st : State)
  : Flow * Locals * file * State :=
  let fp := skipLine line_limit fp in
  let st := Fl_check st in
  if cancelled st then (Break, v, fp, setCancelled false st)
  else (Next, v, fp, st).

(** The branch [code == 0x00] of [uploadHex]: the load record is built
    in [s], sent, and the answer of the device shown.  The header is 22
    characters at most and always fits; the source writes the data
    bytes and the checksum without looking at the size of [s], so each of
    these writes is checked here. *)
Definition hexSend (v : Locals) (fp : file) (st : State)
  : Flow * Locals * file * State :=
  let s := txt "S2" ++ fmtX 2 (count v + 4) ++ fmtX 2 (segment v)
           ++ fmtX 2 (Z.land (Z.shiftr (address v) 8) 255)
           ++ fmtX 2 (Z.land (address v) 255) in
  let checksum :=
    0 + (count v + 4) + Z.shiftr (address v) 8 + Z.land (address v) 255 in
  match hexData (Z.to_nat (count v)) fp (value v) checksum s 10 with
  | None => (Overflow, v, fp, st)
  | Some (cancel, fp, value, checksum, s, index) =>
      let v := mkLocals (segment v) (address v) (start_address v) (code v) value
                        (count v) in
      if cancel then (Break, v, fp, fileError st)
      else if fits index (fmtX 2 (255 - Z.land checksum 255) ++ [NL]) then
        let s := sprintf_at s index (fmtX 2 (255 - Z.land checksum 255) ++ [NL]) in
        let st := sendString s st in
        let st := getData st in
        let st := call (Gui_append (cstr (buf st))) st in
        (Next, v, fp, st)
      else (Overflow, v, fp, st)
  end.

(** One pass of the [while (1)] of [uploadHex] once [':'] has been
    read. *)
Definition hexRecord (v : Locals) (fp : file) (st : State)
  : Flow * Locals * file * State :=
  let segment := 0 in
  let '(ret, count, fp) := fscanfX 2 (count v) fp in
  let v := mkLocals segment (address v) (start_address v) (code v) (value v)
                    count in
  if scan_failed ret then (Break, v, fp, fileError st) else
  if count =? 0 then (Break, v, fp, st) else
  let '(ret, address, fp) := fscanfX 4 (address v) fp in
  let v := mkLocals segment address (start_address v) (code v) (value v) count in
  if scan_failed ret then (Break, v, fp, fileError st) else
  let start_address :=
    if start_address v =? -1 then address else start_address v in
  let '(ret, code, fp) := fscanfX 2 (code v) fp in
  let v := mkLocals segment address start_address code (value v) count in
  if scan_failed ret then (Break, v, fp, fileError st) else
  let '(flow, v, fp, st) :=
    if code =? 4 then
      (Next, mkLocals address address start_address code (value v) count, fp, st)
    else if code =? 0 then hexSend v fp st
    else (Next, v, fp, st) in
  match flow with
  | Break => (Break, v, fp, st)
  | Next => pass_end v fp st
  | Overflow => (Overflow, v, fp, st)
  end.

(** The [while (1)] of [uploadHex].  Every pass reads a character or
    leaves, so a file of [n] characters needs at most [n + 1] passes;
    [Unfinished] is the loop cut short by [fuel]. *)
Fixpoint hexLoop (fuel : nat) (v : Locals) (fp : file) (st : State)
  : Run (Locals * State) :=
  match fuel with
  | O => Unfinished
  | S fuel' =>
      let '(temp, fp) := fgetc fp in
      if temp =? EOF then Done (v, st)
      else if temp =? char_code ":" then
        match hexRecord v fp st with
        | (Break, v, _, st) => Done (v, st)
        | (Next, v, fp, st) => hexLoop fuel' v fp st
        | (Overflow, _, _, _) => Overrun
        end
      else hexLoop fuel' v fp st
  end.

Definition terminator : text := txt "S804000000FB" ++ [NL].

Definition uploading_banner : text :=
  [NL] ++ txt ">> Uploading Program, ESC to cancel." ++ [NL].

Definition open_failed (st : State) : State :=
  call (Dialog_message (txt "Error") (txt "Could not open file." ++ [NL])) st.

(** [fs] is the file system as [fopen(filename, "r")] sees it. *)
Definition uploadHex (fs : text -> option file) (filename : text) (st : State)
  : Run State :=
  match fs filename with
  | None => Done (open_failed st)
  | Some fp =>
      let st := call (Gui_append uploading_banner) st in
      match hexLoop (S (length fp)) locals0 fp st with
      | Done (v, st) =>
          let st := sendString terminator st in
          Done (call (Gui_setAddress (start_address v)) st)
      | Overrun => Overrun
      | Unfinished => Unfinished
      end
  end.

(** The [for] over the data bytes in [uploadSrec]: it reports the
    failed read itself and has no flag to pass on;
    (fp, value, checksum, s, index, st) when the loop is left, and
    [None] when a [sprintf] of the loop wrote past the end of [s]. *)
Fixpoint srecData (n : nat) (fp : file) (value checksum : Z) (s : text)
  (index : nat) (st : State) : option (file * Z * Z * text * nat * State) :=
  match n with
  | O => Some (fp, value, checksum, s, index, st)
  | S n' =>
      let '(ret, value, fp) := fscanfX 2 value fp in
      if scan_failed ret then Some (fp, value, checksum, s, index, fileError st)
      else if fits index (fmtX 2 value) then
        let s := sprintf_at s index (fmtX 2 value) in
        srecData n' fp value (checksum + value) s (index + 2) st
      else None
  end.

(** The address of an S1 or S2 record, [code] being 1 or 2; the
    first address met is kept as the start address. *)
Definition srecAddress (v : Locals) (fp : file) (st : State)
  : Flow * Locals * file * State :=
  if code v =? 1 then
    let '(ret, address, fp) := fscanfX 4 (address v) fp in
    let v := mkLocals (segment v) address (start_address v) (code v) (value v)
                      (count v) in
    if scan_failed ret then (Break, v, fp, fileError st) else
    let start_address :=
      if start_address v =? -1 then address else start_address v in
    (Next, mkLocals (segment v) address start_address (code v) (value v)
                    (count v), fp, st)
  else if code v =? 2 then
    let '(ret, address, fp) := fscanfX 6 (address v) fp in
    let v := mkLocals (segment v) address (start_address v) (code v) (value v)
                      (count v) in
    if scan_failed ret then (Break, v, fp, fileError st) else
    let start_address :=
      if start_address v =? -1 then address else start_address v in
    (Next, mkLocals (segment v) address start_address (code v) (value v)
                    (count v), fp, st)
  else (Break, v, fp, st).

(** The rest of the branch [code > 0] of [uploadSrec]: the load record
    is built in [s], sent, and the answer of the device shown. *)
Definition srecSend (v : Locals) (fp : file) (st : State)
  : Flow * Locals * file * State :=
  let s := txt "S2" ++ fmtX 2 (count v + 4)
           ++ fmtX 2 (Z.land (Z.shiftr (address v) 16) 255)
           ++ fmtX 2 (Z.land (Z.shiftr (address v) 8) 255)
           ++ fmtX 2 (Z.land (address v) 255) in
  let checksum :=
    0 + (count v + 4) + Z.shiftr (address v) 8 + Z.land (address v) 255 in
  match srecData (Z.to_nat (count v)) fp (value v) checksum s 10 st with
  | None => (Overflow, v, fp, st)
  | Some (fp, value, checksum, s, index, st) =>
      let v := mkLocals (segment v) (address v) (start_address v) (code v) value
                        (count v) in
      if fits index (fmtX 2 (255 - Z.land checksum 255) ++ [NL]) then
        let s := sprintf_at s index (fmtX 2 (255 - Z.land checksum 255) ++ [NL]) in
        let st := sendString s st in
        let st := getData st in
        let st := call (Gui_append (cstr (buf st))) st in
        (Next, v, fp, st)
      else (Overflow, v, fp, st)
  end.

(** One pass of the [while (1)] of [uploadSrec]. *)
Definition srecRecord (v : Locals) (fp : file) (st : State)
  : Flow * Locals * file * State :=
  let '(c0, fp) := fgetc fp in
  if to_char c0 =? EOF then (Break, v, fp, st) else
  let '(c1, fp) := fgetc fp in
  if to_char c1 =? EOF then (Break, v, fp, st) else
  let code := to_char c1 - char_code "0" in
  let v := mkLocals (segment v) (address v) (start_address v) code (value v)
                    (count v) in
  if (code <? 0) || (2 <? code) then (Break, v, fp, st) else
  let '(ret, count, fp) := fscanfX 2 (count v) fp in
  let v := mkLocals (segment v) (address v) (start_address v) code (value v)
                    count in
  if scan_failed ret then (Break, v, fp, fileError st) else
  let count :=
    if code =? 1 then count - 3 else if code =? 2 then count - 4 else count in
  let v := mkLocals (segment v) (address v) (start_address v) code (value v)
                    count in
  if count =? 0 then (Break, v, fp, st) else
  let '(flow, v, fp, st) :=
    if 0 <? code then
      match srecAddress v fp st with
      | (Next, v, fp, st) => srecSend v fp st
      | (flow, v, fp, st) => (flow, v, fp, st)
      end
    else (Next, v, fp, st) in
  match flow with
  | Break => (Break, v, fp, st)
  | Next => pass_end v fp st
  | Overflow => (Overflow, v, fp, st)
  end.

(** The [while (1)] of [uploadSrec]; a pass that goes round again has
    read the two prefix characters. *)
Fixpoint srecLoop (fuel : nat) (v : Locals) (fp : file) (st : State)
  : Run (Locals * State) :=
  match fuel with
  | O => Unfinished
  | S fuel' =>
      match srecRecord v fp st with
      | (Break, v, _, st) => Done (v, st)
      | (Next, v, fp, st) => srecLoop fuel' v fp st
      | (Overflow, _, _, _) => Overrun
      end
  end.

Definition uploadSrec (fs : text -> option file) (filename : text) (st : State)
  : Run State :=
  match fs filename with
  | None => Done (open_failed st)
  | Some fp =>
      let st := call (Gui_append uploading_banner) st in
      match srecLoop (S (length fp)) locals0 fp st with
      | Done (v, st) =>
          let st := sendString terminator st in
          Done (call (Gui_setAddress (start_address v)) st)
      | Overrun => Overrun
      | Unfinished => Unfinished
      end
  end.

(** FLTK's [fl_filename_ext]: from the last period of the last path
    component on, or the empty string. *)
Fixpoint fl_filename_ext_from (q : option text) (p : text) : text :=
  match p with
  | [] => match q with Some e => e | None => [] end
  | c :: r =>
      if Ascii.eqb c "/" then fl_filename_ext_from None r
      else if Ascii.eqb c "." then fl_filename_ext_from (Some p) r
      else fl_filename_ext_from q r
  end.

Definition fl_filename_ext (name : text) : text := fl_filename_ext_from None name.

Definition tolower (c : ascii) : ascii :=
  let n := char_code c in
  if (65 <=? n) && (n <=? 90) then ascii_of_N (Z.to_N (n + 32)) else c.

(** [strcasecmp(a, b) == 0]. *)
Definition strcasecmp_eq (a b : text) : bool :=
  if list_eq_dec ascii_dec (map tolower a) (map tolower b) then true else false.

(** [upload]; [pick] is the file the native chooser returned, if any.
    The directory the chooser is to reopen in is its own business and
    not part of the state. *)
Definition upload (pick : option text) (fs : text -> option file) (st : State)
  : Run State :=
  if negb (connected st) then
    Done (call (Dialog_message (txt "Error") (txt "Not Connected.")) st)
  else
    match pick with
    | None => Done st
    | Some filename =>
        let ext := fl_filename_ext filename in
        if strcasecmp_eq ext (txt ".hex") then uploadHex fs filename st
        else if strcasecmp_eq ext (txt ".srec") then uploadSrec fs filename st
        else Done (call (Dialog_message (txt "Upload Error")
                     (txt "Only .hex and .srec file extentions are supported.")) st)
    end.

(** ** Well-formed source records and the load records they stand for

    These describe the inputs and the expected outputs of the theorems
    below; none of them is part of the program. *)

(** [v] as exactly [w] upper-case hexadecimal digits, high digit
    first. *)
Fixpoint hexfield (w : nat) (v : Z) : text :=
  match w with
  | O => []
  | S w' => hexdigit ((v / 16 ^ Z.of_nat w') mod 16) :: hexfield w' v
  end.

Definition hexbytes (data : list Z) : text := concat (map (hexfield 2) data).

Definition sum_of (data : list Z) : Z := fold_right Z.add 0 data.

Definition is_byte (b : Z) : Prop := 0 <= b < 256.

(** A data record of a source file: where it loads, what it loads, and
    the characters that follow the data on its line (the checksum of the
    source format, which the program never reads as such). *)
Record DataRecord := mkDataRecord {
  rec_address : Z;
  rec_data : list Z;
  rec_tail : text
}.

Definition rec_len (r : DataRecord) : Z := Z.of_nat (length (rec_data r)).

(** The record has data, fits the array [s[256]] of the upload
    routines, holds bytes, and its line ends within the 256 characters
    the program is ready to skip. *)
Definition wf_record (abits : nat) (r : DataRecord) : Prop :=
  0 < rec_len r <= 121 /\
  0 <= rec_address r < 2 ^ Z.of_nat abits /\
  Forall is_byte (rec_data r) /\
  ~ In NL (rec_tail r) /\
  (length (rec_tail r) < 256)%nat.

(** A data record as the source formats allow it, with up to 255 data
    bytes; [wf_record] is the same within the 121 bytes that fit [s]. *)
Definition data_record (abits : nat) (r : DataRecord) : Prop :=
  0 < rec_len r <= 255 /\
  0 <= rec_address r < 2 ^ Z.of_nat abits /\
  Forall is_byte (rec_data r) /\
  ~ In NL (rec_tail r) /\
  (length (rec_tail r) < 256)%nat.

(** What follows the colon on the line of an Intel-HEX data record. *)
Definition hex_body (r : DataRecord) : text :=
  hexfield 2 (rec_len r) ++ hexfield 4 (rec_address r) ++ hexfield 2 0
  ++ hexbytes (rec_data r) ++ rec_tail r ++ [NL].

Definition hex_line (r : DataRecord) : text := ":"%char :: hex_body r.

(** The line of an S1 record (16-bit address) and of an S2 record
    (24-bit address); the count covers address, data and checksum. *)
Definition s1_line (r : DataRecord) : text :=
  txt "S1" ++ hexfield 2 (rec_len r + 3) ++ hexfield 4 (rec_address r)
  ++ hexbytes (rec_data r) ++ rec_tail r ++ [NL].

Definition s2_line (r : DataRecord) : text :=
  txt "S2" ++ hexfield 2 (rec_len r + 4) ++ hexfield 6 (rec_address r)
  ++ hexbytes (rec_data r) ++ rec_tail r ++ [NL].

(** The checksum byte of a load record as the specification words it:
    only the two low bytes of the address take part. *)
Definition load_checksum (len addrHi addrLo : Z) (data : list Z) : Z :=
  Z.land (255 - Z.land (len + 4 + addrHi + addrLo + sum_of data) 255) 255.

(** The load record for [data] at the 24-bit address [a]:
    [S2], length, the three address bytes, the data, the checksum and a
    line feed. *)
Definition load_record (a : Z) (data : list Z) : text :=
  let len := Z.of_nat (length data) in
  txt "S2" ++ hexfield 2 (len + 4)
  ++ hexfield 2 (Z.land (Z.shiftr a 16) 255)
  ++ hexfield 2 (Z.land (Z.shiftr a 8) 255)
  ++ hexfield 2 (Z.land a 255)
  ++ hexbytes data
  ++ hexfield 2 (load_checksum len (Z.land (Z.shiftr a 8) 255) (Z.land a 255) data)
  ++ [NL].

Definition load_of (r : DataRecord) : text :=
  load_record (rec_address r) (rec_data r).

(** The two kinds of S-record that carry data. *)
Inductive SKind := K1 | K2.

Definition srec_line (kr : SKind * DataRecord) : text :=
  match fst kr with K1 => s1_line (snd kr) | K2 => s2_line (snd kr) end.

Definition wf_srec (kr : SKind * DataRecord) : Prop :=
  wf_record (match fst kr with K1 => 16 | K2 => 24 end) (snd kr).

(** A load record is sent and what the device answers is shown, as
    both routines do after building a record. *)
Definition send_and_show (s : text) (st : State) : State :=
  let st := sendString s st in
  let st := getData st in
  call (Gui_append (cstr (buf st))) st.

(** A string as it leaves [sendString]. *)
Definition on_wire (s : text) : text := map nl_to_cr s.

(** The two source formats, the routine [upload] picks for each, and
    the line of a data record in each; an Intel-HEX record has one
    kind only. *)
Inductive Format := HEX | SREC.

Definition upload_as (fmt : Format)
  : (text -> option file) -> text -> State -> Run State :=
  match fmt with HEX => uploadHex | SREC => uploadSrec end.

Definition source_line (fmt : Format) (kr : SKind * DataRecord) : text :=
  match fmt with HEX => hex_line (snd kr) | SREC => srec_line kr end.

Definition wf_source (fmt : Format) (kr : SKind * DataRecord) : Prop :=
  match fmt with HEX => wf_record 16 (snd kr) | SREC => wf_srec kr end.

Definition source_text (fmt : Format) (krs : list (SKind * DataRecord)) : text :=
  concat (map (source_line fmt) krs).

(** The load records a list of source records becomes on the line. *)
Definition loads_on_wire (krs : list (SKind * DataRecord)) : list text :=
  map (fun kr => on_wire (load_of (snd kr))) krs.

(** The line of an S0 (header) record: the count byte, then whatever
    the line holds. *)
Definition s0_line (h : Z * text) : text :=
  txt "S0" ++ hexfield 2 (fst h) ++ snd h ++ [NL].

Definition wf_s0 (h : Z * text) : Prop :=
  0 < fst h < 256 /\ ~ In NL (snd h) /\ (length (snd h) < 256)%nat.

(** The call by which an upload reports the start address. *)
Definition reports (st : State) (a : Z) : Prop :=
  exists calls, ui st = calls ++ [Gui_setAddress a].

(** The columns of a register command of the 16-bit dialect: blanks
    before the digits, digits, blanks after them.  The direct-page and
    data-bank registers have no command there. *)
Definition layout134 (reg : Reg) : option (nat * nat * nat) :=
  match reg with
  | REG_PC => Some (0, 4, 5)
  | REG_SR => Some (1, 2, 4)
  | REG_A => Some (2, 2, 3)
  | REG_X => Some (3, 2, 2)
  | REG_Y => Some (4, 2, 1)
  | REG_SP => Some (5, 2, 0)
  | REG_DP | REG_DB => None
  end%nat.

Definition blanks (n : nat) : text := repeat " "%char n.

(** The registers whose value [changeReg] does not mask in the 16-bit
    dialect. *)
Definition unmasked134 (reg : Reg) : bool :=
  match reg with REG_A | REG_X | REG_Y | REG_SP => true | _ => false end.

(** ** Sample sessions and files *)

(** A connected session in the 16-bit dialect with a silent device,
    and one in which escape is pressed during the second turn of the
    interface. *)
Definition session : State := mkState true 0 [] 0 [] [] [] MODE_134 false [].

Definition session_esc2 : State :=
  mkState true 0 [] 0 [] [] [] MODE_134 false [false; true].

(** A session in which the interface gets one quiet turn. *)
Definition session_quiet1 : State :=
  mkState true 0 [] 0 [] [] [] MODE_134 false [false].

Definition offline : State := mkState false 0 [] 0 [] [] [] MODE_134 false [].

Definition rec1 : DataRecord := mkDataRecord 32768 [1; 2] (txt "7B").
Definition rec2 : DataRecord := mkDataRecord 32770 [3; 4] (txt "75").
Definition rec3 : DataRecord := mkDataRecord 32772 [5; 6] (txt "6F").
Definition rec4 : DataRecord := mkDataRecord 32774 [7; 8] (txt "69").
Definition rec5 : DataRecord := mkDataRecord 32776 [9; 10] (txt "63").

(** A record of 122 data bytes, one more than [s] has room for. *)
Definition rec_122 : DataRecord := mkDataRecord 32768 (repeat 0 122) (txt "06").

(** A type-2 record at [0x018000]. *)
Definition rec_bank1 : DataRecord := mkDataRecord 98304 [1; 2] (txt "75").

(** Five Intel-HEX data records and the end-of-file line. *)
Definition five_records : list (SKind * DataRecord) :=
  [(K1, rec1); (K1, rec2); (K1, rec3); (K1, rec4); (K1, rec5)].

Definition hex_eof_line : text := txt ":00000001FF" ++ [NL].

Definition one_file (content : text) : text -> option file :=
  fun _ => Some content.

(** The first two characters of every load record that carries data. *)
Definition is_S2 (s : text) : Prop := exists rest, s = txt "S2" ++ rest.

(** [st'] is [st] after some operations that kept the connection flag
    and put nothing but data load records on the line. *)
Definition extends (st st' : State) : Prop :=
  connected st' = connected st /\
  exists recs, tx st' = tx st ++ recs /\ Forall is_S2 recs.

(** The start address, once captured, stays. *)
Definition keeps_start (v v' : Locals) : Prop :=
  start_address v <> -1 -> start_address v' = start_address v.

(** ** Further notions for the rest of the file *)

(** What the device has ready for one call of [getData]: bursts that
    each hold something and fit one [read]. *)
Definition available (bursts : list text) : Prop :=
  Forall (fun b : text => b <> [] /\ (length b <= 256)%nat) bursts.

(** Nobody presses escape during the next [n] turns of the interface. *)
Definition no_press (n : nat) (es : list bool) : bool :=
  forallb negb (firstn n es).

(** The dialogs shown so far. *)
Definition is_dialog (c : GuiCall) : bool :=
  match c with Dialog_message _ _ => true | _ => false end.

Definition dialogs (st : State) : list GuiCall := filter is_dialog (ui st).

(** What follows the colon on an Intel-HEX line of type [t]: count,
    address and type, then the rest of the line. *)
Definition hex_typed_body (len a t : Z) (tail : text) : text :=
  hexfield 2 len ++ hexfield 4 a ++ hexfield 2 t ++ tail ++ [NL].

(** The register commands of the 24-bit dialect: letter, width of the
    value, and the field as it is printed when the value fits. *)
Definition letter265 (reg : Reg) : ascii :=
  match reg with
  | REG_PC => "P" | REG_A => "A" | REG_X => "X" | REG_Y => "Y"
  | REG_SP => "S" | REG_DP => "D" | REG_SR => "F" | REG_DB => "B"
  end%char.

Definition bits265 (reg : Reg) : Z :=
  match reg with
  | REG_PC => 24
  | REG_SR | REG_DB => 8
  | _ => 16
  end.

(** A 24-bit address as bank and offset, six digits. *)
Definition hex6 (a : Z) : text := hexfield 2 (a / 65536) ++ hexfield 4 (a mod 65536).

Definition field265 (reg : Reg) (num : Z) : text :=
  match reg with
  | REG_PC => hexfield 2 (num / 65536) ++ txt ":" ++ hexfield 4 (num mod 65536)
  | REG_SR | REG_DB => hexfield 2 num
  | _ => hexfield 4 num
  end.

(** The address of the first record of a list, [-1] when there is
    none: what the upload routines start from. *)
Definition first_address (krs : list (SKind * DataRecord)) : Z :=
  match krs with
  | [] => -1
  | kr :: _ => rec_address (snd kr)
  end.

(** What may follow the records of an S-record file for the loop to
    end there without a word: the end of the file, or a line whose type
    character is none of [0], [1], [2]. *)
Definition srec_ending (ending : text) : Prop :=
  match ending with
  | _ :: c1 :: _ => c1 <> "0"%char /\ c1 <> "1"%char /\ c1 <> "2"%char
  | _ => True
  end.

(** What may follow the records of an Intel-HEX file: the end of the
    file, or a line with the count [00]. *)
Definition hex_ending (ending : text) : Prop :=
  ending = [] \/ exists more, ending = ":"%char :: hexfield 2 0 ++ more.

(** A load record read as a source record: it is a type-2 line whose
    last field is the load checksum. *)
Definition as_source (kr : SKind * DataRecord) : SKind * DataRecord :=
  let r := snd kr in
  (K2, mkDataRecord (rec_address r) (rec_data r)
         (hexfield 2 (load_checksum (rec_len r)
                        (Z.land (Z.shiftr (rec_address r) 8) 255)
                        (Z.land (rec_address r) 255) (rec_data r)))).

(** The text an upload sends, with its line feeds. *)
Definition transcript (krs : list (SKind * DataRecord)) : text :=
  concat (map (fun kr => load_of (snd kr)) krs) ++ terminator.

(** The endings by format. *)
Definition ending_ok (fmt : Format) (ending : text) : Prop :=
  match fmt with HEX => hex_ending ending | SREC => srec_ending ending end.

(** Two source records that load the same bytes at the same place,
    whatever their kind and whatever follows the data on their lines. *)
Definition same_load (kr kr' : SKind * DataRecord) : Prop :=
  rec_address (snd kr) = rec_address (snd kr') /\
  rec_data (snd kr) = rec_data (snd kr').

(** The extension [upload] knows each format by, in lower case. *)
Definition extension (fmt : Format) : text :=
  match fmt with HEX => txt "hex" | SREC => txt "srec" end.

(** More sample sessions: one in the 24-bit dialect; one whose device
    has a register line ready; one that starts with the cancel flag
    up. *)
Definition session265 : State := mkState true 0 [] 0 [] [] [] MODE_265 false [].

Definition register_line : text := txt "pc 12AB, a 3F" ++ [CR].

Definition session_regs : State :=
  mkState true 0 [] 0 [] [register_line] [] MODE_134 false [].

Definition session_stale : State := mkState true 0 [] 0 [] [] [] MODE_134 true [].

(** A type-2 line for the data of [rec1] with a wrong checksum field,
    and an extended-address line followed by a data record. *)
Definition rec1_damaged : DataRecord := mkDataRecord 32768 [1; 2] (txt "FF").

Definition segment_file : text :=
  ":"%char :: hex_typed_body 2 1 4 (txt "0001F8")
  ++ txt ":0180000055AA" ++ [NL] ++ hex_eof_line.

(** What [upload] leaves behind for a name with another extension. *)
Definition unsupported (st : State) : State :=
  call (Dialog_message (txt "Upload Error")
          (txt "Only .hex and .srec file extentions are supported.")) st.

(** * Properties *)

(** ** Hexadecimal fields: printing and scanning *)

Lemma hexdigit_props d :
  0 <= d < 16 ->
  hexval (hexdigit d) = Some d /\
  isspace (hexdigit d) = false /\
  Ascii.eqb (hexdigit d) "-" = false /\
  Ascii.eqb (hexdigit d) "+" = false /\
  Ascii.eqb (hexdigit d) "x" = false /\
  Ascii.eqb (hexdigit d) "X" = false.
Proof.
  intros H.
  assert (E : d = 0 \/ d = 1 \/ d = 2 \/ d = 3 \/ d = 4 \/ d = 5 \/ d = 6 \/
              d = 7 \/ d = 8 \/ d = 9 \/ d = 10 \/ d = 11 \/ d = 12 \/
              d = 13 \/ d = 14 \/ d = 15) by lia.
  repeat (destruct E as [E | E]; [subst d; repeat split; reflexivity |]).
  subst d; repeat split; reflexivity.
Qed.

Lemma pow16_pos w : 0 < 16 ^ Z.of_nat w.
Proof. apply Z.pow_pos_nonneg; lia. Qed.

Lemma pow16_succ w : 16 ^ Z.of_nat (S w) = 16 ^ Z.of_nat w * 16.
Proof. rewrite Nat2Z.inj_succ, Z.pow_succ_r by lia. lia. Qed.

Lemma digit_range v w : 0 <= (v / 16 ^ Z.of_nat w) mod 16 < 16.
Proof. apply Z.mod_pos_bound. lia. Qed.

Lemma scan_digits_hexfield w : forall v rest acc seen,
  scan_digits w (hexfield w v ++ rest) acc seen =
  (seen || negb (Nat.eqb w 0), acc * 16 ^ Z.of_nat w + v mod 16 ^ Z.of_nat w, rest).
Proof.
  induction w as [| w IH]; intros v rest acc seen.
  - simpl. rewrite Z.mod_1_r, orb_false_r. f_equal. f_equal. lia.
  - cbn [hexfield app scan_digits].
    destruct (hexdigit_props _ (digit_range v w)) as [Hv _]. rewrite Hv.
    rewrite IH. cbn [Nat.eqb negb]. rewrite orb_true_r.
    f_equal. f_equal.
    rewrite pow16_succ.
    rewrite (Z.rem_mul_r v (16 ^ Z.of_nat w) 16) by (pose proof (pow16_pos w); lia).
    ring.
Qed.

Lemma to_int_small v : 0 <= v < 2 ^ 31 -> to_int v = v.
Proof.
  intros H. unfold to_int.
  rewrite Z.mod_small by lia.
  destruct (2 ^ 31 <=? v) eqn:E; [apply Z.leb_le in E; lia | reflexivity].
Qed.

Lemma pow16_le_2_28 w : (w <= 7)%nat -> 16 ^ Z.of_nat w <= 2 ^ 28.
Proof.
  intros H. change (2 ^ 28) with (16 ^ 7).
  apply Z.pow_le_mono_r; lia.
Qed.

(** Scanning a field of [w] digits gives the value back and stops right
    after the field. *)
Lemma fscanfX_hexfield w v var rest :
  (1 <= w <= 7)%nat -> 0 <= v < 16 ^ Z.of_nat w ->
  fscanfX w var (hexfield w v ++ rest) = (1, v, rest).
Proof.
  intros Hw Hv.
  destruct w as [| w]; [lia |].
  unfold fscanfX.
  cbn [hexfield app skip_ws].
  destruct (hexdigit_props _ (digit_range v w)) as (_ & Hs & Hm & Hp & _).
  rewrite Hs.
  cbn [scan_sign]. rewrite Hm, Hp.
  assert (Hpre : scan_prefix (S w)
            (hexdigit ((v / 16 ^ Z.of_nat w) mod 16) :: hexfield w v ++ rest) =
          (S w, hexdigit ((v / 16 ^ Z.of_nat w) mod 16) :: hexfield w v ++ rest)).
  { destruct w as [| w']; [reflexivity |].
    cbn [hexfield app scan_prefix].
    destruct (hexdigit_props _ (digit_range v w')) as (_ & _ & _ & _ & Hx & HX).
    rewrite Hx, HX. cbn [orb]. rewrite andb_false_r. reflexivity. }
  rewrite Hpre.
  change (hexdigit ((v / 16 ^ Z.of_nat w) mod 16) :: hexfield w v ++ rest)
    with (hexfield (S w) v ++ rest).
  rewrite scan_digits_hexfield.
  cbn [orb Nat.eqb negb Z.mul Z.add].
  rewrite Z.mod_small by lia.
  rewrite to_int_small; [reflexivity |].
  pose proof (pow16_le_2_28 (S w) ltac:(lia)). lia.
Qed.

Lemma hexfield_length w v : length (hexfield w v) = w.
Proof. induction w; simpl; congruence. Qed.

Lemma hexfield_snoc w : forall v,
  hexfield (S w) v = hexfield w (v / 16) ++ [hexdigit (v mod 16)].
Proof.
  induction w as [| w IH]; intros v.
  - simpl. rewrite Z.div_1_r. reflexivity.
  - change (hexfield (S (S w)) v)
      with (hexdigit ((v / 16 ^ Z.of_nat (S w)) mod 16) :: hexfield (S w) v).
    rewrite IH.
    change (hexfield (S w) (v / 16))
      with (hexdigit ((v / 16 / 16 ^ Z.of_nat w) mod 16) :: hexfield w (v / 16)).
    rewrite pow16_succ, Z.div_div by (pose proof (pow16_pos w); lia).
    rewrite (Z.mul_comm (16 ^ Z.of_nat w) 16). reflexivity.
Qed.

Lemma hexfield_zero w : hexfield w 0 = repeat "0"%char w.
Proof.
  induction w as [| w IH]; [reflexivity |].
  cbn [hexfield repeat]. rewrite Z.div_0_l by (pose proof (pow16_pos w); lia).
  rewrite IH. reflexivity.
Qed.

Lemma hexdigits_pad w : forall fuel v,
  (1 <= w <= fuel)%nat -> 0 <= v < 16 ^ Z.of_nat w ->
  (length (hexdigits fuel v) <= w)%nat /\
  repeat "0"%char (w - length (hexdigits fuel v)) ++ hexdigits fuel v
  = hexfield w v.
Proof.
  induction w as [| w IH]; intros fuel v Hw Hv; [lia |].
  destruct fuel as [| f]; [lia |].
  cbn [hexdigits]. rewrite hexfield_snoc.
  destruct (v / 16 =? 0) eqn:E.
  - apply Z.eqb_eq in E. rewrite E, hexfield_zero. cbn [app length].
    split; [lia |]. replace (S w - 1)%nat with w by lia. reflexivity.
  - apply Z.eqb_neq in E.
    assert (Hq : 0 <= v / 16 < 16 ^ Z.of_nat w).
    { rewrite pow16_succ in Hv. split.
      - apply Z.div_pos; lia.
      - apply Z.div_lt_upper_bound; lia. }
    assert (Hw1 : (1 <= w)%nat).
    { destruct w; [| lia]. simpl in Hq. lia. }
    destruct (IH f (v / 16) ltac:(lia) Hq) as [Hl Hp].
    rewrite length_app. cbn [length]. split; [lia |].
    rewrite app_assoc.
    replace (S w - (length (hexdigits f (v / 16)) + 1))%nat
      with (w - length (hexdigits f (v / 16)))%nat by lia.
    rewrite Hp. reflexivity.
Qed.

(** [%0wX] prints a value that fits [w] digits as exactly [w] digits. *)
Lemma fmtX_hexfield w v :
  (1 <= w <= 8)%nat -> 0 <= v < 16 ^ Z.of_nat w -> fmtX w v = hexfield w v.
Proof.
  intros Hw Hv. unfold fmtX.
  assert (H32 : 16 ^ Z.of_nat w <= 2 ^ 32).
  { change (2 ^ 32) with (16 ^ 8). apply Z.pow_le_mono_r; lia. }
  rewrite Z.mod_small by lia.
  apply hexdigits_pad; [lia | assumption].
Qed.

Lemma fmtX2_byte v : 0 <= v < 256 -> fmtX 2 v = hexfield 2 v.
Proof. intros H. apply fmtX_hexfield; [lia | exact H]. Qed.

(** [%02X] does not cut: a value above [0xFF] takes three characters
    or more. *)
Lemma fmtX2_wide v : 256 <= v < 2 ^ 32 -> (2 < length (fmtX 2 v))%nat.
Proof.
  intros H. unfold fmtX. rewrite Z.mod_small by lia.
  rewrite length_app.
  assert (H1 : v / 16 <> 0).
  { intro E. assert (16 <= v / 16) by (apply Z.div_le_lower_bound; lia). lia. }
  assert (H2 : v / 16 / 16 <> 0).
  { intro E. rewrite Z.div_div in E by lia.
    assert (1 <= v / (16 * 16)) by (apply Z.div_le_lower_bound; lia). lia. }
  change (hexdigits 8 v) with
    ((if v / 16 =? 0 then [] else
        (if v / 16 / 16 =? 0 then [] else hexdigits 6 (v / 16 / 16))
        ++ [hexdigit (v / 16 mod 16)]) ++ [hexdigit (v mod 16)]).
  apply Z.eqb_neq in H1, H2. rewrite H1, H2.
  rewrite !length_app. cbn [hexdigits length app].
  rewrite length_app. cbn [length]. lia.
Qed.

(** ** The passes of [getData] are bounded *)

Lemma read_frame n st bytes got st' :
  read n st = (bytes, got, st') ->
  connected st' = connected st /\ tx st' = tx st /\ ui st' = ui st /\
  cancelled st' = cancelled st /\ esc st' = esc st /\ mode st' = mode st /\
  buf st' = buf st /\ buf_pos st' = buf_pos st /\
  (0 < bytes -> bytes = Z.of_nat (length got)).
Proof.
  unfold read. destruct (rx st) as [| burst later]; intros E; inversion E; subst;
    cbn; repeat split; auto; lia.
Qed.

(** Any budget that covers the distance to 2048 bytes gives the same
    result: the 2049 passes of [getData] never run out. *)
Lemma getData_loop_fuel f1 : forall f2 st,
  buf_pos st <= 2048 ->
  2048 < buf_pos st + Z.of_nat f1 -> 2048 < buf_pos st + Z.of_nat f2 ->
  getData_loop f1 st = getData_loop f2 st.
Proof.
  induction f1 as [| f1 IH]; intros f2 st Hpos H1 H2; [lia |].
  destruct f2 as [| f2]; [lia |].
  cbn [getData_loop].
  destruct (read 256 st) as [[bytes got] st1] eqn:E.
  destruct (read_frame _ _ _ _ _ E) as (_ & _ & _ & _ & _ & _ & _ & Hp & _).
  destruct (bytes <=? 0) eqn:Eb; [reflexivity |].
  apply Z.leb_gt in Eb.
  cbn [buf_pos set_buf].
  destruct (2048 <? buf_pos st1 + bytes) eqn:Ec; [reflexivity |].
  apply Z.ltb_ge in Ec.
  apply IH; cbn [buf_pos set_buf]; lia.
Qed.

Lemma getData_loop_frame fuel : forall st,
  connected (getData_loop fuel st) = connected st /\
  tx (getData_loop fuel st) = tx st /\
  ui (getData_loop fuel st) = ui st /\
  cancelled (getData_loop fuel st) = cancelled st /\
  esc (getData_loop fuel st) = esc st.
Proof.
  induction fuel as [| fuel IH]; intros st; [repeat split |].
  cbn [getData_loop].
  destruct (read 256 st) as [[bytes got] st1] eqn:E.
  destruct (read_frame _ _ _ _ _ E) as (Hc & Ht & Hu & Hx & He & _).
  destruct (bytes <=? 0); [repeat split; assumption |].
  destruct (2048 <? _).
  - cbn. repeat split; assumption.
  - destruct (IH (set_buf (buf st1 ++ got) (buf_pos st1 + bytes) st1))
      as (Hc' & Ht' & Hu' & Hx' & He').
    cbn in Hc', Ht', Hu', Hx', He'.
    repeat split; congruence.
Qed.

(** [getData] touches the receive buffer and the device's pending
    bytes, nothing else. *)
Lemma getData_frame st :
  connected (getData st) = connected st /\
  tx (getData st) = tx st /\
  ui (getData st) = ui st /\
  cancelled (getData st) = cancelled st /\
  esc (getData st) = esc st.
Proof.
  unfold getData.
  cbn [connected tx ui cancelled esc set_buf].
  destruct (connected st) eqn:Ec.
  - destruct (getData_loop_frame getData_passes (set_buf [] 0 st)) as (H1 & H2 & H3 & H4 & H5).
    cbn [connected tx ui cancelled esc set_buf] in *.
    repeat split; congruence.
  - cbn. repeat split; assumption.
Qed.

(** ** What every pass of a record loop preserves *)

Lemma extends_refl st : extends st st.
Proof.
  split; [reflexivity |]. exists []. rewrite app_nil_r. split; [reflexivity | constructor].
Qed.

Lemma extends_trans st1 st2 st3 :
  extends st1 st2 -> extends st2 st3 -> extends st1 st3.
Proof.
  intros [Hc1 (r1 & Ht1 & Hf1)] [Hc2 (r2 & Ht2 & Hf2)].
  split; [congruence |].
  exists (r1 ++ r2). split.
  - rewrite Ht2, Ht1, app_assoc. reflexivity.
  - apply Forall_app. split; assumption.
Qed.

Lemma extends_same st st' :
  connected st' = connected st -> tx st' = tx st -> extends st st'.
Proof.
  intros Hc Ht. split; [assumption |].
  exists []. rewrite app_nil_r. split; [assumption | constructor].
Qed.

Lemma extends_call c st : extends st (call c st).
Proof. apply extends_same; reflexivity. Qed.

Lemma extends_fileError st : extends st (fileError st).
Proof. apply extends_same; reflexivity. Qed.

Lemma extends_Fl_check st : extends st (Fl_check st).
Proof. unfold Fl_check. destruct (esc st); apply extends_same; reflexivity. Qed.

Lemma extends_setCancelled b st : extends st (setCancelled b st).
Proof. apply extends_same; reflexivity. Qed.

Lemma extends_getData st : extends st (getData st).
Proof.
  destruct (getData_frame st) as (Hc & Ht & _).
  apply extends_same; assumption.
Qed.

Lemma is_S2_on_wire s : is_S2 s -> is_S2 (on_wire s).
Proof. intros [rest ->]. exists (map nl_to_cr rest). reflexivity. Qed.

Lemma extends_sendString s st : is_S2 s -> extends st (sendString s st).
Proof.
  intros Hs. unfold sendString.
  destruct (connected st) eqn:Ec; [| apply extends_refl].
  split; [cbn; congruence |].
  exists [on_wire s]. split; [reflexivity |].
  constructor; [apply is_S2_on_wire; assumption | constructor].
Qed.

Lemma is_S2_sprintf_at s index t :
  is_S2 s -> (2 <= index)%nat -> is_S2 (sprintf_at s index t).
Proof.
  intros [rest ->] Hi. unfold sprintf_at.
  destruct index as [| [| k]]; [lia | lia |].
  exists (firstn k rest ++ t). reflexivity.
Qed.

(** ** Reading never gives characters back *)

Lemma skip_ws_length fp : (length (skip_ws fp) <= length fp)%nat.
Proof.
  induction fp as [| c r IH]; simpl; [lia |].
  destruct (isspace c); simpl; lia.
Qed.

Lemma scan_sign_length w fp neg w1 fp1 :
  scan_sign w fp = (neg, w1, fp1) -> (length fp1 <= length fp)%nat.
Proof.
  unfold scan_sign. destruct w as [| w]; destruct fp as [| c r];
    try (intros E; inversion E; subst; simpl; lia).
  destruct (Ascii.eqb c "-"); [intros E; inversion E; subst; simpl; lia |].
  destruct (Ascii.eqb c "+"); intros E; inversion E; subst; simpl; lia.
Qed.

Lemma scan_prefix_length w fp w1 fp1 :
  scan_prefix w fp = (w1, fp1) -> (length fp1 <= length fp)%nat.
Proof.
  unfold scan_prefix.
  destruct w as [| [| w]]; destruct fp as [| c0 [| cx r]];
    try (intros E; inversion E; subst; simpl; lia).
  destruct (Ascii.eqb c0 "0" && (Ascii.eqb cx "x" || Ascii.eqb cx "X"));
    intros E; inversion E; subst; simpl; lia.
Qed.

Lemma scan_digits_length w : forall fp acc seen seen' v fp1,
  scan_digits w fp acc seen = (seen', v, fp1) -> (length fp1 <= length fp)%nat.
Proof.
  induction w as [| w IH]; intros fp acc seen seen' v fp1 E; simpl in E.
  - inversion E; subst; lia.
  - destruct fp as [| c r]; [inversion E; subst; simpl; lia |].
    destruct (hexval c).
    + apply IH in E. simpl. lia.
    + inversion E; subst; lia.
Qed.

Lemma fscanfX_length w var fp ret v fp1 :
  fscanfX w var fp = (ret, v, fp1) -> (length fp1 <= length fp)%nat.
Proof.
  unfold fscanfX. pose proof (skip_ws_length fp) as Hs.
  destruct (skip_ws fp) as [| c r] eqn:E0; [intros E; inversion E; subst; simpl; lia |].
  destruct (scan_sign w (c :: r)) as [[neg w1] fp2] eqn:E1.
  destruct (scan_prefix w1 fp2) as [w2 fp3] eqn:E2.
  destruct (scan_digits w2 fp3 0 false) as [[seen d] fp4] eqn:E3.
  apply scan_sign_length in E1. apply scan_prefix_length in E2.
  apply scan_digits_length in E3.
  destruct seen; intros E; inversion E; subst; lia.
Qed.

Lemma skipLine_length n : forall fp, (length (skipLine n fp) <= length fp)%nat.
Proof.
  induction n as [| n IH]; intros fp; simpl; [lia |].
  destruct fp as [| c r]; [simpl; lia |].
  destruct (Ascii.eqb c NL); [simpl; lia |].
  specialize (IH r). simpl. lia.
Qed.

Lemma fits_spec index t :
  fits index t = true <-> (index + length t < s_size)%nat.
Proof. unfold fits. apply Nat.ltb_lt. Qed.

Lemma hexData_spec n : forall fp value checksum s index cancel fp1 value1 checksum1 s1 index1,
  hexData n fp value checksum s index
  = Some (cancel, fp1, value1, checksum1, s1, index1) ->
  (length fp1 <= length fp)%nat /\
  (is_S2 s -> (2 <= index)%nat -> is_S2 s1 /\ (2 <= index1)%nat).
Proof.
  induction n as [| n IH]; intros fp value checksum s index cancel fp1 value1
    checksum1 s1 index1 E; cbn [hexData] in E.
  - inversion E; subst. auto.
  - destruct (fscanfX 2 value fp) as [[ret x] fp2] eqn:Es.
    apply fscanfX_length in Es.
    destruct (scan_failed ret).
    + inversion E; subst. auto.
    + destruct (fits index (fmtX 2 x)); [| discriminate E].
      apply IH in E. destruct E as [Hl Hs]. split; [lia |].
      intros H1 H2. apply Hs; [apply is_S2_sprintf_at; assumption | lia].
Qed.

(** The data loop of [uploadSrec] is the one of [uploadHex] with the
    error reported on the spot. *)
Lemma srecData_hexData n : forall fp value checksum s index st,
  srecData n fp value checksum s index st =
  match hexData n fp value checksum s index with
  | Some (cancel, fp1, value1, checksum1, s1, index1) =>
      Some (fp1, value1, checksum1, s1, index1, if cancel then fileError st else st)
  | None => None
  end.
Proof.
  induction n as [| n IH]; intros fp value checksum s index st;
    cbn [srecData hexData]; [reflexivity |].
  destruct (fscanfX 2 value fp) as [[ret x] fp2].
  destruct (scan_failed ret); [reflexivity |].
  destruct (fits index (fmtX 2 x)); [apply IH | reflexivity].
Qed.

Lemma is_S2_header a b : is_S2 (txt "S2" ++ a ++ b).
Proof. exists (a ++ b). reflexivity. Qed.

Ltac ext_step :=
  match goal with
  | |- extends ?a ?a => apply extends_refl
  | |- extends _ (call _ _) => eapply extends_trans; [| apply extends_call]
  | |- extends _ (fileError _) => eapply extends_trans; [| apply extends_fileError]
  | |- extends _ (Fl_check _) => eapply extends_trans; [| apply extends_Fl_check]
  | |- extends _ (setCancelled _ _) =>
      eapply extends_trans; [| apply extends_setCancelled]
  | |- extends _ (getData _) => eapply extends_trans; [| apply extends_getData]
  | |- extends _ (sendString _ _) =>
      eapply extends_trans; [| apply extends_sendString]
  end.

Ltac ext_solve := repeat ext_step.

Ltac scan_step :=
  match goal with
  | |- context [fscanfX ?w ?x ?f] =>
      let E := fresh "Escan" in
      destruct (fscanfX w x f) as [[? ?] ?] eqn:E; apply fscanfX_length in E
  end.

(** Splitting an equation between 4-tuples without unfolding the
    bounded loops inside its components. *)
Ltac tuple4_inv E :=
  let H1 := fresh in
  let H2 := fresh in
  let H3 := fresh in
  let H4 := fresh in
  pose proof (f_equal (fun p => fst (fst (fst p))) E) as H1;
  pose proof (f_equal (fun p => snd (fst (fst p))) E) as H2;
  pose proof (f_equal (fun p => snd (fst p)) E) as H3;
  pose proof (f_equal (fun p => snd p) E) as H4;
  cbv beta iota delta [fst snd] in H1, H2, H3, H4;
  clear E; subst.

Lemma keeps_start_refl v : keeps_start v v.
Proof. intros _. reflexivity. Qed.

Lemma keeps_start_trans v1 v2 v3 :
  keeps_start v1 v2 -> keeps_start v2 v3 -> keeps_start v1 v3.
Proof. unfold keeps_start. intros H1 H2 H. rewrite H2; rewrite H1; auto. Qed.

Lemma keeps_start_eq v v' : start_address v' = start_address v -> keeps_start v v'.
Proof. intros E _. exact E. Qed.

Lemma keeps_start_capture (v : Locals) (a : Z) :
  start_address v <> -1 ->
  (if start_address v =? -1 then a else start_address v) = start_address v.
Proof.
  intros H. destruct (start_address v =? -1) eqn:E; [| reflexivity].
  apply Z.eqb_eq in E. contradiction.
Qed.

Ltac start_solve :=
  first
    [ apply keeps_start_eq; reflexivity
    | let H := fresh in
      intros H; cbn [start_address]; apply keeps_start_capture; exact H ].

Ltac finish_pass :=
  match goal with
  | |- (_, _, _, _) = (_, _, _, _) -> _ =>
      let E := fresh in
      intros E; tuple4_inv E;
      (split; [simpl; lia | split; [ext_solve | start_solve]])
  end.

Lemma pass_end_spec v fp st flow v1 fp1 st1 :
  pass_end v fp st = (flow, v1, fp1, st1) ->
  (length fp1 <= length fp)%nat /\ extends st st1 /\ v1 = v.
Proof.
  unfold pass_end. cbv zeta. pose proof (skipLine_length line_limit fp).
  destruct (cancelled (Fl_check st)); intros E; tuple4_inv E;
    (split; [lia | split; [ext_solve | reflexivity]]).
Qed.

Lemma hexSend_spec v fp st flow v1 fp1 st1 :
  hexSend v fp st = (flow, v1, fp1, st1) ->
  (length fp1 <= length fp)%nat /\ extends st st1 /\ keeps_start v v1.
Proof.
  unfold hexSend. cbv zeta.
  match goal with
  | |- context [hexData ?n ?f ?x ?c ?s ?i] =>
      destruct (hexData n f x c s i)
        as [[[[[[cancel fp2] value2] checksum2] s2] index2] |] eqn:Ed
  end; [| finish_pass].
  apply hexData_spec in Ed. destruct Ed as [Hl Hs].
  destruct (Hs (is_S2_header _ _) ltac:(lia)) as [Hs2 Hi2].
  destruct cancel; [| destruct (fits _ _)]; intros E; tuple4_inv E;
    (split; [lia | split; [| start_solve]]); ext_solve.
  apply is_S2_sprintf_at; assumption.
Qed.

(** The three ways a pass can go on from the state a block left. *)
Lemma pass_end_after (v0 : Locals) (fp0 : file) st0 v fp st flow v1 fp1 st1 :
  (length fp <= length fp0)%nat -> extends st0 st -> keeps_start v0 v ->
  pass_end v fp st = (flow, v1, fp1, st1) ->
  (length fp1 <= length fp0)%nat /\ extends st0 st1 /\ keeps_start v0 v1.
Proof.
  intros Hl He Hk E. apply pass_end_spec in E. destruct E as (Hl' & He' & ->).
  split; [lia | split; [eapply extends_trans; eassumption | assumption]].
Qed.

Lemma hexRecord_spec v fp st flow v1 fp1 st1 :
  hexRecord v fp st = (flow, v1, fp1, st1) ->
  (length fp1 <= length fp)%nat /\ extends st st1 /\ keeps_start v v1.
Proof.
  unfold hexRecord.
  scan_step. destruct (scan_failed _); [finish_pass |].
  destruct (_ =? 0); [finish_pass |].
  scan_step. destruct (scan_failed _); [finish_pass |].
  scan_step. destruct (scan_failed _); [finish_pass |].
  cbn [count address start_address code value segment].
  destruct (_ =? 4).
  - apply pass_end_after; [lia | ext_solve | start_solve].
  - destruct (_ =? 0).
    + match goal with
      | |- context [hexSend ?a ?b ?c] =>
          destruct (hexSend a b c) as [[[fl2 v2] fp2] st2] eqn:Es
      end.
      apply hexSend_spec in Es. destruct Es as (Hl & He & Hk).
      assert (Hk2 : keeps_start v v2).
      { eapply keeps_start_trans; [| exact Hk]. start_solve. }
      destruct fl2.
      * apply pass_end_after; [lia | assumption | assumption].
      * intros E. tuple4_inv E. split; [lia | split; assumption].
      * intros E. tuple4_inv E. split; [lia | split; assumption].
    + apply pass_end_after; [lia | ext_solve | start_solve].
Qed.

Lemma srecAddress_spec v fp st flow v1 fp1 st1 :
  srecAddress v fp st = (flow, v1, fp1, st1) ->
  (length fp1 <= length fp)%nat /\ extends st st1 /\ keeps_start v v1.
Proof.
  unfold srecAddress.
  destruct (code v =? 1).
  - scan_step. destruct (scan_failed _); finish_pass.
  - destruct (code v =? 2); [| finish_pass].
    scan_step. destruct (scan_failed _); finish_pass.
Qed.

Lemma srecSend_spec v fp st flow v1 fp1 st1 :
  srecSend v fp st = (flow, v1, fp1, st1) ->
  (length fp1 <= length fp)%nat /\ extends st st1 /\ keeps_start v v1.
Proof.
  unfold srecSend. cbv zeta. rewrite srecData_hexData.
  match goal with
  | |- context [hexData ?n ?f ?x ?c ?s ?i] =>
      destruct (hexData n f x c s i)
        as [[[[[[cancel fp2] value2] checksum2] s2] index2] |] eqn:Ed
  end; [| finish_pass].
  apply hexData_spec in Ed. destruct Ed as [Hl Hs].
  destruct (Hs (is_S2_header _ _) ltac:(lia)) as [Hs2 Hi2].
  destruct (fits _ _); intros E; tuple4_inv E;
    (split; [lia | split; [| start_solve]]).
  - ext_solve; [destruct cancel; ext_solve | apply is_S2_sprintf_at; assumption].
  - destruct cancel; ext_solve.
Qed.

Lemma to_char_EOF : (to_char EOF =? EOF) = true.
Proof. reflexivity. Qed.

Lemma srecRecord_spec v fp st flow v1 fp1 st1 :
  srecRecord v fp st = (flow, v1, fp1, st1) ->
  extends st st1 /\ keeps_start v v1 /\
  (flow = Next -> (length fp1 < length fp)%nat).
Proof.
  assert (Hbreak : forall (a : Locals) (b : file) (c : State),
             extends st c -> keeps_start v a ->
             (Break, a, b, c) = (flow, v1, fp1, st1) ->
             extends st st1 /\ keeps_start v v1 /\
             (flow = Next -> (length fp1 < length fp)%nat)).
  { intros a b c He Hk E. tuple4_inv E.
    split; [assumption | split; [assumption | discriminate]]. }
  unfold srecRecord.
  destruct fp as [| c0 [| c1 fp]]; cbn [fgetc].
  - rewrite to_char_EOF. apply Hbreak; [ext_solve | start_solve].
  - destruct (to_char (char_code c0) =? EOF); [apply Hbreak; [ext_solve | start_solve] |].
    rewrite to_char_EOF. apply Hbreak; [ext_solve | start_solve].
  - destruct (to_char (char_code c0) =? EOF); [apply Hbreak; [ext_solve | start_solve] |].
    destruct (to_char (char_code c1) =? EOF); [apply Hbreak; [ext_solve | start_solve] |].
    cbn [count address start_address code value segment].
    destruct (_ || _); [apply Hbreak; [ext_solve | start_solve] |].
    scan_step. destruct (scan_failed _); [apply Hbreak; [ext_solve | start_solve] |].
    destruct (_ =? 0); [apply Hbreak; [ext_solve | start_solve] |].
    assert (Htail : forall (a : Locals) (b : file) (c : State),
               (length b <= length fp)%nat -> extends st c -> keeps_start v a ->
               pass_end a b c = (flow, v1, fp1, st1) ->
               extends st st1 /\ keeps_start v v1 /\
               (flow = Next -> (length fp1 < length (c0 :: c1 :: fp))%nat)).
    { intros a b c Hl He Hk E. apply pass_end_spec in E. destruct E as (Hl' & He' & ->).
      split; [eapply extends_trans; eassumption |].
      split; [assumption | intros _; simpl; lia]. }
    destruct (0 <? _); [| apply Htail; [lia | ext_solve | start_solve]].
    match goal with
    | |- context [srecAddress ?a ?b ?c] =>
        destruct (srecAddress a b c) as [[[fl2 v2] fp2] st2] eqn:Ea
    end.
    apply srecAddress_spec in Ea. destruct Ea as (Hl2 & He2 & Hk2).
    assert (Hk2' : keeps_start v v2).
    { eapply keeps_start_trans; [| exact Hk2]. start_solve. }
    assert (Hover : forall (a : Locals) (b : file) (c : State),
               extends st c -> keeps_start v a ->
               (Overflow, a, b, c) = (flow, v1, fp1, st1) ->
               extends st st1 /\ keeps_start v v1 /\
               (flow = Next -> (length fp1 < length (c0 :: c1 :: fp))%nat)).
    { intros a b c He Hk E. tuple4_inv E.
      split; [assumption | split; [assumption | discriminate]]. }
    destruct fl2; [| apply Hbreak; assumption | apply Hover; assumption].
    match goal with
    | |- context [srecSend ?a ?b ?c] =>
        destruct (srecSend a b c) as [[[fl3 v3] fp3] st3] eqn:Es
    end.
    apply srecSend_spec in Es. destruct Es as (Hl3 & He3 & Hk3).
    assert (He : extends st st3) by (eapply extends_trans; eassumption).
    assert (Hk : keeps_start v v3) by (eapply keeps_start_trans; eassumption).
    destruct fl3; [apply Htail; [lia | assumption | assumption]
                  | apply Hbreak; assumption | apply Hover; assumption].
Qed.

(** ** The record loops end *)

(** With more passes granted than the file has characters, the loop of
    [uploadHex] is never cut short: it writes past the end of [s], or it
    ends by itself, having sent data load records only. *)
Lemma hexLoop_total fuel : forall v fp st,
  (length fp < fuel)%nat ->
  hexLoop fuel v fp st = Overrun \/
  exists v1 st1, hexLoop fuel v fp st = Done (v1, st1) /\
                 extends st st1 /\ keeps_start v v1.
Proof.
  induction fuel as [| fuel IH]; intros v fp st Hf; [lia |].
  cbn [hexLoop]. destruct fp as [| c fp]; cbn [fgetc].
  - right. exists v, st.
    split; [reflexivity | split; [apply extends_refl | apply keeps_start_refl]].
  - cbn [length] in Hf.
    replace (char_code c =? EOF) with false
      by (symmetry; apply Z.eqb_neq; unfold char_code, EOF; lia).
    destruct (char_code c =? char_code ":").
    + destruct (hexRecord v fp st) as [[[flow v2] fp2] st2] eqn:Er.
      apply hexRecord_spec in Er. destruct Er as (Hl & He & Hk).
      destruct flow.
      * destruct (IH v2 fp2 st2 ltac:(lia)) as [E1 | (v1 & st1 & E1 & He1 & Hk1)];
          [left; exact E1 |].
        right. exists v1, st1. split; [assumption |].
        split; [eapply extends_trans; eassumption
               | eapply keeps_start_trans; eassumption].
      * right. exists v2, st2. split; [reflexivity | split; assumption].
      * left. reflexivity.
    + apply IH. lia.
Qed.

Lemma srecLoop_total fuel : forall v fp st,
  (length fp < fuel)%nat ->
  srecLoop fuel v fp st = Overrun \/
  exists v1 st1, srecLoop fuel v fp st = Done (v1, st1) /\
                 extends st st1 /\ keeps_start v v1.
Proof.
  induction fuel as [| fuel IH]; intros v fp st Hf; [lia |].
  cbn [srecLoop].
  destruct (srecRecord v fp st) as [[[flow v2] fp2] st2] eqn:Er.
  apply srecRecord_spec in Er. destruct Er as (He & Hk & Hl).
  destruct flow.
  - specialize (Hl eq_refl).
    destruct (IH v2 fp2 st2 ltac:(lia)) as [E1 | (v1 & st1 & E1 & He1 & Hk1)];
      [left; exact E1 |].
    right. exists v1, st1. split; [assumption |].
    split; [eapply extends_trans; eassumption
           | eapply keeps_start_trans; eassumption].
  - right. exists v2, st2. split; [reflexivity | split; assumption].
  - left. reflexivity.
Qed.

(** The result does not depend on the passes granted, once they
    outnumber the characters. *)
Lemma hexLoop_fuel f1 : forall f2 v fp st,
  (length fp < f1)%nat -> (length fp < f2)%nat ->
  hexLoop f1 v fp st = hexLoop f2 v fp st.
Proof.
  induction f1 as [| f1 IH]; intros f2 v fp st H1 H2; [lia |].
  destruct f2 as [| f2]; [lia |].
  cbn [hexLoop]. destruct fp as [| c fp]; cbn [fgetc]; [reflexivity |].
  cbn [length] in H1, H2.
  destruct (char_code c =? EOF); [reflexivity |].
  destruct (char_code c =? char_code ":").
  - destruct (hexRecord v fp st) as [[[flow v2] fp2] st2] eqn:Er.
    apply hexRecord_spec in Er. destruct Er as (Hl & _).
    destruct flow; [apply IH; lia | reflexivity | reflexivity].
  - apply IH; lia.
Qed.

Lemma srecLoop_fuel f1 : forall f2 v fp st,
  (length fp < f1)%nat -> (length fp < f2)%nat ->
  srecLoop f1 v fp st = srecLoop f2 v fp st.
Proof.
  induction f1 as [| f1 IH]; intros f2 v fp st H1 H2; [lia |].
  destruct f2 as [| f2]; [lia |].
  cbn [srecLoop].
  destruct (srecRecord v fp st) as [[[flow v2] fp2] st2] eqn:Er.
  apply srecRecord_spec in Er. destruct Er as (_ & _ & Hl).
  destruct flow; [specialize (Hl eq_refl); apply IH; lia | reflexivity | reflexivity].
Qed.

Lemma is_S2_not_terminator s : is_S2 s -> s <> on_wire terminator.
Proof. intros [rest ->] E. discriminate E. Qed.

Lemma S2_records_hold_no_terminator recs :
  Forall is_S2 recs -> ~ In (on_wire terminator) recs.
Proof.
  intros Hf Hin. rewrite Forall_forall in Hf.
  apply (is_S2_not_terminator _ (Hf _ Hin)). reflexivity.
Qed.

(** ** The terminator record *)

(** C3.  An upload that got its file open, Intel-HEX or S-record, and
    that keeps within its array [s] (a record of more than 121 data
    bytes makes it write past the end), ends by itself and puts the
    terminator record [S804000000FB] on the line exactly once, as the
    last thing sent, whatever ended the record loop (end of file,
    cancellation or a failed read): everything sent before it is a data
    load record, which starts with [S2]. *)
Theorem upload_sends_one_terminator_last :
  forall (fs : text -> option file) (filename : text) (fp : file) (st : State),
    fs filename = Some fp ->
    connected st = true ->
    (uploadHex fs filename st <> Overrun ->
     exists st1 recs,
       uploadHex fs filename st = Done st1 /\
       tx st1 = tx st ++ recs ++ [on_wire terminator] /\
       Forall is_S2 recs /\ ~ In (on_wire terminator) recs) /\
    (uploadSrec fs filename st <> Overrun ->
     exists st1 recs,
       uploadSrec fs filename st = Done st1 /\
       tx st1 = tx st ++ recs ++ [on_wire terminator] /\
       Forall is_S2 recs /\ ~ In (on_wire terminator) recs).
Proof.
  intros fs filename fp st Hfs Hc. split.
  - unfold uploadHex. rewrite Hfs.
    destruct (hexLoop_total (S (length fp)) locals0 fp
                (call (Gui_append uploading_banner) st) ltac:(lia))
      as [E | (v1 & st1 & E & [Hc1 (recs & Ht & Hf)] & _)];
      rewrite E; intros Hrun; [contradiction Hrun; reflexivity |].
    eexists. exists recs. split; [reflexivity |].
    split; [| split; [assumption | apply S2_records_hold_no_terminator; assumption]].
    unfold sendString. cbn [connected call] in Hc1. rewrite Hc1, Hc.
    cbn [tx call write set_buf]. rewrite Ht. cbn [tx call].
    rewrite <- app_assoc. reflexivity.
  - unfold uploadSrec. rewrite Hfs.
    destruct (srecLoop_total (S (length fp)) locals0 fp
                (call (Gui_append uploading_banner) st) ltac:(lia))
      as [E | (v1 & st1 & E & [Hc1 (recs & Ht & Hf)] & _)];
      rewrite E; intros Hrun; [contradiction Hrun; reflexivity |].
    eexists. exists recs. split; [reflexivity |].
    split; [| split; [assumption | apply S2_records_hold_no_terminator; assumption]].
    unfold sendString. cbn [connected call] in Hc1. rewrite Hc1, Hc.
    cbn [tx call write set_buf]. rewrite Ht. cbn [tx call].
    rewrite <- app_assoc. reflexivity.
Qed.

(** ** Well-formed records, one pass at a time *)

Lemma land255 x : Z.land x 255 = x mod 256.
Proof. change 255 with (Z.ones 8). rewrite Z.land_ones by lia. reflexivity. Qed.

Lemma land255_range x : 0 <= Z.land x 255 < 256.
Proof. rewrite land255. apply Z.mod_pos_bound. lia. Qed.

Lemma mod256_fold x b y : (x + b mod 256 + y) mod 256 = (x + b + y) mod 256.
Proof.
  rewrite (Z.mod_eq b 256) by lia.
  replace (x + (b - 256 * (b / 256)) + y) with (x + b + y + (- (b / 256)) * 256) by ring.
  apply Z_mod_plus_full.
Qed.

(** The checksum the program computes is the one of the
    specification: the bits of the sum above the low byte, the bank
    byte of a 24-bit address among them, are masked away. *)
Lemma checksum_code_spec len a data :
  255 - Z.land (0 + (len + 4) + Z.shiftr a 8 + Z.land a 255 + sum_of data) 255 =
  load_checksum len (Z.land (Z.shiftr a 8) 255) (Z.land a 255) data.
Proof.
  unfold load_checksum.
  set (lo := Z.land a 255). set (hi := Z.shiftr a 8).
  assert (E : Z.land (0 + (len + 4) + hi + lo + sum_of data) 255 =
              Z.land (len + 4 + Z.land hi 255 + lo + sum_of data) 255).
  { rewrite !land255.
    replace (len + 4 + hi mod 256 + lo + sum_of data)
      with (len + 4 + hi mod 256 + (lo + sum_of data)) by ring.
    rewrite mod256_fold. f_equal. ring. }
  rewrite E.
  pose proof (land255_range (len + 4 + Z.land hi 255 + lo + sum_of data)) as Hr.
  rewrite (land255 (255 - _)). rewrite Z.mod_small by lia. reflexivity.
Qed.

Lemma load_checksum_range len hi lo data :
  0 <= load_checksum len hi lo data < 256.
Proof. apply land255_range. Qed.

Lemma hexbytes_length data : length (hexbytes data) = (2 * length data)%nat.
Proof.
  unfold hexbytes. induction data as [| b data IH]; [reflexivity |].
  cbn [map concat]. rewrite length_app, IH, hexfield_length. cbn [length]. lia.
Qed.

Lemma scan_failed_1 : scan_failed 1 = false.
Proof. reflexivity. Qed.

(** The data loop on the bytes of a well-formed record reads them all
    and appends them to [s] as they were written. *)
Lemma fits_byte index b :
  is_byte b -> fits index (fmtX 2 b) = (index + 2 <? s_size)%nat.
Proof.
  intros Hb. unfold fits. rewrite fmtX2_byte by exact Hb.
  rewrite hexfield_length. reflexivity.
Qed.

Lemma hexData_bytes data : forall rest value checksum s index,
  Forall is_byte data -> length s = index ->
  (index + 2 * length data < s_size)%nat ->
  exists value1,
    hexData (length data) (hexbytes data ++ rest) value checksum s index =
    Some (false, rest, value1, checksum + sum_of data, s ++ hexbytes data,
          (index + 2 * length data)%nat).
Proof.
  induction data as [| b data IH]; intros rest value checksum s index Hb Hs Hroom.
  - exists value. cbn [hexData length hexbytes map concat sum_of fold_right app].
    rewrite app_nil_r, Z.add_0_r, Nat.add_0_r. reflexivity.
  - inversion Hb as [| b' data' Hb1 Hb2]; subst b' data'.
    cbn [length] in Hroom.
    cbn [length hexData].
    change (hexbytes (b :: data)) with (hexfield 2 b ++ hexbytes data).
    rewrite <- app_assoc.
    rewrite fscanfX_hexfield by (try lia; exact Hb1).
    rewrite scan_failed_1.
    rewrite (fits_byte index b Hb1).
    replace (index + 2 <? s_size)%nat with true by (symmetry; apply Nat.ltb_lt; lia).
    destruct (IH rest b (checksum + b) (sprintf_at s index (fmtX 2 b)) (index + 2)%nat Hb2)
      as [value1 E].
    { unfold sprintf_at. rewrite fmtX2_byte by exact Hb1.
      rewrite <- Hs, firstn_all, length_app, hexfield_length. reflexivity. }
    { lia. }
    exists value1. rewrite E.
    unfold sprintf_at. rewrite fmtX2_byte by exact Hb1.
    rewrite <- Hs, firstn_all.
    change (sum_of (b :: data)) with (b + sum_of data).
    rewrite <- app_assoc.
    replace (checksum + b + sum_of data) with (checksum + (b + sum_of data)) by ring.
    do 2 f_equal. lia.
Qed.

Lemma skipLine_tail tail : forall n rest,
  (length tail < n)%nat -> ~ In NL tail ->
  skipLine n (tail ++ NL :: rest) = rest.
Proof.
  induction tail as [| c tail IH]; intros n rest Hn Hin.
  - destruct n; [simpl in Hn; lia | reflexivity].
  - destruct n; [simpl in Hn; lia |].
    cbn [app skipLine].
    destruct (Ascii.eqb c NL) eqn:E.
    + apply Ascii.eqb_eq in E. subst c. exfalso. apply Hin. left. reflexivity.
    + apply IH; [simpl in Hn; lia | intro H; apply Hin; right; exact H].
Qed.

(** The string both routines build for a well-formed record is the
    load record of the specification. *)
Lemma built_record a data :
  0 < Z.of_nat (length data) <= 121 ->
  let len := Z.of_nat (length data) in
  let header := txt "S2" ++ fmtX 2 (len + 4)
                ++ fmtX 2 (Z.land (Z.shiftr a 16) 255)
                ++ fmtX 2 (Z.land (Z.shiftr a 8) 255)
                ++ fmtX 2 (Z.land a 255) in
  length header = 10%nat /\
  sprintf_at (header ++ hexbytes data) (10 + 2 * length data)
    (fmtX 2 (255 - Z.land (0 + (len + 4) + Z.shiftr a 8 + Z.land a 255 + sum_of data) 255)
     ++ [NL])
  = load_record a data.
Proof.
  intros Hlen len header. subst header.
  rewrite checksum_code_spec.
  rewrite !fmtX2_byte
    by first [apply land255_range | apply load_checksum_range | subst len; lia].
  split.
  - cbn [txt list_ascii_of_string]. rewrite !length_app, !hexfield_length. reflexivity.
  - unfold sprintf_at, load_record. fold len.
    match goal with
    | |- firstn ?n ?l ++ _ = _ =>
        replace n with (length l)
          by (cbn [txt list_ascii_of_string];
              rewrite !length_app, !hexfield_length, hexbytes_length; reflexivity)
    end.
    rewrite firstn_all. rewrite <- !app_assoc. reflexivity.
Qed.

(** The checksum and the line feed after [n] data bytes end within
    [s] up to 121 bytes, and past it from 122 on. *)
Lemma checksum_fits n c :
  fits (10 + 2 * n) (fmtX 2 (255 - Z.land c 255) ++ [NL]) = (n <=? 121)%nat.
Proof.
  unfold fits. pose proof (land255_range c) as Hr.
  rewrite length_app, fmtX2_byte, hexfield_length by lia. cbn [length].
  unfold s_size.
  destruct (n <=? 121)%nat eqn:E.
  - apply Nat.leb_le in E. apply Nat.ltb_lt. lia.
  - apply Nat.leb_gt in E. apply Nat.ltb_ge. lia.
Qed.

Lemma fits_121 n : 0 < Z.of_nat n <= 121 -> (n <=? 121)%nat = true.
Proof. intros H. apply Nat.leb_le. lia. Qed.

Lemma bank_of_16bit a : 0 <= a < 2 ^ 16 -> Z.land (Z.shiftr a 16) 255 = 0.
Proof.
  intros H. rewrite Z.shiftr_div_pow2 by lia. rewrite Z.div_small by lia. reflexivity.
Qed.

Lemma hexSend_wf v r rest st :
  wf_record 16 r ->
  count v = rec_len r -> address v = rec_address r -> segment v = 0 ->
  exists v1,
    hexSend v (hexbytes (rec_data r) ++ rest) st =
    (Next, v1, rest, send_and_show (load_of r) st) /\
    start_address v1 = start_address v.
Proof.
  intros (Hlen & Ha & Hb & _) Hc Had Hs.
  unfold hexSend. rewrite Hc, Had, Hs. unfold rec_len in *.
  rewrite Nat2Z.id.
  replace (fmtX 2 0) with (fmtX 2 (Z.land (Z.shiftr (rec_address r) 16) 255))
    by (rewrite bank_of_16bit by exact Ha; reflexivity).
  destruct (built_record (rec_address r) (rec_data r) Hlen) as [Hh Hr].
  cbv zeta in Hh, Hr.
  match goal with
  | |- context [hexData _ _ ?x ?c ?s 10] =>
      destruct (hexData_bytes (rec_data r) rest x c s 10 Hb Hh
                  ltac:(unfold s_size; lia)) as [value1 E]
  end.
  cbv zeta. rewrite E. cbv beta iota.
  rewrite checksum_fits, (fits_121 _ Hlen).
  rewrite Hr.
  eexists. split; reflexivity.
Qed.

Lemma srecSend_wf abits v r rest st :
  wf_record abits r ->
  count v = rec_len r -> address v = rec_address r ->
  exists v1,
    srecSend v (hexbytes (rec_data r) ++ rest) st =
    (Next, v1, rest, send_and_show (load_of r) st) /\
    start_address v1 = start_address v.
Proof.
  intros (Hlen & Ha & Hb & _) Hc Had.
  unfold srecSend. rewrite Hc, Had. unfold rec_len in *.
  rewrite Nat2Z.id.
  destruct (built_record (rec_address r) (rec_data r) Hlen) as [Hh Hr].
  cbv zeta in Hh, Hr.
  cbv zeta. rewrite srecData_hexData.
  match goal with
  | |- context [hexData _ _ ?x ?c ?s 10] =>
      destruct (hexData_bytes (rec_data r) rest x c s 10 Hb Hh
                  ltac:(unfold s_size; lia)) as [value1 E]
  end.
  rewrite E. cbv beta iota.
  rewrite checksum_fits, (fits_121 _ Hlen).
  rewrite Hr.
  eexists. split; reflexivity.
Qed.

(** What a pass comes to once a record was sent: the interface gets
    its turn and the cancel flag decides. *)
Lemma pass_end_tail v tail rest st :
  (length tail < line_limit)%nat -> ~ In NL tail ->
  pass_end v (tail ++ [NL] ++ rest) st =
  (if cancelled (Fl_check st)
   then (Break, v, rest, setCancelled false (Fl_check st))
   else (Next, v, rest, Fl_check st)).
Proof.
  intros Hl Hn. unfold pass_end. cbv zeta.
  change ([NL] ++ rest) with (NL :: rest).
  rewrite skipLine_tail by assumption. reflexivity.
Qed.

(** One pass of [uploadHex] over a well-formed data record: the load
    record of the specification is sent, then the flag is tested. *)
Lemma hexRecord_wf v r rest st :
  wf_record 16 r ->
  exists v1,
    hexRecord v (hex_body r ++ rest) st =
    (let st1 := Fl_check (send_and_show (load_of r) st) in
     if cancelled st1 then (Break, v1, rest, setCancelled false st1)
     else (Next, v1, rest, st1)) /\
    start_address v1 =
    (if start_address v =? -1 then rec_address r else start_address v).
Proof.
  intros Hwf. pose proof Hwf as (Hlen & Ha & Hb & Hn & Ht).
  unfold hexRecord, hex_body. rewrite <- !app_assoc.
  rewrite fscanfX_hexfield by lia.
  rewrite scan_failed_1.
  replace (rec_len r =? 0) with false by (symmetry; apply Z.eqb_neq; lia).
  cbn [count address start_address code value segment].
  rewrite fscanfX_hexfield by (try lia; exact Ha).
  rewrite scan_failed_1.
  rewrite fscanfX_hexfield by lia.
  rewrite scan_failed_1.
  change (0 =? 4) with false. change (0 =? 0) with true. cbv beta iota.
  match goal with
  | |- context [hexSend ?a (hexbytes (rec_data r) ++ ?b) st] =>
      destruct (hexSend_wf a r b st Hwf eq_refl eq_refl eq_refl) as (v1 & E & Hst)
  end.
  rewrite E. cbv beta iota.
  rewrite pass_end_tail by assumption.
  exists v1. split; [reflexivity |]. rewrite Hst. reflexivity.
Qed.

Lemma srecRecord_wf v kr rest st :
  wf_srec kr ->
  exists v1,
    srecRecord v (srec_line kr ++ rest) st =
    (let st1 := Fl_check (send_and_show (load_of (snd kr)) st) in
     if cancelled st1 then (Break, v1, rest, setCancelled false st1)
     else (Next, v1, rest, st1)) /\
    start_address v1 =
    (if start_address v =? -1 then rec_address (snd kr) else start_address v).
Proof.
  destruct kr as [k r]. unfold wf_srec, srec_line. cbn [fst snd].
  intros Hwf. pose proof Hwf as (Hlen & Ha & Hb & Hn & Ht).
  destruct k.
  - unfold srecRecord, s1_line. cbn [txt list_ascii_of_string app fgetc].
    change (to_char (char_code "S") =? EOF) with false.
    change (to_char (char_code "1") =? EOF) with false.
    change (to_char (char_code "1") - char_code "0") with 1.
    cbv beta iota. cbn [count address start_address code value segment].
    change ((1 <? 0) || (2 <? 1)) with false. cbv beta iota.
    rewrite <- !app_assoc.
    rewrite fscanfX_hexfield by lia.
    rewrite scan_failed_1.
    change (1 =? 1) with true. change (0 <? 1) with true. cbv beta iota.
    replace (rec_len r + 3 - 3) with (rec_len r) by ring.
    replace (rec_len r =? 0) with false by (symmetry; apply Z.eqb_neq; lia).
    unfold srecAddress. cbn [count address start_address code value segment].
    change (1 =? 1) with true. cbv beta iota.
    rewrite fscanfX_hexfield by (try lia; exact Ha).
    rewrite scan_failed_1. cbv beta iota.
    match goal with
    | |- context [srecSend ?a (hexbytes (rec_data r) ++ ?b) st] =>
        destruct (srecSend_wf _ a r b st Hwf eq_refl eq_refl) as (v1 & E & Hst)
    end.
    rewrite E. cbv beta iota.
    rewrite pass_end_tail by assumption.
    exists v1. split; [reflexivity |]. rewrite Hst. reflexivity.
  - unfold srecRecord, s2_line. cbn [txt list_ascii_of_string app fgetc].
    change (to_char (char_code "S") =? EOF) with false.
    change (to_char (char_code "2") =? EOF) with false.
    change (to_char (char_code "2") - char_code "0") with 2.
    cbv beta iota. cbn [count address start_address code value segment].
    change ((2 <? 0) || (2 <? 2)) with false. cbv beta iota.
    rewrite <- !app_assoc.
    rewrite fscanfX_hexfield by lia.
    rewrite scan_failed_1.
    change (2 =? 1) with false. change (2 =? 2) with true.
    change (0 <? 2) with true. cbv beta iota.
    replace (rec_len r + 4 - 4) with (rec_len r) by ring.
    replace (rec_len r =? 0) with false by (symmetry; apply Z.eqb_neq; lia).
    unfold srecAddress. cbn [count address start_address code value segment].
    change (2 =? 1) with false. change (2 =? 2) with true. cbv beta iota.
    rewrite fscanfX_hexfield by (try lia; exact Ha).
    rewrite scan_failed_1. cbv beta iota.
    match goal with
    | |- context [srecSend ?a (hexbytes (rec_data r) ++ ?b) st] =>
        destruct (srecSend_wf _ a r b st Hwf eq_refl eq_refl) as (v1 & E & Hst)
    end.
    rewrite E. cbv beta iota.
    rewrite pass_end_tail by assumption.
    exists v1. split; [reflexivity |]. rewrite Hst. reflexivity.
Qed.

(** ** Cancellation *)

Lemma send_and_show_frame s st :
  connected st = true ->
  connected (send_and_show s st) = true /\
  tx (send_and_show s st) = tx st ++ [on_wire s] /\
  cancelled (send_and_show s st) = cancelled st /\
  esc (send_and_show s st) = esc st.
Proof.
  intros Hc. unfold send_and_show, sendString. rewrite Hc. cbv zeta.
  cbn [connected tx cancelled esc call].
  match goal with
  | |- context [getData ?x] => destruct (getData_frame x) as (H1 & H2 & _ & H4 & H5)
  end.
  rewrite H1, H2, H4, H5. cbn [connected tx cancelled esc write set_buf].
  repeat split; try assumption; reflexivity.
Qed.

Lemma Fl_check_frame st pressed later :
  esc st = pressed :: later ->
  connected (Fl_check st) = connected st /\
  tx (Fl_check st) = tx st /\
  cancelled (Fl_check st) = cancelled st || pressed /\
  esc (Fl_check st) = later.
Proof. intros E. unfold Fl_check. rewrite E. cbn. repeat split. Qed.

(** The state once a record was sent and the flag tested, when the
    schedule [esc] starts with [pressed]. *)
Lemma record_sent_frame s st pressed later :
  connected st = true -> cancelled st = false -> esc st = pressed :: later ->
  let st1 := Fl_check (send_and_show s st) in
  connected st1 = true /\ tx st1 = tx st ++ [on_wire s] /\
  cancelled st1 = pressed /\ esc st1 = later.
Proof.
  intros Hc Hx He. cbv zeta.
  destruct (send_and_show_frame s st Hc) as (H1 & H2 & H3 & H4).
  destruct (Fl_check_frame (send_and_show s st) pressed later) as (G1 & G2 & G3 & G4);
    [congruence |].
  rewrite G1, G2, G3, G4, H1, H2, H3, Hx. repeat split.
Qed.

(** While nobody presses escape, the loop of [uploadHex] turns each
    well-formed data record into its load record and goes on. *)
Lemma hexLoop_records recs : forall v rest st es fuel,
  Forall (wf_record 16) recs ->
  connected st = true -> cancelled st = false ->
  esc st = repeat false (length recs) ++ es ->
  (length (concat (map hex_line recs) ++ rest) < fuel)%nat ->
  exists v1 st1,
    hexLoop fuel v (concat (map hex_line recs) ++ rest) st =
    hexLoop (S (length rest)) v1 rest st1 /\
    connected st1 = true /\ cancelled st1 = false /\ esc st1 = es /\
    tx st1 = tx st ++ map (fun r => on_wire (load_of r)) recs.
Proof.
  induction recs as [| r recs IH]; intros v rest st es fuel Hwf Hc Hx He Hf.
  - exists v, st. cbn [map concat app] in *.
    split; [apply hexLoop_fuel; lia |].
    rewrite app_nil_r. repeat split; assumption.
  - inversion Hwf as [| r' recs' Hr Hrs]; subst r' recs'.
    cbn [map concat length repeat app] in *.
    rewrite <- app_assoc in *.
    change (hex_line r) with (":"%char :: hex_body r) in *.
    cbn [app length] in Hf |- *.
    destruct fuel as [| fuel]; [lia |].
    cbn [hexLoop fgetc].
    change (char_code ":" =? EOF) with false.
    change (char_code ":" =? char_code ":") with true. cbv beta iota.
    destruct (hexRecord_wf v r (concat (map hex_line recs) ++ rest) st Hr)
      as (v1 & E & _).
    rewrite E. cbv zeta.
    destruct (record_sent_frame (load_of r) st false _ Hc Hx He) as (H1 & H2 & H3 & H4).
    cbv zeta in H1, H2, H3, H4. rewrite H3.
    assert (Hlen : (length (concat (map hex_line recs) ++ rest) < fuel)%nat).
    { rewrite length_app in Hf. lia. }
    destruct (IH v1 rest _ es fuel Hrs H1 H3 H4 Hlen)
      as (v2 & st2 & E2 & G1 & G2 & G3 & G4).
    exists v2, st2. split; [exact E2 |].
    repeat split; try assumption.
    rewrite G4, H2, <- app_assoc. reflexivity.
Qed.

Lemma srecLoop_records krs : forall v rest st es fuel,
  Forall wf_srec krs ->
  connected st = true -> cancelled st = false ->
  esc st = repeat false (length krs) ++ es ->
  (length (concat (map srec_line krs) ++ rest) < fuel)%nat ->
  exists v1 st1,
    srecLoop fuel v (concat (map srec_line krs) ++ rest) st =
    srecLoop (S (length rest)) v1 rest st1 /\
    connected st1 = true /\ cancelled st1 = false /\ esc st1 = es /\
    tx st1 = tx st ++ loads_on_wire krs /\
    start_address v1 =
    match krs with
    | [] => start_address v
    | kr :: _ =>
        if start_address v =? -1 then rec_address (snd kr) else start_address v
    end.
Proof.
  induction krs as [| kr krs IH]; intros v rest st es fuel Hwf Hc Hx He Hf.
  - exists v, st. cbn [map concat app loads_on_wire] in *.
    split; [apply srecLoop_fuel; lia |].
    rewrite app_nil_r. repeat split; assumption.
  - inversion Hwf as [| kr' krs' Hr Hrs]; subst kr' krs'.
    cbn [map concat length repeat app] in *.
    rewrite <- app_assoc in *.
    destruct fuel as [| fuel]; [lia |].
    cbn [srecLoop].
    destruct (srecRecord_wf v kr (concat (map srec_line krs) ++ rest) st Hr)
      as (v1 & E & Hst).
    rewrite E. cbv zeta.
    destruct (record_sent_frame (load_of (snd kr)) st false _ Hc Hx He) as (H1 & H2 & H3 & H4).
    cbv zeta in H1, H2, H3, H4. rewrite H3.
    assert (Hlen : (length (concat (map srec_line krs) ++ rest) < fuel)%nat).
    { rewrite length_app in Hf.
      assert (0 < length (srec_line kr))%nat.
      { destruct kr as [[|] r]; unfold srec_line, s1_line, s2_line; cbn; lia. }
      lia. }
    destruct (IH v1 rest _ es fuel Hrs H1 H3 H4 Hlen)
      as (v2 & st2 & E2 & G1 & G2 & G3 & G4 & G5).
    exists v2, st2. split; [exact E2 |].
    repeat split; try assumption.
    + rewrite G4, H2, <- app_assoc. reflexivity.
    + rewrite <- Hst. destruct krs as [| kr2 krs]; [exact G5 |].
      rewrite G5, Hst.
      destruct (start_address v =? -1) eqn:Es; [| rewrite Es; reflexivity].
      replace (rec_address (snd kr) =? -1) with false; [reflexivity |].
      symmetry. apply Z.eqb_neq.
      destruct kr as [k r]. unfold wf_srec in Hr. cbn [fst snd] in *.
      destruct Hr as (_ & Ha & _). lia.
Qed.

Lemma source_text_app fmt krs1 krs2 :
  source_text fmt (krs1 ++ krs2) = source_text fmt krs1 ++ source_text fmt krs2.
Proof. unfold source_text. rewrite map_app, concat_app. reflexivity. Qed.

Lemma source_text_hex krs :
  source_text HEX krs = concat (map hex_line (map snd krs)).
Proof. unfold source_text. rewrite map_map. reflexivity. Qed.

Lemma source_text_srec krs :
  source_text SREC krs = concat (map srec_line krs).
Proof. reflexivity. Qed.

Lemma loads_on_wire_hex krs :
  loads_on_wire krs = map (fun r => on_wire (load_of r)) (map snd krs).
Proof. unfold loads_on_wire. rewrite map_map. reflexivity. Qed.

Lemma sendString_terminator st :
  connected st = true ->
  tx (sendString terminator st) = tx st ++ [on_wire terminator] /\
  cancelled (sendString terminator st) = cancelled st /\
  esc (sendString terminator st) = esc st.
Proof. intros Hc. unfold sendString. rewrite Hc. repeat split. Qed.

(** The end of an upload that was cancelled: the flag is cleared, the
    terminator sent, the start address reported. *)
Lemma cancelled_upload_finish (v : Locals) (st : State) base sent later :
  connected st = true -> tx st = base ++ sent -> esc st = later ->
  exists st1,
    Done (call (Gui_setAddress (start_address v))
            (sendString terminator (setCancelled false st))) = Done st1 /\
    tx st1 = base ++ sent ++ [on_wire terminator] /\
    cancelled st1 = false /\
    esc st1 = later.
Proof.
  intros Hc Ht He. eexists. split; [reflexivity |].
  unfold sendString. cbn [connected setCancelled]. rewrite Hc.
  cbn [tx cancelled esc call write set_buf setCancelled]. rewrite Ht.
  split; [rewrite <- app_assoc; reflexivity | split; [reflexivity | exact He]].
Qed.

(** C6.  In both upload routines the cancel flag is looked at once
    after each source record, inside the pass that handled it: when the
    escape key is pressed during the turn the interface gets after the
    record [last], the records before it and [last] itself have been
    sent, the flag is cleared, nothing of [rest] is read, and only the
    terminator follows.  With five records and the key pressed during
    the second turn this gives two data load records, the terminator,
    and the flag down. *)
Theorem cancel_flag_checked_after_each_record :
  forall (fmt : Format) (fs : text -> option file) (filename : text)
         (done : list (SKind * DataRecord)) (last : SKind * DataRecord)
         (rest : text) (st : State) (later : list bool),
    Forall (wf_source fmt) (done ++ [last]) ->
    fs filename = Some (source_text fmt (done ++ [last]) ++ rest) ->
    connected st = true ->
    cancelled st = false ->
    esc st = repeat false (length done) ++ true :: later ->
    exists st1,
      upload_as fmt fs filename st = Done st1 /\
      tx st1 = tx st ++ loads_on_wire (done ++ [last]) ++ [on_wire terminator] /\
      cancelled st1 = false /\
      esc st1 = later.
Proof.
  intros fmt fs filename done last rest st later Hwf Hfs Hc Hx He.
  apply Forall_app in Hwf. destruct Hwf as [Hdone Hlast].
  inversion Hlast as [| x l Hl _]; subst x l. clear Hlast.
  rewrite source_text_app, <- app_assoc in Hfs.
  set (st' := call (Gui_append uploading_banner) st).
  assert (Hc' : connected st' = true) by exact Hc.
  assert (Hx' : cancelled st' = false) by exact Hx.
  assert (He' : esc st' = repeat false (length done) ++ true :: later) by exact He.
  destruct fmt.
  - (* Intel-HEX *)
    cbn [upload_as]. unfold uploadHex. rewrite Hfs. fold st'.
    rewrite !source_text_hex.
    assert (Hd : Forall (wf_record 16) (map snd done)).
    { rewrite Forall_map. exact Hdone. }
    destruct (hexLoop_records (map snd done) locals0
                (concat (map hex_line (map snd [last])) ++ rest) st'
                (true :: later) _ Hd Hc' Hx'
                ltac:(rewrite length_map; exact He') (Nat.lt_succ_diag_r _))
      as (v1 & st1 & E & G1 & G2 & G3 & G4).
    rewrite E.
    cbn [map concat]. rewrite app_nil_r.
    change (hex_line (snd last)) with (":"%char :: hex_body (snd last)).
    cbn [app length hexLoop fgetc].
    change (char_code ":" =? EOF) with false.
    change (char_code ":" =? char_code ":") with true. cbv beta iota.
    destruct (hexRecord_wf v1 (snd last) rest st1 Hl) as (v2 & E2 & _).
    rewrite E2. cbv zeta.
    destruct (record_sent_frame (load_of (snd last)) st1 true later G1 G2 G3)
      as (H1 & H2 & H3 & H4).
    cbv zeta in H1, H2, H3, H4. rewrite H3.
    apply cancelled_upload_finish; [exact H1 | | exact H4].
    rewrite H2, G4. subst st'.
    rewrite loads_on_wire_hex, map_app, map_app, <- !app_assoc. reflexivity.
  - (* S-record *)
    cbn [upload_as]. unfold uploadSrec. rewrite Hfs. fold st'.
    rewrite !source_text_srec.
    destruct (srecLoop_records done locals0
                (concat (map srec_line [last]) ++ rest) st'
                (true :: later) _ Hdone Hc' Hx' He' (Nat.lt_succ_diag_r _))
      as (v1 & st1 & E & G1 & G2 & G3 & G4 & _).
    rewrite E.
    cbn [map concat]. rewrite app_nil_r.
    cbn [srecLoop].
    destruct (srecRecord_wf v1 last rest st1 Hl) as (v2 & E2 & _).
    rewrite E2. cbv zeta.
    destruct (record_sent_frame (load_of (snd last)) st1 true later G1 G2 G3)
      as (H1 & H2 & H3 & H4).
    cbv zeta in H1, H2, H3, H4. rewrite H3.
    apply cancelled_upload_finish; [exact H1 | | exact H4].
    rewrite H2, G4. subst st'.
    unfold loads_on_wire. rewrite map_app, <- !app_assoc. reflexivity.
Qed.

(** ** Header records *)

(** One pass of [uploadSrec] over an S0 line: the count is tested as
    it was read, with nothing taken off. *)
Lemma srecRecord_s0 v c (tail : text) rest st :
  0 <= c < 256 -> ~ In NL tail -> (length tail < 256)%nat ->
  exists v1,
    count v1 = c /\ start_address v1 = start_address v /\
    srecRecord v (s0_line (c, tail) ++ rest) st =
    (if c =? 0 then (Break, v1, tail ++ [NL] ++ rest, st)
     else if cancelled (Fl_check st)
          then (Break, v1, rest, setCancelled false (Fl_check st))
          else (Next, v1, rest, Fl_check st)).
Proof.
  intros Hc Hn Hl.
  unfold srecRecord, s0_line. cbn [fst snd txt list_ascii_of_string app fgetc].
  change (to_char (char_code "S") =? EOF) with false.
  change (to_char (char_code "0") =? EOF) with false.
  change (to_char (char_code "0") - char_code "0") with 0.
  cbv beta iota. cbn [count address start_address code value segment].
  change ((0 <? 0) || (2 <? 0)) with false. cbv beta iota.
  rewrite <- !app_assoc.
  rewrite fscanfX_hexfield by lia.
  rewrite scan_failed_1.
  change (0 =? 1) with false. change (0 =? 2) with false.
  change (0 <? 0) with false. cbv beta iota.
  eexists. split; [| split]; cycle 2.
  - destruct (c =? 0); [reflexivity |].
    rewrite pass_end_tail by assumption. reflexivity.
  - reflexivity.
  - reflexivity.
Qed.

(** While nobody presses escape, header lines with a count other than
    zero are passed over: nothing is sent, no address is captured. *)
Lemma srecLoop_headers hdrs : forall v rest st later fuel,
  Forall wf_s0 hdrs ->
  cancelled st = false ->
  esc st = repeat false (length hdrs) ++ later ->
  (length (concat (map s0_line hdrs) ++ rest) < fuel)%nat ->
  exists v1 st1,
    srecLoop fuel v (concat (map s0_line hdrs) ++ rest) st =
    srecLoop (S (length rest)) v1 rest st1 /\
    connected st1 = connected st /\ cancelled st1 = false /\ esc st1 = later /\
    tx st1 = tx st /\ ui st1 = ui st /\ start_address v1 = start_address v.
Proof.
  induction hdrs as [| h hdrs IH]; intros v rest st later fuel Hwf Hx He Hf.
  - exists v, st. cbn [map concat app] in *.
    split; [apply srecLoop_fuel; lia |]. repeat split; assumption.
  - inversion Hwf as [| h' hdrs' Hh Hhs]; subst h' hdrs'.
    destruct h as [c tail]. destruct Hh as (Hc & Hn & Hl). cbn [fst snd] in Hc, Hn, Hl.
    cbn [map concat length repeat app] in *.
    rewrite <- app_assoc in *.
    destruct fuel as [| fuel]; [lia |].
    cbn [srecLoop].
    destruct (srecRecord_s0 v c tail (concat (map s0_line hdrs) ++ rest) st
                ltac:(lia) Hn Hl) as (v1 & _ & Hst & E).
    rewrite E.
    replace (c =? 0) with false by (symmetry; apply Z.eqb_neq; lia).
    destruct (Fl_check_frame st false _ He) as (F1 & F2 & F3 & F4).
    rewrite F3, Hx. cbn [orb].
    assert (Hlen : (length (concat (map s0_line hdrs) ++ rest) < fuel)%nat).
    { rewrite length_app in Hf.
      assert (0 < length (s0_line (c, tail)))%nat
        by (unfold s0_line; cbn [txt list_ascii_of_string app length]; lia).
      lia. }
    destruct (IH v1 rest (Fl_check st) later fuel Hhs
                ltac:(rewrite F3, Hx; reflexivity) F4 Hlen)
      as (v2 & st2 & E2 & G1 & G2 & G3 & G4 & G5 & G6).
    exists v2, st2. split; [exact E2 |].
    repeat split; try congruence.
    rewrite G5. unfold Fl_check. rewrite He. reflexivity.
Qed.

Lemma Fl_check_tx st :
  connected (Fl_check st) = connected st /\ tx (Fl_check st) = tx st /\
  ui (Fl_check st) = ui st.
Proof. unfold Fl_check. destruct (esc st); repeat split. Qed.

(** Whatever the interface does with its turn, a pass over a
    well-formed record has put the load record on the line once. *)
Lemma record_pass_tx s st (v1 : Locals) (rest : file) flow v2 fp2 st2 :
  connected st = true ->
  (let st1 := Fl_check (send_and_show s st) in
   if cancelled st1 then (Break, v1, rest, setCancelled false st1)
   else (Next, v1, rest, st1)) = (flow, v2, fp2, st2) ->
  v2 = v1 /\ fp2 = rest /\ connected st2 = true /\ tx st2 = tx st ++ [on_wire s] /\
  flow <> Overflow.
Proof.
  intros Hc. cbv zeta.
  destruct (send_and_show_frame s st Hc) as (H1 & H2 & _).
  destruct (Fl_check_tx (send_and_show s st)) as (F1 & F2 & _).
  destruct (cancelled (Fl_check (send_and_show s st))); intros E; tuple4_inv E;
    cbn [connected tx setCancelled]; repeat split; congruence.
Qed.

(** ** The start address and the checksum of 24-bit records *)

(** C5, as the program has it.  An S-record file whose first record
    with an address is a type-2 record [r] with 1 to 121 data bytes,
    after header lines of a count other than zero and with nobody
    pressing escape while they are passed over, reports the 24-bit
    address of [r] as start address (so [0x018000] for a record there),
    provided nothing further down the file makes the routine write past
    its array; and wherever such a type-2 record stands, the load record
    sent for it carries the bank byte as its high address byte while its
    checksum byte is computed from the length and the two low address
    bytes and the data alone. *)
Theorem srec_type2_start_address_and_checksum :
  forall (fs : text -> option file) (filename : text) (hdrs : list (Z * text))
         (r : DataRecord) (rest : text) (st : State) (later : list bool),
    Forall wf_s0 hdrs ->
    wf_record 24 r ->
    fs filename = Some (concat (map s0_line hdrs) ++ s2_line r ++ rest) ->
    connected st = true ->
    cancelled st = false ->
    esc st = repeat false (length hdrs) ++ later ->
    let a := rec_address r in
    let len := rec_len r in
    let bank := Z.land (Z.shiftr a 16) 255 in
    let hi := Z.land (Z.shiftr a 8) 255 in
    let lo := Z.land a 255 in
    let load :=
      txt "S2" ++ hexfield 2 (len + 4)
      ++ hexfield 2 bank ++ hexfield 2 hi ++ hexfield 2 lo
      ++ hexbytes (rec_data r)
      ++ hexfield 2 (Z.land (255 - Z.land (len + 4 + hi + lo + sum_of (rec_data r)) 255) 255)
      ++ [NL] in
    (uploadSrec fs filename st <> Overrun ->
     exists st1 more,
        uploadSrec fs filename st = Done st1 /\
        reports st1 a /\
        tx st1 = tx st ++ on_wire load :: more) /\
    (forall (v : Locals) (rest' : text) (st' : State),
        connected st' = true ->
        exists flow v1 st1,
          srecRecord v (s2_line r ++ rest') st' = (flow, v1, rest', st1) /\
          flow <> Overflow /\
          tx st1 = tx st' ++ [on_wire load]).
Proof.
  intros fs filename hdrs r rest st later Hh Hr Hfs Hc Hx He a len bank hi lo load.
  change load with (load_of r). clear load.
  assert (Ha : a <> -1) by (destruct Hr as (_ & Hr & _); subst a; lia).
  split.
  - unfold uploadSrec. rewrite Hfs.
    set (st' := call (Gui_append uploading_banner) st).
    destruct (srecLoop_headers hdrs locals0 (s2_line r ++ rest) st' later _ Hh Hx He
                (Nat.lt_succ_diag_r _))
      as (v1 & st1 & E & G1 & G2 & G3 & G4 & G5 & G6).
    rewrite E. cbn [srecLoop].
    destruct (srecRecord_wf v1 (K2, r) rest st1 Hr) as (v2 & E2 & Hst).
    change (srec_line (K2, r)) with (s2_line r) in E2. cbn [snd] in E2, Hst.
    rewrite G6 in Hst. cbn in Hst. fold a in Hst.
    destruct (srecRecord v1 (s2_line r ++ rest) st1) as [[[flow v3] fp3] st3] eqn:Er.
    symmetry in E2.
    apply record_pass_tx in E2; [| rewrite G1; exact Hc].
    destruct E2 as (-> & -> & C3 & T3 & Hflow).
    assert (Hfinal : forall v4 st4,
               extends st3 st4 -> keeps_start v2 v4 ->
               exists st5 more,
                 Done (call (Gui_setAddress (start_address v4))
                         (sendString terminator st4)) = Done st5 /\
                 reports st5 a /\ tx st5 = tx st ++ on_wire (load_of r) :: more).
    { intros v4 st4 [Hc4 (recs & Ht4 & _)] Hk.
      eexists. exists (recs ++ [on_wire terminator]).
      split; [reflexivity |]. split.
      - exists (ui (sendString terminator st4)).
        cbn [ui call]. rewrite Hk by congruence. rewrite Hst. reflexivity.
      - cbn [tx call].
        destruct (sendString_terminator st4) as (T & _); [congruence |].
        rewrite T, Ht4, T3, G4. subst st'. cbn [tx call].
        rewrite <- !app_assoc. reflexivity. }
    destruct flow; [| | contradiction Hflow; reflexivity].
    + destruct (srecLoop_total (length (s2_line r ++ rest)) v2 rest st3) as
          [E4 | (v4 & st4 & E4 & He4 & Hk4)].
      { rewrite length_app. unfold s2_line. cbn [txt list_ascii_of_string app length]. lia. }
      * rewrite E4. intros Hrun. contradiction Hrun. reflexivity.
      * rewrite E4. intros _. apply Hfinal; assumption.
    + intros _. apply Hfinal; [apply extends_refl | apply keeps_start_refl].
  - intros v rest' st2 Hc2.
    destruct (srecRecord_wf v (K2, r) rest' st2 Hr) as (v2 & E2 & _).
    change (srec_line (K2, r)) with (s2_line r) in E2. cbn [snd] in E2.
    destruct (srecRecord v (s2_line r ++ rest') st2) as [[[flow v3] fp3] st3] eqn:Er.
    symmetry in E2. apply record_pass_tx in E2; [| exact Hc2].
    destruct E2 as (-> & -> & _ & T3 & Hflow).
    exists flow, v2, st3. split; [reflexivity |]. split; [exact Hflow | exact T3].
Qed.

(** ** The checksum of Intel-HEX data records *)

(** The data loop on more bytes than [s] has room for writes past its
    end. *)
Lemma hexData_spill data : forall rest value checksum s index,
  Forall is_byte data ->
  (s_size <= index + 2 * length data)%nat -> (index < s_size)%nat ->
  hexData (length data) (hexbytes data ++ rest) value checksum s index = None.
Proof.
  induction data as [| b data IH]; intros rest value checksum s index Hb Hroom Hi.
  - cbn [length] in Hroom. lia.
  - inversion Hb as [| b' data' Hb1 Hb2]; subst b' data'.
    cbn [length] in Hroom. cbn [length hexData].
    change (hexbytes (b :: data)) with (hexfield 2 b ++ hexbytes data).
    rewrite <- app_assoc.
    rewrite fscanfX_hexfield by (try lia; exact Hb1).
    rewrite scan_failed_1, (fits_byte index b Hb1).
    destruct (index + 2 <? s_size)%nat eqn:F; [| reflexivity].
    apply Nat.ltb_lt in F. apply IH; [exact Hb2 | lia | lia].
Qed.

(** The branch of a data record on more than 121 bytes. *)
Lemma hexSend_oversize v data rest st :
  Forall is_byte data ->
  count v = Z.of_nat (length data) -> segment v = 0 ->
  (121 < length data <= 255)%nat ->
  exists v1 fp1, hexSend v (hexbytes data ++ rest) st = (Overflow, v1, fp1, st).
Proof.
  intros Hb Hc Hs Hlen. unfold hexSend. rewrite Hc, Hs, Nat2Z.id.
  destruct (Nat.le_gt_cases s_size (10 + 2 * length data)) as [Hbig | Hsmall].
  - rewrite hexData_spill by (try assumption; unfold s_size; lia).
    eexists. eexists. reflexivity.
  - assert (H122 : length data = 122%nat) by (unfold s_size in Hsmall; lia).
    match goal with
    | |- context [hexData _ _ ?x ?c ?s 10] =>
        destruct (hexData_bytes data rest x c s 10 Hb) as [value1 E]
    end.
    { cbn [txt list_ascii_of_string]. rewrite !length_app.
      rewrite !fmtX2_byte by first [apply land255_range | lia].
      rewrite !hexfield_length. reflexivity. }
    { exact Hsmall. }
    rewrite E. cbv beta iota.
    rewrite checksum_fits.
    replace (length data <=? 121)%nat with false by (symmetry; apply Nat.leb_gt; lia).
    eexists. eexists. reflexivity.
Qed.

Lemma hexRecord_oversize v r rest st :
  data_record 16 r -> 121 < rec_len r ->
  exists v1 fp1, hexRecord v (hex_body r ++ rest) st = (Overflow, v1, fp1, st).
Proof.
  intros (Hlen & Ha & Hb & Hn & Ht) Hbig.
  unfold hexRecord, hex_body. rewrite <- !app_assoc.
  rewrite fscanfX_hexfield by lia.
  rewrite scan_failed_1.
  replace (rec_len r =? 0) with false by (symmetry; apply Z.eqb_neq; lia).
  cbn [count address start_address code value segment].
  rewrite fscanfX_hexfield by (try lia; exact Ha).
  rewrite scan_failed_1.
  rewrite fscanfX_hexfield by lia.
  rewrite scan_failed_1.
  change (0 =? 4) with false. change (0 =? 0) with true. cbv beta iota.
  match goal with
  | |- context [hexSend ?a (hexbytes (rec_data r) ++ ?b) st] =>
      destruct (hexSend_oversize a (rec_data r) b st Hb eq_refl eq_refl)
        as (v1 & fp1 & E)
  end.
  { unfold rec_len in *. lia. }
  rewrite E. eexists. eexists. reflexivity.
Qed.

(** C4.  For an Intel-HEX data record of [len] bytes at the 16-bit
    offset [a], one pass of [uploadHex] sends the load record whose
    length byte is [len + 4], whose address bytes are [00] and the high
    and low byte of [a], and whose checksum byte is
    [(0xFF - ((len + 4 + addrHi + addrLo + sum of the data) & 0xFF)) & 0xFF]
    as long as the record has no more than 121 data bytes; for the
    record at [0x8000] with the two bytes [01 02] this is
    [S206008000010276]: length byte [06].  A record of 122 to 255 data
    bytes, which the format allows, makes the pass write past the end of
    its array [s] of 256 characters while it builds the load record, and
    the upload of a file that begins with one is lost there. *)
Theorem hex_data_record_checksum :
  forall (r : DataRecord) (v : Locals) (rest : text) (st : State),
    data_record 16 r ->
    connected st = true ->
    let a := rec_address r in
    let len := rec_len r in
    let addrHi := Z.land (Z.shiftr a 8) 255 in
    let addrLo := Z.land a 255 in
    let checksum :=
      Z.land (255 - Z.land (len + 4 + addrHi + addrLo + sum_of (rec_data r)) 255) 255 in
    let load :=
      txt "S2" ++ hexfield 2 (len + 4) ++ hexfield 2 0
      ++ hexfield 2 addrHi ++ hexfield 2 addrLo
      ++ hexbytes (rec_data r) ++ hexfield 2 checksum ++ [NL] in
    (len <= 121 ->
     exists flow v1 st1,
        hexRecord v (hex_body r ++ rest) st = (flow, v1, rest, st1) /\
        flow <> Overflow /\
        tx st1 = tx st ++ [on_wire load]) /\
    (a = 32768 -> rec_data r = [1; 2] ->
     load = txt "S206008000010276" ++ [NL] /\ hexfield 2 (len + 4) = txt "06") /\
    (121 < len ->
     (exists v1 fp1, hexRecord v (hex_body r ++ rest) st = (Overflow, v1, fp1, st)) /\
     (forall fs filename,
         fs filename = Some (hex_line r ++ rest) ->
         uploadHex fs filename st = Overrun)).
Proof.
  intros r v rest st Hd Hc a len addrHi addrLo checksum load.
  split; [| split].
  - intros Hsmall.
    assert (Hr : wf_record 16 r).
    { destruct Hd as (Hl & Hrest). split; [subst len; lia | exact Hrest]. }
    destruct (hexRecord_wf v r rest st Hr) as (v2 & E2 & _).
    destruct (hexRecord v (hex_body r ++ rest) st) as [[[flow v3] fp3] st3] eqn:Er.
    symmetry in E2. apply record_pass_tx in E2; [| exact Hc].
    destruct E2 as (-> & -> & _ & T3 & Hflow).
    exists flow, v2, st3. split; [reflexivity |]. split; [exact Hflow |].
    rewrite T3. unfold load_of, load_record.
    rewrite bank_of_16bit by (destruct Hr as (_ & Ha & _); exact Ha).
    reflexivity.
  - intros Ha Hdata. subst load checksum addrHi addrLo len. unfold rec_len.
    fold a. rewrite Ha, Hdata. split; reflexivity.
  - intros Hbig. split; [exact (hexRecord_oversize v r rest st Hd Hbig) |].
    intros fs filename Hfs. unfold uploadHex. rewrite Hfs.
    change (hex_line r ++ rest) with (":"%char :: (hex_body r ++ rest)).
    cbn [hexLoop fgetc].
    change (char_code ":" =? EOF) with false.
    change (char_code ":" =? char_code ":") with true. cbv beta iota.
    destruct (hexRecord_oversize locals0 r rest
                (call (Gui_append uploading_banner) st) Hd Hbig) as (v1 & fp1 & E).
    rewrite E. reflexivity.
Qed.

(** ** Header records are not end markers *)

(** C8, as the program has it.  The count of an S0 record is tested as
    read, with nothing subtracted: the loop ends there only when the
    count byte itself is zero, silently as at the end-of-file line of an
    Intel-HEX file; with any other count the line is passed over,
    nothing is sent, the cancel flag is looked at and the loop goes on
    with the next line. *)
Theorem srec_header_count_tested_as_read :
  forall (v : Locals) (c : Z) (tail rest : text) (st : State),
    0 <= c < 256 ->
    ~ In NL tail ->
    (length tail < 256)%nat ->
    exists v1,
      count v1 = c /\
      srecRecord v (s0_line (c, tail) ++ rest) st =
      (if c =? 0 then (Break, v1, tail ++ [NL] ++ rest, st)
       else if cancelled (Fl_check st)
            then (Break, v1, rest, setCancelled false (Fl_check st))
            else (Next, v1, rest, Fl_check st)).
Proof.
  intros v c tail rest st Hc Hn Hl.
  destruct (srecRecord_s0 v c tail rest st Hc Hn Hl) as (v1 & H1 & _ & E).
  exists v1. split; assumption.
Qed.

(** ** Register commands of the 16-bit dialect *)

Lemma hexdigit_not_NL d : 0 <= d < 16 -> nl_to_cr (hexdigit d) = hexdigit d.
Proof.
  intros H.
  assert (E : d = 0 \/ d = 1 \/ d = 2 \/ d = 3 \/ d = 4 \/ d = 5 \/ d = 6 \/
              d = 7 \/ d = 8 \/ d = 9 \/ d = 10 \/ d = 11 \/ d = 12 \/
              d = 13 \/ d = 14 \/ d = 15) by lia.
  repeat (destruct E as [E | E]; [subst d; reflexivity |]).
  subst d; reflexivity.
Qed.

Lemma on_wire_app a b : on_wire (a ++ b) = on_wire a ++ on_wire b.
Proof. apply map_app. Qed.

Lemma on_wire_hexdigits fuel : forall n,
  on_wire (hexdigits fuel n) = hexdigits fuel n.
Proof.
  induction fuel as [| fuel IH]; intros n; [reflexivity |].
  cbn [hexdigits]. rewrite on_wire_app.
  cbn [on_wire map]. rewrite hexdigit_not_NL by (apply Z.mod_pos_bound; lia).
  destruct (n / 16 =? 0); [reflexivity |].
  fold (on_wire (hexdigits fuel (n / 16))). rewrite IH. reflexivity.
Qed.

Lemma on_wire_repeat (c : ascii) n : nl_to_cr c = c -> on_wire (repeat c n) = repeat c n.
Proof. intros H. induction n as [| n IH]; [reflexivity |]. cbn. rewrite H. f_equal. exact IH. Qed.

(** No hexadecimal field holds a line feed: it crosses [sendString]
    untouched. *)
Lemma on_wire_fmtX w v : on_wire (fmtX w v) = fmtX w v.
Proof.
  unfold fmtX. rewrite on_wire_app, on_wire_hexdigits, on_wire_repeat; reflexivity.
Qed.

Lemma on_wire_blanks n : on_wire (blanks n) = blanks n.
Proof. apply on_wire_repeat. reflexivity. Qed.

Lemma sendString_twice a b st :
  connected st = true ->
  tx (sendString b (sendString a st)) = tx st ++ [on_wire a; on_wire b].
Proof.
  intros Hc. unfold sendString. rewrite Hc. cbn [connected write set_buf]. rewrite Hc.
  cbn [tx write set_buf]. rewrite <- app_assoc. reflexivity.
Qed.

(** What [changeReg] puts on the line in the 16-bit dialect for a
    register that has a command: the command with its field, then
    [R]. *)
Lemma changeReg_134 reg num st lead w trail :
  connected st = true -> mode st = MODE_134 ->
  layout134 reg = Some (lead, w, trail) ->
  0 <= num ->
  tx (changeReg reg num st) =
  tx st ++ [txt "A" ++ blanks lead
            ++ (match reg with
                | REG_PC => fmtX 4 (Z.land num 65535)
                | REG_SR => fmtX 2 (Z.land num 255)
                | _ => fmtX 2 num
                end)
            ++ blanks trail; txt "R"].
Proof.
  intros Hc Hm Hl Hn. unfold changeReg. rewrite Hc, Hm. cbn [negb].
  replace (num <? 0) with false by (symmetry; apply Z.ltb_ge; exact Hn).
  destruct reg; cbn [layout134] in Hl; inversion Hl; subst lead w trail;
    match goal with
    | |- tx (call _ _) = _ => cbn [tx call]
    | _ => idtac
    end;
    rewrite sendString_twice by exact Hc;
    rewrite !on_wire_app, !on_wire_fmtX, ?app_nil_r; reflexivity.
Qed.

(** C7, as the program has it.  In the 16-bit dialect a register
    command is a line of fixed width followed by a bare [R]: the letter
    [A], blanks, the digits in the columns of the register, blanks; 10
    characters for the program counter, 8 for the status register,
    accumulator, X, Y and stack pointer when the value fits one byte.
    The accumulator set to [0x0A] gives the 8 characters of [A  0A]
    padded with three blanks, then [R]: 9 bytes with the commit. *)
Theorem dialect_B_register_command_layout :
  forall (reg : Reg) (num : Z) (st : State) (lead w trail : nat),
    connected st = true ->
    mode st = MODE_134 ->
    layout134 reg = Some (lead, w, trail) ->
    0 <= num ->
    (unmasked134 reg = true -> num <= 255) ->
    let cmd := txt "A" ++ blanks lead
               ++ hexfield w (num mod 16 ^ Z.of_nat w) ++ blanks trail in
    tx (changeReg reg num st) = tx st ++ [cmd; txt "R"] /\
    length cmd = match reg with REG_PC => 10%nat | _ => 8%nat end /\
    (reg = REG_A -> num = 10 ->
     cmd = txt "A  0A   " /\ length (concat [cmd; txt "R"]) = 9%nat).
Proof.
  intros reg num st lead w trail Hc Hm Hl Hn Hu cmd.
  split; [| split].
  - rewrite (changeReg_134 reg num st lead w trail Hc Hm Hl Hn). subst cmd.
    destruct reg; cbn [layout134] in Hl; inversion Hl; subst lead w trail;
      cbn [unmasked134] in Hu.
    + change 65535 with (Z.ones 16).
      rewrite Z.land_ones by lia.
      rewrite fmtX_hexfield by (try lia; apply Z.mod_pos_bound; lia). reflexivity.
    + rewrite fmtX2_byte by (specialize (Hu eq_refl); lia).
      rewrite Z.mod_small by (specialize (Hu eq_refl); change (16 ^ Z.of_nat 2) with 256; lia).
      reflexivity.
    + rewrite fmtX2_byte by (specialize (Hu eq_refl); lia).
      rewrite Z.mod_small by (specialize (Hu eq_refl); change (16 ^ Z.of_nat 2) with 256; lia).
      reflexivity.
    + rewrite fmtX2_byte by (specialize (Hu eq_refl); lia).
      rewrite Z.mod_small by (specialize (Hu eq_refl); change (16 ^ Z.of_nat 2) with 256; lia).
      reflexivity.
    + rewrite fmtX2_byte by (specialize (Hu eq_refl); lia).
      rewrite Z.mod_small by (specialize (Hu eq_refl); change (16 ^ Z.of_nat 2) with 256; lia).
      reflexivity.
    + rewrite land255. rewrite fmtX2_byte by (apply Z.mod_pos_bound; lia). reflexivity.
  - subst cmd. unfold blanks.
    rewrite !length_app, !repeat_length, hexfield_length.
    destruct reg; cbn [layout134] in Hl; inversion Hl; reflexivity.
  - intros -> ->. cbn [layout134] in Hl. inversion Hl; subst lead w trail.
    subst cmd. split; reflexivity.
Qed.

(** C10.  In the 16-bit dialect [changeReg] cuts the value to the
    width of the field for the program counter (16 bits) and the status
    register (8 bits) only.  For the accumulator, X, Y and the stack
    pointer the field is the value printed with [%02X] as it is: two
    digits for every value up to [0xFF], so that the columns hold, and
    three or more above, which pushes the blanks after it to the
    right. *)
Theorem dialect_B_masks_pc_and_status_only :
  forall (reg : Reg) (num : Z) (st : State) (lead w trail : nat),
    connected st = true ->
    mode st = MODE_134 ->
    layout134 reg = Some (lead, w, trail) ->
    0 <= num < 2 ^ 31 ->
    exists field,
      tx (changeReg reg num st) =
      tx st ++ [txt "A" ++ blanks lead ++ field ++ blanks trail; txt "R"] /\
      (reg = REG_PC -> field = hexfield 4 (Z.land num 65535)) /\
      (reg = REG_SR -> field = hexfield 2 (Z.land num 255)) /\
      (unmasked134 reg = true ->
       field = fmtX 2 num /\
       (num <= 255 -> field = hexfield 2 num /\ length field = 2%nat) /\
       (255 < num -> (2 < length field)%nat)).
Proof.
  intros reg num st lead w trail Hc Hm Hl Hn.
  eexists. split; [apply (changeReg_134 reg num st lead w trail Hc Hm Hl); lia |].
  assert (Hwide : unmasked134 reg = true ->
                  fmtX 2 num = fmtX 2 num /\
                  (num <= 255 -> fmtX 2 num = hexfield 2 num /\ length (fmtX 2 num) = 2%nat) /\
                  (255 < num -> (2 < length (fmtX 2 num))%nat)).
  { intros _. split; [reflexivity |]. split.
    - intros Hle. rewrite fmtX2_byte by lia. split; [reflexivity | apply hexfield_length].
    - intros Hgt. apply fmtX2_wide. lia. }
  destruct reg; cbn [unmasked134]; (split; [| split]);
    try discriminate; try (intros _; exact (Hwide eq_refl)).
  - intros _. change 65535 with (Z.ones 16). rewrite Z.land_ones by lia.
    apply fmtX_hexfield; [lia | apply Z.mod_pos_bound; lia].
  - intros _. apply fmtX2_byte. apply land255_range.
Qed.

(** ** Operations on a closed link *)

(** C9.  While [connected] is false, sending a character or a string,
    setting a register, refreshing the registers, jumping, calling and
    dumping memory all leave the whole state as it is: nothing goes on
    the line and the flag stays false.  A connect attempt that fails
    leaves the flag false, and an upload asked for then sends nothing
    either. *)
Theorem disconnected_operations_do_nothing :
  forall (st : State) (c : ascii) (s : text) (reg : Reg) (num address : Z)
         (port : PortAnswer) (hardware_flow : Z)
         (pick : option text) (fs : text -> option file),
    connected st = false ->
    port <> PortOk ->
    sendChar c st = st /\
    sendString s st = st /\
    changeReg reg num st = st /\
    updateRegs st = Done st /\
    jml address st = st /\
    jsl address st = st /\
    dump address st = st /\
    (let st' := connect port hardware_flow st in
     connected st' = false /\ tx st' = tx st /\
     changeReg reg num st' = st' /\ updateRegs st' = Done st' /\
     exists st1, upload pick fs st' = Done st1 /\
                 tx st1 = tx st /\ connected st1 = false).
Proof.
  intros st c s reg num address port hardware_flow pick fs Hc Hp.
  unfold sendChar, sendString, changeReg, updateRegs, jml, jsl, dump.
  rewrite Hc. cbn [negb].
  repeat (split; [reflexivity |]).
  cbv zeta.
  assert (Hc' : connected (connect port hardware_flow st) = false).
  { destruct port; [exact Hc | exact Hc | contradiction]. }
  assert (Ht' : tx (connect port hardware_flow st) = tx st).
  { destruct port; [reflexivity | reflexivity | contradiction]. }
  rewrite Hc'. cbn [negb].
  repeat (split; [assumption || reflexivity |]).
  unfold upload. rewrite Hc'. cbn [negb].
  eexists. split; [reflexivity |]. split; [exact Ht' | exact Hc'].
Qed.

(** ** Where the program and its description part *)

(** C1.  The segment that a type-04 record stores does not reach the
    data records after it: every pass starts by setting [segment] to
    zero, so the pass of a data record neither reads the value it
    inherits nor prints anything but [00] as high address byte.  Here
    the segment [0001] precedes a data record at [8000]. *)
Theorem hex_segment_is_reset_on_every_line :
  run_map tx
    (uploadHex
       (one_file (txt ":020001040001F8" ++ [NL] ++ txt ":0180000055AA" ++ [NL]
                  ++ txt ":00000001FF" ++ [NL]))
       (txt "a.hex") session)
  = Done [txt "S2050080005525" ++ [CR]; txt "S804000000FB" ++ [CR]] /\
  (forall seg seg' a s c v n fp st,
      hexRecord (mkLocals seg a s c v n) fp st =
      hexRecord (mkLocals seg' a s c v n) fp st).
Proof.
  split; [vm_compute; reflexivity | reflexivity].
Qed.

(** C2.  A data byte missing at the end of an S-record file is
    reported, yet the load record assembled so far is still sent, with
    a checksum over the bytes read; and digits that are no hexadecimal
    digits are not noticed by either routine: the value read before is
    used again and no error is reported. *)
Theorem read_failures_still_send_records :
  (let result := uploadSrec (one_file (txt "S1058000AA")) (txt "a.srec") session in
   run_map tx result
   = Done [txt "S206008000AACF" ++ [CR]; txt "S804000000FB" ++ [CR]] /\
   run_map ui result
   = Done [Gui_append uploading_banner;
           Dialog_message (txt "Error") (txt "Error reading file." ++ [NL]);
           Gui_append []; Gui_setAddress 32768]) /\
  (let result := uploadHex (one_file (txt ":0280000001ZZ" ++ [NL]
                                      ++ txt ":00000001FF" ++ [NL]))
                           (txt "a.hex") session in
   run_map tx result
   = Done [txt "S206008000010177" ++ [CR]; txt "S804000000FB" ++ [CR]] /\
   run_map ui result
   = Done [Gui_append uploading_banner; Gui_append []; Gui_setAddress 32768]) /\
  (let result := uploadHex (one_file (txt ":02800000AA")) (txt "a.hex") session in
   run_map tx result = Done [txt "S804000000FB" ++ [CR]] /\
   run_map ui result
   = Done [Gui_append uploading_banner;
           Dialog_message (txt "Error") (txt "Error reading file." ++ [NL]);
           Gui_setAddress 32768]).
Proof.
  repeat split; vm_compute; reflexivity.
Qed.

(** C8 refuted as stated: the header [S0030000FC] has the count 3,
    which would be zero with 3 taken off; the loop does not end there
    but goes on and sends the record of the next line. *)
Lemma srec_header_count_3_goes_on :
  let file := txt "S0030000FC" ++ [NL] ++ txt "S1058000010277" ++ [NL] in
  (exists v st, srecRecord locals0 file session
                = (Next, v, txt "S1058000010277" ++ [NL], st) /\ count v = 3) /\
  run_map tx (uploadSrec (one_file file) (txt "a.srec") session)
  = Done [txt "S206008000010276" ++ [CR]; txt "S804000000FB" ++ [CR]].
Proof.
  split; [| vm_compute; reflexivity].
  eexists. eexists. split; vm_compute; reflexivity.
Qed.

(** C5 refuted as stated: the first record with an address in this
    file is a type-2 record at [0x018000], but it carries no data (count
    [04]); the loop ends there as at an end line, before the address is
    read, and the start address reported is [-1], not [0x018000]. *)
Lemma srec_type2_without_data_reports_no_address :
  let result := uploadSrec (one_file (txt "S2040180007A" ++ [NL]
                                      ++ txt "S9030000FC" ++ [NL]))
                           (txt "a.srec") session in
  run_map ui result = Done [Gui_append uploading_banner; Gui_setAddress (-1)] /\
  run_map tx result = Done [txt "S804000000FB" ++ [CR]].
Proof.
  split; vm_compute; reflexivity.
Qed.

(** C7 refuted as stated: the accumulator command is 8 characters
    long, 9 bytes with the commit, not 10. *)
Lemma dialect_B_accumulator_command_is_8_wide :
  tx (changeReg REG_A 10 session) = [txt "A  0A   "; txt "R"] /\
  length (txt "A  0A   ") = 8%nat /\
  length (concat (tx (changeReg REG_A 10 session))) <> 10%nat.
Proof.
  split; [vm_compute; reflexivity |].
  split; [reflexivity |].
  vm_compute. discriminate.
Qed.

(** ** The theorems at work on sample files *)

Ltac wf_sample :=
  unfold wf_record, rec_len;
  split; [cbn; lia |];
  split; [cbn; lia |];
  split; [cbn; repeat constructor; unfold is_byte; lia |];
  split; [cbn; intros [H | [H | []]]; discriminate H | cbn; lia].

Lemma wf_rec1 : wf_record 16 rec1.
Proof. wf_sample. Qed.

Lemma wf_rec2 : wf_record 16 rec2.
Proof. wf_sample. Qed.

Lemma wf_rec_bank1 : wf_record 24 rec_bank1.
Proof. wf_sample. Qed.

Lemma wf_header_3 : Forall wf_s0 [(3, txt "0000FC")].
Proof.
  repeat constructor; cbn [fst snd]; try lia.
  intros H. cbn in H. repeat (destruct H as [H | H]; [discriminate H |]). exact H.
Qed.

Ltac within_s :=
  let H := fresh in intros H; vm_compute in H; discriminate H.

(** C3 on a file that breaks off inside its first record. *)
Lemma upload_sends_one_terminator_last_witness :
  (exists st1 recs,
      uploadHex (one_file (txt ":02800000AA")) (txt "a.hex") session = Done st1 /\
      tx st1 = tx session ++ recs ++ [on_wire terminator] /\
      Forall is_S2 recs /\ ~ In (on_wire terminator) recs) /\
  (exists st1 recs,
      uploadSrec (one_file (txt ":02800000AA")) (txt "a.hex") session = Done st1 /\
      tx st1 = tx session ++ recs ++ [on_wire terminator] /\
      Forall is_S2 recs /\ ~ In (on_wire terminator) recs).
Proof.
  destruct (upload_sends_one_terminator_last
              (one_file (txt ":02800000AA")) (txt "a.hex") (txt ":02800000AA") session
              eq_refl eq_refl) as [Hh Hs].
  split; [apply Hh | apply Hs]; within_s.
Defined.

Lemma data_record_rec1 : data_record 16 rec1.
Proof.
  destruct wf_rec1 as (Hl & Hrest). split; [unfold rec_len in *; lia | exact Hrest].
Qed.

Lemma data_record_rec_122 : data_record 16 rec_122.
Proof.
  unfold data_record, rec_len, rec_122. cbn [rec_data rec_address rec_tail].
  rewrite repeat_length.
  split; [lia |]. split; [lia |].
  split; [apply Forall_forall; intros x Hx; apply repeat_spec in Hx; subst x;
          unfold is_byte; lia |].
  split; [cbn; intros [H | [H | []]]; discriminate H | cbn; lia].
Qed.

(** C4 on the record at [0x8000] holding [01 02], and on a record of
    122 bytes. *)
Lemma hex_data_record_checksum_witness :
  (exists flow v1 st1,
      hexRecord locals0 (hex_body rec1 ++ hex_eof_line) session
      = (flow, v1, hex_eof_line, st1) /\
      tx st1 = [txt "S206008000010276" ++ [CR]]) /\
  uploadHex (one_file (hex_line rec_122 ++ hex_eof_line)) (txt "a.hex") session
  = Overrun.
Proof.
  split.
  - destruct (hex_data_record_checksum rec1 locals0 hex_eof_line session
                data_record_rec1 eq_refl)
      as (H & _).
    destruct (H ltac:(cbn; lia)) as (flow & v1 & st1 & E & _ & T).
    exists flow, v1, st1. split; [exact E | exact T].
  - destruct (hex_data_record_checksum rec_122 locals0 hex_eof_line session
                data_record_rec_122 eq_refl)
      as (_ & _ & H).
    destruct (H ltac:(unfold rec_len, rec_122; cbn [rec_data];
                      rewrite repeat_length; lia)) as (_ & U).
    exact (U (one_file (hex_line rec_122 ++ hex_eof_line)) (txt "a.hex") eq_refl).
Defined.

(** C5 on a header line followed by a type-2 record at [0x018000]. *)
Lemma srec_type2_start_address_and_checksum_witness :
  exists st1 more,
    uploadSrec (one_file (s0_line (3, txt "0000FC") ++ s2_line rec_bank1
                          ++ txt "S9030000FC" ++ [NL]))
               (txt "a.srec") session_quiet1 = Done st1 /\
    reports st1 98304 /\
    tx st1 = (txt "S206018000010276" ++ [CR]) :: more.
Proof.
  destruct (srec_type2_start_address_and_checksum
              (one_file (s0_line (3, txt "0000FC") ++ s2_line rec_bank1
                         ++ txt "S9030000FC" ++ [NL]))
              (txt "a.srec") [(3, txt "0000FC")] rec_bank1
              (txt "S9030000FC" ++ [NL]) session_quiet1 []
              wf_header_3 wf_rec_bank1 eq_refl eq_refl eq_refl eq_refl)
    as [H _].
  destruct (H ltac:(within_s)) as (st1 & more & E & R & T).
  exists st1, more. split; [exact E |]. split; [exact R | exact T].
Defined.

(** C6 on five records with escape pressed during the second turn:
    two data load records, the terminator, the flag down. *)
Lemma cancel_flag_checked_after_each_record_witness :
  exists st1,
    upload_as HEX (one_file (source_text HEX five_records ++ hex_eof_line))
              (txt "a.hex") session_esc2 = Done st1 /\
    tx st1 = [txt "S206008000010276" ++ [CR]; txt "S206008002030470" ++ [CR];
              txt "S804000000FB" ++ [CR]] /\
    cancelled st1 = false /\
    esc st1 = [].
Proof.
  destruct (cancel_flag_checked_after_each_record HEX
              (one_file (source_text HEX five_records ++ hex_eof_line))
              (txt "a.hex") [(K1, rec1)] (K1, rec2)
              (source_text HEX [(K1, rec3); (K1, rec4); (K1, rec5)] ++ hex_eof_line)
              session_esc2 [])
    as (st1 & E & T & X & S).
  - apply Forall_cons; [exact wf_rec1 |].
    apply Forall_cons; [exact wf_rec2 | apply Forall_nil].
  - vm_compute. reflexivity.
  - reflexivity.
  - reflexivity.
  - reflexivity.
  - exists st1. split; [exact E |].
    split; [rewrite T; vm_compute; reflexivity |]. split; [exact X | exact S].
Defined.

(** C7, as the program has it, on the accumulator set to [0x0A]. *)
Lemma dialect_B_register_command_layout_witness :
  tx (changeReg REG_A 10 session) = [txt "A  0A   "; txt "R"].
Proof.
  destruct (dialect_B_register_command_layout REG_A 10 session 2 2 3
              eq_refl eq_refl eq_refl ltac:(lia) ltac:(intros _; lia))
    as (T & _).
  exact T.
Defined.

(** C8, as the program has it, on the header [S0030000FC]. *)
Lemma srec_header_count_tested_as_read_witness :
  exists v1,
    count v1 = 3 /\
    srecRecord locals0 (s0_line (3, txt "0000FC") ++ txt "S1058000010277" ++ [NL])
               session
    = (Next, v1, txt "S1058000010277" ++ [NL], session).
Proof.
  destruct (srec_header_count_tested_as_read locals0 3 (txt "0000FC")
              (txt "S1058000010277" ++ [NL]) session ltac:(lia))
    as (v1 & C & E).
  - intros H. cbn in H. repeat (destruct H as [H | H]; [discriminate H |]). exact H.
  - cbn. lia.
  - exists v1. split; [exact C | exact E].
Defined.

(** C9 on a session that never connected. *)
Lemma disconnected_operations_do_nothing_witness :
  changeReg REG_A 10 offline = offline /\
  jml 32768 offline = offline /\
  connected (connect OpenFails 0 offline) = false.
Proof.
  destruct (disconnected_operations_do_nothing offline "a"%char (txt "R") REG_A 10 32768
              OpenFails 0 None (one_file []) eq_refl ltac:(discriminate))
    as (_ & _ & Hr & _ & Hj & _ & _ & Hc & _).
  split; [exact Hr |]. split; [exact Hj | exact Hc].
Defined.

(** C10 on the accumulator set to [0x1000]: four digits, the three
    blanks after them pushed two columns to the right. *)
Lemma dialect_B_masks_pc_and_status_only_witness :
  exists field,
    tx (changeReg REG_A 4096 session) = [txt "A  " ++ field ++ txt "   "; txt "R"] /\
    (2 < length field)%nat.
Proof.
  destruct (dialect_B_masks_pc_and_status_only REG_A 4096 session 2 2 3
              eq_refl eq_refl eq_refl ltac:(lia))
    as (field & T & _ & _ & W).
  exists field. split; [exact T |].
  destruct (W eq_refl) as (_ & _ & Hw). apply Hw. lia.
Defined.

(** * Further properties of the program *)

(** ** The receive buffer *)

Lemma read_spec n st :
  match rx st with
  | [] => read n st = (-1, [], st)
  | burst :: later =>
      exists st1,
        read n st = (Z.of_nat (length (firstn n burst)), firstn n burst, st1) /\
        rx st1 = match skipn n burst with [] => later | _ => skipn n burst :: later end /\
        connected st1 = connected st /\ flash st1 = flash st /\
        buf st1 = buf st /\ buf_pos st1 = buf_pos st /\ mode st1 = mode st
  end.
Proof.
  unfold read. destruct (rx st) as [| burst later]; [reflexivity |].
  eexists. split; [reflexivity |]. cbn. repeat split.
Qed.

Lemma getData_loop_bound fuel : forall st,
  buf_pos st <= 2048 -> Z.of_nat (length (buf st)) = buf_pos st ->
  buf_pos (getData_loop fuel st) <= 2304 /\
  Z.of_nat (length (buf (getData_loop fuel st))) = buf_pos (getData_loop fuel st) /\
  buf_pos st <= buf_pos (getData_loop fuel st) /\
  flash (getData_loop fuel st) = flash st /\
  mode (getData_loop fuel st) = mode st.
Proof.
  induction fuel as [| fuel IH]; intros st Hp Hl; [cbn; repeat split; lia |].
  cbn [getData_loop].
  pose proof (read_spec 256 st) as Hr.
  destruct (rx st) as [| burst later].
  - rewrite Hr. cbn. repeat split; lia.
  - destruct Hr as (st1 & E & _ & _ & Hf & Hb & Hq & Hm). rewrite E.
    pose proof (firstn_le_length 256 burst) as Hle.
    destruct (Z.of_nat (length (firstn 256 burst)) <=? 0) eqn:Eb.
    + rewrite Hb, Hq, Hf, Hm. repeat split; lia.
    + apply Z.leb_gt in Eb.
      assert (Hlen : Z.of_nat (length (buf st1 ++ firstn 256 burst)) =
                     buf_pos st1 + Z.of_nat (length (firstn 256 burst))).
      { rewrite length_app, Nat2Z.inj_add, Hb, Hq, Hl. reflexivity. }
      cbn [buf_pos set_buf].
      destruct (2048 <? _) eqn:Ec.
      * cbn [buf buf_pos flash mode set_buf]. rewrite Hlen, Hq, Hf, Hm.
        repeat split; lia.
      * apply Z.ltb_ge in Ec.
        destruct (IH (set_buf (buf st1 ++ firstn 256 burst)
                        (buf_pos st1 + Z.of_nat (length (firstn 256 burst))) st1))
          as (I1 & I2 & I3 & I4 & I5);
          [cbn [buf_pos set_buf]; exact Ec | cbn [buf buf_pos set_buf]; exact Hlen |].
        cbn [buf_pos flash mode set_buf] in I3, I4, I5.
        rewrite I4, I5, Hf, Hm. repeat split; try assumption; lia.
Qed.

Lemma cr_to_nl_no_CR l : ~ In CR (map cr_to_nl l).
Proof.
  induction l as [| c l IH]; [intros [] |].
  cbn [map]. intros [H | H]; [| exact (IH H)].
  unfold cr_to_nl in H. destruct (Ascii.eqb c CR) eqn:E.
  - discriminate H.
  - apply Ascii.eqb_neq in E. congruence.
Qed.

(** X1.  Whatever the device sends, [getData] leaves at most 2304 bytes
    in the receive buffer (the array has 4096), [buf_pos] counts them,
    and no carriage return is left among them. *)
Theorem getData_stays_within_the_buffer :
  forall st : State,
    0 <= buf_pos (getData st) <= 2304 /\
    Z.of_nat (length (buf (getData st))) = buf_pos (getData st) /\
    ~ In CR (buf (getData st)).
Proof.
  intros st. unfold getData. cbv zeta.
  cbn [buf buf_pos set_buf connected].
  split; [| split; [| apply cr_to_nl_no_CR]].
  - destruct (connected st).
    + destruct (getData_loop_bound getData_passes (set_buf [] 0 st))
        as (I1 & _ & I3 & _); [cbn; lia | reflexivity |].
      cbn [buf_pos set_buf] in I3. lia.
    + cbn. lia.
  - rewrite length_map. destruct (connected st).
    + destruct (getData_loop_bound getData_passes (set_buf [] 0 st))
        as (_ & I2 & _); [cbn; lia | reflexivity |]. exact I2.
    + reflexivity.
Qed.

Lemma getData_loop_collects bursts : forall fuel st stop,
  (length bursts < fuel)%nat ->
  rx st = bursts ++ stop -> hd [] stop = [] ->
  available bursts ->
  buf_pos st + Z.of_nat (length (concat bursts)) <= 2048 ->
  buf (getData_loop fuel st) = buf st ++ concat bursts /\
  buf_pos (getData_loop fuel st) = buf_pos st + Z.of_nat (length (concat bursts)) /\
  rx (getData_loop fuel st) = tl stop.
Proof.
  induction bursts as [| burst bursts IH]; intros fuel st stop Hf Hrx Hs Ha Hp.
  - destruct fuel as [| fuel]; [inversion Hf |].
    cbn [getData_loop app] in *.
    pose proof (read_spec 256 st) as Hr. rewrite Hrx in Hr.
    destruct stop as [| b later].
    + rewrite Hr. cbn. rewrite app_nil_r, Hrx. repeat split; lia.
    + cbn [hd] in Hs. subst b.
      destruct Hr as (st1 & E & R & _ & _ & Hb & Hq & _). rewrite E.
      cbn. rewrite app_nil_r, Hb, Hq. repeat split; [lia | exact R].
  - destruct fuel as [| fuel]; [inversion Hf |].
    inversion Ha as [| b bs [Hne Hle] Hrest]; subst b bs.
    cbn [getData_loop].
    pose proof (read_spec 256 st) as Hr. rewrite Hrx in Hr. cbn [app] in Hr.
    destruct Hr as (st1 & E & R & _ & _ & Hb & Hq & _). rewrite E.
    rewrite firstn_all2 in * by exact Hle.
    rewrite skipn_all2 in R by exact Hle.
    assert (Hpos : (0 < length burst)%nat) by (destruct burst; [congruence | cbn; lia]).
    replace (Z.of_nat (length burst) <=? 0) with false
      by (symmetry; apply Z.leb_gt; lia).
    cbn [concat] in Hp. rewrite length_app, Nat2Z.inj_add in Hp.
    cbn [buf_pos set_buf].
    replace (2048 <? buf_pos st1 + Z.of_nat (length burst)) with false
      by (symmetry; apply Z.ltb_ge; lia).
    destruct (IH fuel (set_buf (buf st1 ++ burst)
                        (buf_pos st1 + Z.of_nat (length burst)) st1) stop)
      as (I1 & I2 & I3); try assumption.
    + cbn [length] in Hf. lia.
    + cbn [buf_pos set_buf]. lia.
    + cbn [buf buf_pos set_buf] in I1, I2.
      cbn [concat]. rewrite I1, I2, I3, Hb, Hq, length_app, Nat2Z.inj_add, <- app_assoc.
      repeat split; lia.
Qed.

Lemma available_count bursts :
  available bursts -> (length bursts <= length (concat bursts))%nat.
Proof.
  induction 1 as [| b bs [Hne _] _ IH]; [cbn; lia |].
  cbn [concat length]. rewrite length_app.
  destruct b; [congruence | cbn [length]; lia].
Qed.

Lemma getData_collects st bursts stop :
  connected st = true ->
  available bursts ->
  (length (concat bursts) <= 2048)%nat ->
  rx st = bursts ++ stop -> hd [] stop = [] ->
  buf (getData st) = map cr_to_nl (concat bursts) /\
  buf_pos (getData st) = Z.of_nat (length (concat bursts)) /\
  rx (getData st) = tl stop.
Proof.
  intros Hc Ha Hl Hrx Hs. unfold getData. cbv zeta.
  cbn [connected set_buf]. rewrite Hc.
  destruct (getData_loop_collects bursts getData_passes (set_buf [] 0 st) stop)
    as (I1 & I2 & I3); try assumption.
  - pose proof (available_count bursts Ha). unfold getData_passes. lia.
  - cbn [buf_pos set_buf]. lia.
  - cbn [buf buf_pos rx set_buf] in *. rewrite I1, I2, I3. repeat split.
Qed.

(** X2.  When the device has sent bursts of bytes, 2048 at most in all,
    and then falls silent, one call of [getData] on an open link takes
    them all, in order, with every carriage return turned into a line
    feed, and leaves nothing of them for the next call. *)
Theorem getData_takes_all_that_is_there :
  forall (st : State) (bursts stop : list text),
    connected st = true ->
    available bursts ->
    (length (concat bursts) <= 2048)%nat ->
    rx st = bursts ++ stop ->
    hd [] stop = [] ->
    buf (getData st) = map cr_to_nl (concat bursts) /\
    buf_pos (getData st) = Z.of_nat (length (concat bursts)) /\
    rx (getData st) = tl stop /\
    tx (getData st) = tx st.
Proof.
  intros st bursts stop Hc Ha Hl Hrx Hs.
  destruct (getData_collects st bursts stop Hc Ha Hl Hrx Hs) as (H1 & H2 & H3).
  destruct (getData_frame st) as (_ & Ht & _).
  repeat split; assumption.
Qed.

(** ** Register display *)

Lemma sendString_frame s st :
  connected st = true ->
  connected (sendString s st) = true /\
  tx (sendString s st) = tx st ++ [on_wire s] /\
  ui (sendString s st) = ui st /\ rx (sendString s st) = rx st /\
  mode (sendString s st) = mode st /\ flash (sendString s st) = flash st /\
  cancelled (sendString s st) = cancelled st /\ esc (sendString s st) = esc st.
Proof. intros Hc. unfold sendString. rewrite Hc. cbn. repeat split. exact Hc. Qed.

Lemma filter_result_chars l : Forall (fun c => is_result_char c = true) (filter is_result_char l).
Proof.
  rewrite Forall_forall. intros c Hc. apply filter_In in Hc. apply Hc.
Qed.

(** X3.  On an open link [updateRegs] sends the query of the dialect
    ([| ] for the 24-bit one, [R] for the 16-bit one) and hands the
    register display what the device answered, up to the first NUL,
    reduced to its digits, capital letters and blanks, in the order
    received: echoes of control characters and line ends never reach the
    display.  This holds while the characters kept number 255 at most;
    with 256 or more of them [getResult] writes past the end of the
    array [s] of [updateRegs]. *)
Theorem updateRegs_shows_the_filtered_answer :
  forall (st : State) (bursts stop : list text),
    connected st = true ->
    available bursts ->
    (length (concat bursts) <= 2048)%nat ->
    rx st = bursts ++ stop ->
    hd [] stop = [] ->
    let query := match mode st with MODE_265 => txt "| " | MODE_134 => txt "R" end in
    let shown := filter is_result_char (cstr (map cr_to_nl (concat bursts))) in
    ((length shown < s_size)%nat ->
     exists st1,
       updateRegs st = Done st1 /\
       tx st1 = tx st ++ [query] /\
       ui st1 = ui st ++ [Gui_updateRegs shown] /\
       rx st1 = tl stop /\
       Forall (fun c => is_result_char c = true) shown) /\
    ((s_size <= length shown)%nat -> updateRegs st = Overrun).
Proof.
  intros st bursts stop Hc Ha Hl Hrx Hs query shown.
  assert (Hgo : forall q, on_wire q = q ->
            getResult s_size [] (sendString q st) =
            (if (length shown <? s_size)%nat then Some shown else None,
             getData (sendString q st)) /\
            tx (getData (sendString q st)) = tx st ++ [q] /\
            ui (getData (sendString q st)) = ui st /\
            rx (getData (sendString q st)) = tl stop).
  { intros q Hq.
    destruct (sendString_frame q st Hc) as (S1 & S2 & S3 & S4 & _).
    unfold getResult. rewrite S1. cbv zeta.
    destruct (getData_collects (sendString q st) bursts stop S1 Ha Hl
                ltac:(rewrite S4; exact Hrx) Hs) as (G1 & _ & G3).
    destruct (getData_frame (sendString q st)) as (_ & Gt & Gu & _).
    rewrite G1, G3, Gt, Gu, S2, S3, Hq.
    repeat split. }
  split.
  - intros Hfit. apply Nat.ltb_lt in Hfit.
    unfold updateRegs. rewrite Hc. cbn [negb]. subst query.
    destruct (mode st);
      match goal with
      | |- context [sendString ?q st] =>
          destruct (Hgo q eq_refl) as (R & T & U & X)
      end;
      rewrite R, Hfit; eexists; (split; [reflexivity |]);
      cbn [tx ui rx call]; rewrite T, U, X;
      repeat split; apply filter_result_chars.
  - intros Hbig. apply Nat.ltb_ge in Hbig.
    unfold updateRegs. rewrite Hc. cbn [negb].
    destruct (mode st);
      match goal with
      | |- context [sendString ?q st] =>
          destruct (Hgo q eq_refl) as (R & _)
      end;
      rewrite R, Hbig; reflexivity.
Qed.

(** ** What goes on the line *)

Lemma on_wire_no_NL s : ~ In NL (on_wire s).
Proof.
  induction s as [| c s IH]; [intros [] |].
  cbn [on_wire map]. intros [H | H]; [| exact (IH H)].
  unfold nl_to_cr in H. destruct (Ascii.eqb c NL) eqn:E.
  - discriminate H.
  - apply Ascii.eqb_neq in E. congruence.
Qed.

Lemma on_wire_clean s : ~ In NL s -> on_wire s = s.
Proof.
  induction s as [| c s IH]; intros Hn; [reflexivity |].
  cbn [on_wire map]. fold (on_wire s).
  rewrite IH by (intro H; apply Hn; right; exact H).
  unfold nl_to_cr. destruct (Ascii.eqb c NL) eqn:E; [| reflexivity].
  apply Ascii.eqb_eq in E. exfalso. apply Hn. left. exact E.
Qed.

(** X4.  No line feed ever leaves through [sendString] or [sendChar]:
    on an open link each makes one write, of as many bytes as it was
    given, in which every line feed has become a carriage return and
    every other byte is as it was.  For [sendString] the string is a C
    string (no NUL inside) that fits [buf] with its terminator, that is,
    one of fewer than 4096 characters. *)
Theorem line_feeds_leave_as_carriage_returns :
  forall (st : State) (s : text) (c : ascii),
    connected st = true ->
    Z.of_nat (length s) < 4096 ->
    ~ In NUL s ->
    (exists w, tx (sendString s st) = tx st ++ [w] /\
               length w = length s /\ ~ In NL w /\
               (forall i, nth i w NUL =
                          if Ascii.eqb (nth i s NUL) NL then CR else nth i s NUL)) /\
    (exists b, tx (sendChar c st) = tx st ++ [[b]] /\ b <> NL /\
               b = if Ascii.eqb c NL then CR else c).
Proof.
  intros st s c Hc _ _. split.
  - exists (on_wire s).
    destruct (sendString_frame s st Hc) as (_ & Ht & _).
    split; [exact Ht |]. split; [apply length_map |].
    split; [apply on_wire_no_NL |].
    intros i. unfold on_wire.
    change NUL with (nl_to_cr NUL) at 1. rewrite map_nth. reflexivity.
  - exists (nl_to_cr c). unfold sendChar. rewrite Hc.
    split; [reflexivity |]. split; [| reflexivity].
    intro H. apply (on_wire_no_NL [c]). left. exact H.
Qed.

(** ** Commands of the 24-bit dialect, jumps and dumps *)

Lemma shiftr16 a : Z.shiftr a 16 = a / 65536.
Proof. rewrite Z.shiftr_div_pow2 by lia. reflexivity. Qed.

Lemma land65535 a : Z.land a 65535 = a mod 65536.
Proof. change 65535 with (Z.ones 16). rewrite Z.land_ones by lia. reflexivity. Qed.

Lemma fmtX_bank a : 0 <= a < 2 ^ 24 -> fmtX 2 (Z.shiftr a 16) = hexfield 2 (a / 65536).
Proof.
  intros H. rewrite shiftr16. apply fmtX2_byte.
  split; [apply Z.div_pos; lia | apply Z.div_lt_upper_bound; lia].
Qed.

Lemma fmtX_offset a : fmtX 4 (Z.land a 65535) = hexfield 4 (a mod 65536).
Proof.
  rewrite land65535. apply fmtX_hexfield; [lia | apply Z.mod_pos_bound; lia].
Qed.

Lemma fmtX4_word a : 0 <= a < 65536 -> fmtX 4 a = hexfield 4 a.
Proof. intros H. apply fmtX_hexfield; [lia | exact H]. Qed.

Lemma changeReg_265 reg num st :
  connected st = true -> mode st = MODE_265 -> 0 <= num ->
  tx (changeReg reg num st) =
  tx st ++ [txt "|" ++ [letter265 reg]
            ++ (match reg with
                | REG_PC => fmtX 2 (Z.shiftr num 16) ++ txt ":"
                            ++ fmtX 4 (Z.land num 65535)
                | REG_SR | REG_DB => fmtX 2 num
                | _ => fmtX 4 num
                end); txt "R"].
Proof.
  intros Hc Hm Hn. unfold changeReg. rewrite Hc, Hm. cbn [negb].
  replace (num <? 0) with false by (symmetry; apply Z.ltb_ge; exact Hn).
  destruct reg;
    match goal with
    | |- tx (call _ _) = _ => cbn [tx call]
    | _ => idtac
    end;
    rewrite sendString_twice by exact Hc;
    rewrite !on_wire_app, !on_wire_fmtX; reflexivity.
Qed.

(** X5.  In the 24-bit dialect a register is set by one command and a
    bare [R]: a bar, the letter of the register, and the value in
    upper-case hexadecimal, four digits for A, X, Y, S and D, two for F
    and B, and bank, colon, offset for the program counter. *)
Theorem dialect_A_register_command :
  forall (reg : Reg) (num : Z) (st : State),
    connected st = true ->
    mode st = MODE_265 ->
    0 <= num < 2 ^ bits265 reg ->
    tx (changeReg reg num st) =
    tx st ++ [txt "|" ++ [letter265 reg] ++ field265 reg num; txt "R"].
Proof.
  intros reg num st Hc Hm Hn.
  rewrite (changeReg_265 reg num st Hc Hm) by lia.
  destruct reg; cbn [bits265] in Hn; cbn [field265];
    rewrite ?fmtX_bank, ?fmtX_offset, ?fmtX4_word, ?fmtX2_byte by lia;
    reflexivity.
Qed.

Lemma sendString_ui s st : ui (sendString s st) = ui st.
Proof. unfold sendString. destruct (connected st); reflexivity. Qed.

(** X6.  [changeReg] treats a negative value as zero, and tells the
    interface to refresh its status toggles for the status register
    only, in both dialects, passing the value as it was given (cut at
    zero), not the byte that went into the command. *)
Theorem changeReg_clamps_and_refreshes_toggles :
  forall (reg : Reg) (num : Z) (st : State),
    connected st = true ->
    changeReg reg num st = changeReg reg (Z.max 0 num) st /\
    ui (changeReg reg num st) =
    ui st ++ match reg with
             | REG_SR => [Gui_setToggles (Z.max 0 num)]
             | _ => []
             end.
Proof.
  intros reg num st Hc.
  assert (Hmax : (if num <? 0 then 0 else num) = Z.max 0 num).
  { destruct (num <? 0) eqn:E; [apply Z.ltb_lt in E | apply Z.ltb_ge in E]; lia. }
  assert (Hmax2 : (if Z.max 0 num <? 0 then 0 else Z.max 0 num) = Z.max 0 num).
  { destruct (Z.max 0 num <? 0) eqn:E; [apply Z.ltb_lt in E; lia | reflexivity]. }
  split.
  - unfold changeReg. rewrite Hc, Hmax, Hmax2. reflexivity.
  - unfold changeReg. rewrite Hc, Hmax. cbn [negb].
    destruct (mode st); destruct reg; cbn [ui call];
      rewrite ?sendString_ui, ?app_nil_r; reflexivity.
Qed.

(** X7.  [jml] and [jsl] send the letter ([G] to jump, [J] to call) and
    then the address, without a line end: bank and offset, six digits,
    in the 24-bit dialect; the low 16 bits only, four digits, in the
    16-bit dialect, where the bank is dropped without notice. *)
Theorem jump_and_call_commands :
  forall (address : Z) (st : State),
    connected st = true ->
    0 <= address < 2 ^ 24 ->
    let operand := match mode st with
                   | MODE_265 => hex6 address
                   | MODE_134 => hexfield 4 (address mod 65536)
                   end in
    tx (jml address st) = tx st ++ [txt "G"; operand] /\
    tx (jsl address st) = tx st ++ [txt "J"; operand] /\
    ui (jml address st) = ui st /\ ui (jsl address st) = ui st.
Proof.
  intros address st Hc Ha operand. subst operand.
  unfold jml, jsl, hex6. rewrite Hc. cbn [negb].
  replace (address <? 0) with false by (symmetry; apply Z.ltb_ge; lia).
  destruct (mode st);
    rewrite !sendString_twice by exact Hc;
    rewrite !sendString_ui, ?on_wire_app, !on_wire_fmtX, ?fmtX_bank, !fmtX_offset by lia;
    repeat split.
Qed.

Lemma sendString_thrice a b c st :
  connected st = true ->
  tx (sendString c (sendString b (sendString a st))) =
  tx st ++ [on_wire a; on_wire b; on_wire c].
Proof.
  intros Hc.
  destruct (sendString_frame a st Hc) as (C1 & _).
  destruct (sendString_frame c (sendString b (sendString a st))) as (_ & T & _).
  { apply sendString_frame. exact C1. }
  rewrite T, sendString_twice by exact Hc. rewrite <- app_assoc. reflexivity.
Qed.

(** X8.  [dump] asks for the 256 bytes from [address] on: in the
    24-bit dialect it sends [D], the first address and the last one,
    six digits each, and a carriage return; in the 16-bit dialect [D]
    and the two addresses cut to 16 bits, four digits each, and no line
    end, so that the last address wraps round below the first when the
    range crosses [0xFFFF].  The range is announced in the log
    first. *)
Theorem dump_request :
  forall (address : Z) (st : State),
    connected st = true ->
    0 <= address ->
    address + 255 < 2 ^ 24 ->
    let last := address + 255 in
    tx (dump address st) =
    tx st ++ match mode st with
             | MODE_265 => [txt "D"; hex6 address; hex6 last ++ [CR]]
             | MODE_134 => [txt "D"; hexfield 4 (address mod 65536)
                                     ++ hexfield 4 (last mod 65536)]
             end /\
    ui (dump address st) =
    ui st ++ [Gui_append ([NL] ++ txt "Memory dump from "
                          ++ hexfield 2 (address / 65536) ++ txt ":"
                          ++ hexfield 4 (address mod 65536) ++ txt " - "
                          ++ hexfield 2 (last / 65536) ++ txt ":"
                          ++ hexfield 4 (last mod 65536) ++ [NL])].
Proof.
  intros address st Hc Ha Hl last.
  assert (Hi : to_int (address + 255) = last) by (apply to_int_small; lia).
  assert (Hlast : 0 <= last < 2 ^ 24) by (subst last; lia).
  unfold dump. rewrite Hc. cbn [negb].
  replace (address <? 0) with false by (symmetry; apply Z.ltb_ge; lia).
  cbv zeta. rewrite Hi.
  set (banner := Gui_append _).
  assert (Hc' : connected (call banner st) = true) by exact Hc.
  cbn [mode call].
  split.
  - destruct (mode st).
    + rewrite sendString_thrice by exact Hc'. cbn [tx call].
      rewrite !on_wire_app, !on_wire_fmtX.
      rewrite !fmtX_bank, !fmtX_offset by lia.
      unfold hex6. rewrite <- !app_assoc. reflexivity.
    + rewrite sendString_twice by exact Hc'. cbn [tx call].
      rewrite on_wire_app, !on_wire_fmtX, !fmtX_offset. reflexivity.
  - assert (Hui : forall x, ui x = ui (call banner st) ->
                  ui x = ui st ++ [Gui_append ([NL] ++ txt "Memory dump from "
                          ++ hexfield 2 (address / 65536) ++ txt ":"
                          ++ hexfield 4 (address mod 65536) ++ txt " - "
                          ++ hexfield 2 (last / 65536) ++ txt ":"
                          ++ hexfield 4 (last mod 65536) ++ [NL])]).
    { intros x ->. subst banner. cbn [ui call].
      rewrite !fmtX_bank, !fmtX_offset by lia. reflexivity. }
    destruct (mode st); apply Hui; rewrite !sendString_ui; reflexivity.
Qed.

(** ** The idle poll *)

Lemma getData_keeps_flash st :
  flash (getData st) = flash st /\ mode (getData st) = mode st.
Proof.
  unfold getData. cbv zeta. cbn [flash mode connected set_buf].
  destruct (connected st); [| split; reflexivity].
  destruct (getData_loop_bound getData_passes (set_buf [] 0 st))
    as (_ & _ & _ & Hf & Hm); [cbn; lia | reflexivity |].
  split; assumption.
Qed.

Lemma cursor_bit f : (Z.land (Z.shiftr f 2) 1 =? 1) = (4 <=? f mod 8).
Proof.
  rewrite Z.shiftr_div_pow2 by lia. change (2 ^ 2) with 4.
  change 1 with (Z.ones 1) at 1. rewrite Z.land_ones by lia. change (2 ^ 1) with 2.
  pose proof (Z.rem_mul_r f 4 2 ltac:(lia) ltac:(lia)) as H. change (4 * 2) with 8 in H.
  pose proof (Z.mod_pos_bound f 4 ltac:(lia)).
  pose proof (Z.mod_pos_bound (f / 4) 2 ltac:(lia)).
  destruct (f / 4 mod 2 =? 1) eqn:E1; destruct (4 <=? f mod 8) eqn:E2;
    try reflexivity;
    [apply Z.eqb_eq in E1; apply Z.leb_gt in E2
    | apply Z.eqb_neq in E1; apply Z.leb_le in E2]; lia.
Qed.

Lemma receive_step st :
  0 <= flash st <= 63 ->
  flash (receive st) = (flash st + 1) mod 64 /\
  ui (receive st) = ui st ++ [Gui_append (cstr (buf (getData st)));
                             Gui_flashCursor (4 <=? ((flash st + 1) mod 64) mod 8)] /\
  tx (receive st) = tx st /\ connected (receive st) = connected st.
Proof.
  intros Hf. unfold receive. cbv zeta.
  destruct (getData_keeps_flash st) as (Gf & _).
  destruct (getData_frame st) as (Gc & Gt & Gu & _).
  cbn [flash set_flash call]. rewrite Gf.
  assert (E : flash (if 63 <? flash st + 1
                     then set_flash 0 (set_flash (flash st + 1)
                            (call (Gui_append (cstr (buf (getData st)))) (getData st)))
                     else set_flash (flash st + 1)
                            (call (Gui_append (cstr (buf (getData st)))) (getData st)))
              = (flash st + 1) mod 64).
  { destruct (63 <? flash st + 1) eqn:E; cbn [flash set_flash].
    - apply Z.ltb_lt in E. replace (flash st + 1) with 64 by lia. reflexivity.
    - apply Z.ltb_ge in E. rewrite Z.mod_small by lia. reflexivity. }
  split; [exact E |].
  rewrite cursor_bit, E.
  destruct (63 <? flash st + 1); cbn [ui tx connected set_flash call];
    rewrite Gu, Gt, Gc, <- app_assoc; repeat split.
Qed.

(** X9.  The timer callback [receive] advances the flash counter by
    one modulo 64, so that after [n] polls it stands at
    [(flash + n) mod 64], and each poll shows what [getData] read and
    then sets the cursor on exactly when the new counter is 4 to 7
    modulo 8; none of this sends anything or needs the link to be
    open. *)
Theorem receive_cycles_the_flash_counter :
  forall (st : State) (n : nat),
    0 <= flash st <= 63 ->
    flash (Nat.iter n receive st) = (flash st + Z.of_nat n) mod 64 /\
    tx (Nat.iter n receive st) = tx st /\
    connected (Nat.iter n receive st) = connected st /\
    ui (receive st) = ui st ++ [Gui_append (cstr (buf (getData st)));
                               Gui_flashCursor (4 <=? flash (receive st) mod 8)].
Proof.
  intros st n Hf. split; [| split; [| split]].
  - induction n as [| n IH].
    + change (Nat.iter 0 receive st) with st.
      rewrite Z.add_0_r, Z.mod_small by lia. reflexivity.
    + change (Nat.iter (S n) receive st) with (receive (Nat.iter n receive st)).
      destruct (receive_step (Nat.iter n receive st)) as (E & _).
      { rewrite IH. pose proof (Z.mod_pos_bound (flash st + Z.of_nat n) 64 ltac:(lia)). lia. }
      rewrite E, IH, Nat2Z.inj_succ.
      rewrite Z.add_mod_idemp_l by lia. f_equal. lia.
  - induction n as [| n IH]; [reflexivity |].
    change (Nat.iter (S n) receive st) with (receive (Nat.iter n receive st)).
    unfold receive at 1. cbv zeta.
    match goal with
    | |- tx (call _ (if ?c then set_flash 0 ?x else ?x)) = _ =>
        destruct c; cbn [tx call set_flash]
    end;
      rewrite (proj1 (proj2 (getData_frame _))); exact IH.
  - induction n as [| n IH]; [reflexivity |].
    change (Nat.iter (S n) receive st) with (receive (Nat.iter n receive st)).
    unfold receive at 1. cbv zeta.
    match goal with
    | |- connected (call _ (if ?c then set_flash 0 ?x else ?x)) = _ =>
        destruct c; cbn [connected call set_flash]
    end;
      rewrite (proj1 (getData_frame _)); exact IH.
  - destruct (receive_step st Hf) as (E & U & _). rewrite U, E. reflexivity.
Qed.

(** ** Opening and closing the link *)

(** X10.  A connect that succeeds raises the flag and resets the flash
    counter; one that fails only shows a dialog and leaves the flag as
    it was, so a failed attempt on a link that is open leaves it open.
    [disconnect] lowers the flag, sends nothing, and is the identity on
    a link that is closed already; after it [sendString] does
    nothing. *)
Theorem connection_flag_transitions :
  forall (st : State) (port : PortAnswer) (hardware_flow : Z) (s : text),
    (connected (connect PortOk hardware_flow st) = true /\
     flash (connect PortOk hardware_flow st) = 0 /\
     tx (connect PortOk hardware_flow st) = tx st) /\
    (port <> PortOk ->
     connected (connect port hardware_flow st) = connected st /\
     exists title body,
       ui (connect port hardware_flow st) = ui st ++ [Dialog_message title body]) /\
    (connected (disconnect st) = false /\ tx (disconnect st) = tx st) /\
    (connected st = false -> disconnect st = st) /\
    disconnect (disconnect st) = disconnect st /\
    sendString s (disconnect st) = disconnect st /\
    connected (disconnect (connect PortOk hardware_flow st)) = false.
Proof.
  intros st port hardware_flow s.
  assert (Hd : connected (disconnect st) = false /\ tx (disconnect st) = tx st).
  { unfold disconnect. destruct (connected st) eqn:E; cbn; auto. }
  assert (Hid : forall x, connected x = false -> disconnect x = x).
  { intros x Hx. unfold disconnect. rewrite Hx. reflexivity. }
  split; [repeat split |].
  split.
  { intros Hp. destruct port; [| | contradiction];
      (split; [reflexivity | eexists; eexists; reflexivity]). }
  split; [exact Hd |].
  split; [apply Hid |].
  split; [apply Hid; apply Hd |].
  split.
  - unfold sendString. rewrite (proj1 Hd). reflexivity.
  - reflexivity.
Qed.

(** X11.  On an open link [getChar] takes one byte from the device and
    returns it as a signed [char], or returns [-1] when nothing is
    there; the byte [0xFF] comes back as [-1] too, so the caller cannot
    tell it from silence.  On a closed link it returns a blank, not
    [-1], and reads nothing. *)
Theorem getChar_results :
  forall (st : State),
    (connected st = false -> getChar st = (32, st)) /\
    (connected st = true ->
     match rx st with
     | [] => getChar st = (-1, st)
     | [] :: later => fst (getChar st) = -1 /\ rx (snd (getChar st)) = later
     | (c :: more) :: later =>
         fst (getChar st) = to_char (char_code c) /\
         rx (snd (getChar st)) = match more with [] => later | _ => more :: later end /\
         (fst (getChar st) = -1 <-> char_code c = 255) /\
         -128 <= fst (getChar st) <= 127
     end).
Proof.
  intros st. split; intros Hc; unfold getChar; rewrite Hc; [reflexivity |].
  unfold read. destruct (rx st) as [| [| c more] later]; cbn [firstn skipn length hd].
  - reflexivity.
  - cbn. split; reflexivity.
  - cbn [Z.of_nat Pos.of_succ_nat Z.leb Z.compare fst snd rx set_rx].
    split; [reflexivity |]. split; [destruct more; reflexivity |].
    assert (Hr : 0 <= char_code c < 256).
    { unfold char_code. destruct c as [[] [] [] [] [] [] [] []]; cbn; lia. }
    unfold to_char. rewrite Z.mod_small by exact Hr.
    destruct (128 <=? char_code c) eqn:E;
      [apply Z.leb_le in E | apply Z.leb_gt in E]; repeat split; lia.
Qed.

(** ** Choosing the upload routine *)

Lemma ext_from_clean e : forall q,
  ~ In "/"%char e -> ~ In "."%char e ->
  fl_filename_ext_from q e = match q with Some x => x | None => [] end.
Proof.
  induction e as [| c e IH]; intros q Hs Hd; [reflexivity |].
  cbn [fl_filename_ext_from].
  destruct (Ascii.eqb c "/") eqn:E1;
    [apply Ascii.eqb_eq in E1; exfalso; apply Hs; left; congruence |].
  destruct (Ascii.eqb c ".") eqn:E2;
    [apply Ascii.eqb_eq in E2; exfalso; apply Hd; left; congruence |].
  apply IH; intro H; [apply Hs | apply Hd]; right; exact H.
Qed.

Lemma ext_from_last_dot base : forall q e,
  ~ In "/"%char e -> ~ In "."%char e ->
  fl_filename_ext_from q (base ++ "."%char :: e) = "."%char :: e.
Proof.
  induction base as [| c base IH]; intros q e Hs Hd.
  - cbn [app fl_filename_ext_from].
    change (Ascii.eqb "." "/") with false. change (Ascii.eqb "." ".") with true.
    cbv beta iota. apply (ext_from_clean e (Some ("."%char :: e)) Hs Hd).
  - cbn [app fl_filename_ext_from].
    destruct (Ascii.eqb c "/"); [apply IH; assumption |].
    destruct (Ascii.eqb c "."); apply IH; assumption.
Qed.

Lemma ext_from_no_dot p : ~ In "."%char p -> fl_filename_ext_from None p = [].
Proof.
  induction p as [| c p IH]; intros Hd; [reflexivity |].
  cbn [fl_filename_ext_from].
  destruct (Ascii.eqb c "/"); [apply IH; intro H; apply Hd; right; exact H |].
  destruct (Ascii.eqb c ".") eqn:E2;
    [apply Ascii.eqb_eq in E2; exfalso; apply Hd; left; congruence |].
  apply IH; intro H; apply Hd; right; exact H.
Qed.

Lemma strcasecmp_dot e (lit : text) :
  map tolower lit = lit ->
  strcasecmp_eq ("."%char :: e) ("."%char :: lit) = true <-> map tolower e = lit.
Proof.
  intros Hl. unfold strcasecmp_eq. cbn [map].
  change (tolower ".") with "."%char. rewrite Hl.
  destruct (list_eq_dec ascii_dec ("."%char :: map tolower e) ("."%char :: lit)) as [E | E].
  - split; [intros _; congruence | reflexivity].
  - split; [discriminate | intros H; exfalso; apply E; congruence].
Qed.

(** X12.  On an open link [upload] picks the routine by the extension
    of the chosen file, read from the last period of the last path
    component and compared without regard to case: [.hex] goes to
    [uploadHex], [.srec] to [uploadSrec]; any other extension, or none,
    is refused with a dialog and nothing is sent; when the chooser
    returned no file nothing happens at all. *)
Theorem upload_picks_the_routine_by_extension :
  forall (base e : text) (fs : text -> option file) (st : State),
    connected st = true ->
    ~ In "/"%char e ->
    ~ In "."%char e ->
    let name := base ++ "."%char :: e in
    (map tolower e = txt "hex" -> upload (Some name) fs st = uploadHex fs name st) /\
    (map tolower e = txt "srec" -> upload (Some name) fs st = uploadSrec fs name st) /\
    (map tolower e <> txt "hex" -> map tolower e <> txt "srec" ->
     upload (Some name) fs st = Done (unsupported st)) /\
    (forall plain, ~ In "."%char plain ->
                   upload (Some plain) fs st = Done (unsupported st)) /\
    upload None fs st = Done st.
Proof.
  intros base e fs st Hc Hs Hd name.
  assert (Hext : fl_filename_ext name = "."%char :: e).
  { apply ext_from_last_dot; assumption. }
  pose proof (strcasecmp_dot e (txt "hex") eq_refl) as Hh.
  pose proof (strcasecmp_dot e (txt "srec") eq_refl) as Hr.
  change ("."%char :: txt "hex") with (txt ".hex") in Hh.
  change ("."%char :: txt "srec") with (txt ".srec") in Hr.
  unfold upload. rewrite Hc. cbn [negb]. cbv zeta. rewrite Hext.
  assert (Hnh : map tolower e <> txt "hex" ->
                strcasecmp_eq ("."%char :: e) (txt ".hex") = false).
  { intros H. apply Bool.not_true_iff_false. intros X. apply Hh in X. contradiction. }
  assert (Hnr : map tolower e <> txt "srec" ->
                strcasecmp_eq ("."%char :: e) (txt ".srec") = false).
  { intros H. apply Bool.not_true_iff_false. intros X. apply Hr in X. contradiction. }
  split; [| split; [| split; [| split]]].
  - intros H. apply Hh in H. rewrite H. reflexivity.
  - intros H. rewrite Hnh by (rewrite H; discriminate).
    apply Hr in H. rewrite H. reflexivity.
  - intros H1 H2. rewrite (Hnh H1), (Hnr H2). reflexivity.
  - intros plain Hp. unfold fl_filename_ext. rewrite (ext_from_no_dot plain Hp).
    reflexivity.
  - reflexivity.
Qed.

(** ** Uploads nobody interrupts *)

Lemma Fl_check_quiet st n :
  no_press (S n) (esc st) = true ->
  connected (Fl_check st) = connected st /\ tx (Fl_check st) = tx st /\
  ui (Fl_check st) = ui st /\ cancelled (Fl_check st) = cancelled st /\
  no_press n (esc (Fl_check st)) = true.
Proof.
  unfold Fl_check, no_press. destruct (esc st) as [| p later] eqn:E.
  - intros _. rewrite E, firstn_nil. repeat split.
  - cbn [firstn forallb]. intros H. apply andb_prop in H. destruct H as [Hp Hl].
    destruct p; [discriminate Hp |].
    cbn [connected tx ui cancelled esc]. rewrite orb_false_r. repeat split. exact Hl.
Qed.

Lemma send_and_show_dialogs s st : dialogs (send_and_show s st) = dialogs st.
Proof.
  unfold dialogs, send_and_show. cbv zeta. cbn [ui call].
  destruct (getData_frame (sendString s st)) as (_ & _ & H & _).
  rewrite H, sendString_ui, filter_app. cbn [filter is_dialog]. apply app_nil_r.
Qed.

Lemma record_quiet_frame s st n :
  connected st = true -> cancelled st = false -> no_press (S n) (esc st) = true ->
  let st1 := Fl_check (send_and_show s st) in
  connected st1 = true /\ tx st1 = tx st ++ [on_wire s] /\
  cancelled st1 = false /\ no_press n (esc st1) = true /\ dialogs st1 = dialogs st.
Proof.
  intros Hc Hx He. cbv zeta.
  destruct (send_and_show_frame s st Hc) as (H1 & H2 & H3 & H4).
  destruct (Fl_check_quiet (send_and_show s st) n) as (G1 & G2 & G3 & G4 & G5);
    [rewrite H4; exact He |].
  unfold dialogs at 1. rewrite G1, G2, G3, G4, H1, H2, H3, Hx.
  repeat split; try assumption. exact (send_and_show_dialogs s st).
Qed.

Lemma first_capture (v : Locals) (a b : Z) :
  0 <= a ->
  (let s := if start_address v =? -1 then a else start_address v in
   if s =? -1 then b else s) =
  (if start_address v =? -1 then a else start_address v).
Proof.
  intros Ha. cbv zeta. destruct (start_address v =? -1) eqn:E.
  - replace (a =? -1) with false by (symmetry; apply Z.eqb_neq; lia). reflexivity.
  - rewrite E. reflexivity.
Qed.

Lemma hexLoop_quiet recs : forall v rest st fuel,
  Forall (wf_record 16) recs ->
  connected st = true -> cancelled st = false ->
  no_press (length recs) (esc st) = true ->
  (length (concat (map hex_line recs) ++ rest) < fuel)%nat ->
  exists v1 st1,
    hexLoop fuel v (concat (map hex_line recs) ++ rest) st =
    hexLoop (S (length rest)) v1 rest st1 /\
    connected st1 = true /\ cancelled st1 = false /\
    tx st1 = tx st ++ map (fun r => on_wire (load_of r)) recs /\
    dialogs st1 = dialogs st /\
    start_address v1 =
    match recs with
    | [] => start_address v
    | r :: _ => if start_address v =? -1 then rec_address r else start_address v
    end.
Proof.
  induction recs as [| r recs IH]; intros v rest st fuel Hwf Hc Hx He Hf.
  - exists v, st. cbn [map concat app] in *.
    split; [apply hexLoop_fuel; lia |].
    rewrite app_nil_r. repeat split; assumption.
  - inversion Hwf as [| r' recs' Hr Hrs]; subst r' recs'.
    cbn [map concat length app] in *.
    rewrite <- app_assoc in *.
    change (hex_line r) with (":"%char :: hex_body r) in *.
    cbn [app length] in Hf |- *.
    destruct fuel as [| fuel]; [lia |].
    cbn [hexLoop fgetc].
    change (char_code ":" =? EOF) with false.
    change (char_code ":" =? char_code ":") with true. cbv beta iota.
    destruct (hexRecord_wf v r (concat (map hex_line recs) ++ rest) st Hr)
      as (v1 & E & Hst).
    rewrite E. cbv zeta.
    destruct (record_quiet_frame (load_of r) st _ Hc Hx He) as (H1 & H2 & H3 & H4 & H5).
    cbv zeta in H1, H2, H3, H4, H5. rewrite H3.
    assert (Hlen : (length (concat (map hex_line recs) ++ rest) < fuel)%nat).
    { rewrite length_app in Hf. lia. }
    destruct (IH v1 rest _ fuel Hrs H1 H3 H4 Hlen)
      as (v2 & st2 & E2 & G1 & G2 & G3 & G4 & G5).
    exists v2, st2. split; [exact E2 |].
    repeat split; try assumption.
    + rewrite G3, H2, <- app_assoc. reflexivity.
    + congruence.
    + destruct recs as [| r2 recs]; [congruence |].
      rewrite G5, Hst. apply first_capture.
      destruct Hr as (_ & Ha & _). lia.
Qed.

Lemma srecLoop_quiet krs : forall v rest st fuel,
  Forall wf_srec krs ->
  connected st = true -> cancelled st = false ->
  no_press (length krs) (esc st) = true ->
  (length (concat (map srec_line krs) ++ rest) < fuel)%nat ->
  exists v1 st1,
    srecLoop fuel v (concat (map srec_line krs) ++ rest) st =
    srecLoop (S (length rest)) v1 rest st1 /\
    connected st1 = true /\ cancelled st1 = false /\
    tx st1 = tx st ++ loads_on_wire krs /\
    dialogs st1 = dialogs st /\
    start_address v1 =
    match krs with
    | [] => start_address v
    | kr :: _ =>
        if start_address v =? -1 then rec_address (snd kr) else start_address v
    end.
Proof.
  induction krs as [| kr krs IH]; intros v rest st fuel Hwf Hc Hx He Hf.
  - exists v, st. cbn [map concat app loads_on_wire] in *.
    split; [apply srecLoop_fuel; lia |].
    rewrite app_nil_r. repeat split; assumption.
  - inversion Hwf as [| kr' krs' Hr Hrs]; subst kr' krs'.
    cbn [map concat length app] in *.
    rewrite <- app_assoc in *.
    destruct fuel as [| fuel]; [lia |].
    cbn [srecLoop].
    destruct (srecRecord_wf v kr (concat (map srec_line krs) ++ rest) st Hr)
      as (v1 & E & Hst).
    rewrite E. cbv zeta.
    destruct (record_quiet_frame (load_of (snd kr)) st _ Hc Hx He)
      as (H1 & H2 & H3 & H4 & H5).
    cbv zeta in H1, H2, H3, H4, H5. rewrite H3.
    assert (Hlen : (length (concat (map srec_line krs) ++ rest) < fuel)%nat).
    { rewrite length_app in Hf.
      assert (0 < length (srec_line kr))%nat.
      { destruct kr as [[|] r]; unfold srec_line, s1_line, s2_line; cbn; lia. }
      lia. }
    destruct (IH v1 rest _ fuel Hrs H1 H3 H4 Hlen)
      as (v2 & st2 & E2 & G1 & G2 & G3 & G4 & G5).
    exists v2, st2. split; [exact E2 |].
    repeat split; try assumption.
    + unfold loads_on_wire in *. cbn [map]. rewrite G3, H2, <- app_assoc. reflexivity.
    + congruence.
    + destruct krs as [| kr2 krs]; [congruence |].
      rewrite G5, Hst. apply first_capture.
      destruct kr as [k r]. unfold wf_srec in Hr. cbn [fst snd] in *.
      destruct Hr as (_ & Ha & _). lia.
Qed.

(** The loop of [uploadHex] at the end of the file or at a line with
    the count [00]: it leaves without a word. *)
Lemma hexLoop_ending ending (v : Locals) st fuel :
  hex_ending ending -> (length ending < fuel)%nat ->
  exists v1, hexLoop fuel v ending st = Done (v1, st) /\
             start_address v1 = start_address v.
Proof.
  intros [-> | [more ->]] Hf; (destruct fuel as [| fuel]; [lia |]).
  - exists v. split; reflexivity.
  - cbn [hexLoop fgetc].
    change (char_code ":" =? EOF) with false.
    change (char_code ":" =? char_code ":") with true. cbv beta iota.
    unfold hexRecord. rewrite fscanfX_hexfield by lia. rewrite scan_failed_1.
    change (0 =? 0) with true. cbv beta iota.
    eexists. split; reflexivity.
Qed.

Lemma type_char_outside c1 :
  c1 <> "0"%char -> c1 <> "1"%char -> c1 <> "2"%char ->
  (to_char (char_code c1) - char_code "0" <? 0)
  || (2 <? to_char (char_code c1) - char_code "0") = true.
Proof.
  intros H0 H1 H2.
  destruct c1 as [[] [] [] [] [] [] [] []]; try reflexivity; exfalso;
    first [apply H0; reflexivity | apply H1; reflexivity | apply H2; reflexivity].
Qed.

(** The loop of [uploadSrec] at the end of the file or at a line of
    another type. *)
Lemma srecLoop_ending ending (v : Locals) st fuel :
  srec_ending ending -> (0 < fuel)%nat ->
  exists v1, srecLoop fuel v ending st = Done (v1, st) /\
             start_address v1 = start_address v.
Proof.
  intros He Hf. destruct fuel as [| fuel]; [lia |].
  cbn [srecLoop]. unfold srecRecord.
  destruct ending as [| c0 [| c1 more]]; cbn [fgetc].
  - rewrite to_char_EOF. exists v. split; reflexivity.
  - destruct (to_char (char_code c0) =? EOF); [exists v; split; reflexivity |].
    rewrite to_char_EOF. exists v. split; reflexivity.
  - destruct (to_char (char_code c0) =? EOF); [exists v; split; reflexivity |].
    destruct (to_char (char_code c1) =? EOF); [exists v; split; reflexivity |].
    destruct He as (H0 & H1 & H2).
    rewrite (type_char_outside c1 H0 H1 H2).
    eexists. split; reflexivity.
Qed.

Lemma upload_finish (v : Locals) st :
  connected st = true ->
  let st1 := call (Gui_setAddress (start_address v)) (sendString terminator st) in
  tx st1 = tx st ++ [on_wire terminator] /\ cancelled st1 = cancelled st /\
  dialogs st1 = dialogs st /\ reports st1 (start_address v).
Proof.
  intros Hc. cbv zeta.
  destruct (sendString_frame terminator st Hc) as (_ & H2 & H3 & _ & _ & _ & H7 & _).
  unfold dialogs, reports. cbn [tx ui cancelled call].
  rewrite H2, H3, H7, filter_app. cbn [filter is_dialog]. rewrite app_nil_r.
  repeat split. exists (ui st). reflexivity.
Qed.

Lemma banner_dialogs st :
  dialogs (call (Gui_append uploading_banner) st) = dialogs st.
Proof.
  unfold dialogs. cbn [ui call]. rewrite filter_app. cbn [filter is_dialog].
  apply app_nil_r.
Qed.

(** An upload of well-formed records that nobody interrupts, in either
    format. *)
Lemma quiet_upload fmt fs filename krs ending st :
  Forall (wf_source fmt) krs ->
  ending_ok fmt ending ->
  fs filename = Some (source_text fmt krs ++ ending) ->
  connected st = true ->
  cancelled st = false ->
  no_press (length krs) (esc st) = true ->
  exists st1,
    upload_as fmt fs filename st = Done st1 /\
    tx st1 = tx st ++ loads_on_wire krs ++ [on_wire terminator] /\
    reports st1 (first_address krs) /\
    cancelled st1 = false /\
    dialogs st1 = dialogs st.
Proof.
  intros Hwf Hend Hfs Hc Hx He.
  set (st' := call (Gui_append uploading_banner) st).
  assert (Hc' : connected st' = true) by exact Hc.
  assert (Hx' : cancelled st' = false) by exact Hx.
  assert (He' : no_press (length krs) (esc st') = true) by exact He.
  assert (Ht' : tx st' = tx st) by reflexivity.
  pose proof (banner_dialogs st) as Hd'. fold st' in Hd'.
  destruct fmt.
  - cbn [upload_as]. unfold uploadHex. rewrite Hfs. fold st'.
    rewrite source_text_hex.
    assert (Hd : Forall (wf_record 16) (map snd krs)).
    { rewrite Forall_map. exact Hwf. }
    destruct (hexLoop_quiet (map snd krs) locals0 ending st' _ Hd Hc' Hx'
                ltac:(rewrite length_map; exact He') (Nat.lt_succ_diag_r _))
      as (v1 & st1 & E & G1 & G2 & G3 & G4 & G5).
    rewrite E.
    destruct (hexLoop_ending ending v1 st1 _ Hend (Nat.lt_succ_diag_r _))
      as (v2 & E2 & Hs2).
    rewrite E2.
    destruct (upload_finish v2 st1 G1) as (F1 & F2 & F3 & F4).
    cbv zeta in F1, F2, F3, F4.
    eexists. split; [reflexivity |].
    rewrite F1, F2, F3, G3, G4, Ht', Hd', <- loads_on_wire_hex, <- app_assoc.
    repeat split; try assumption.
    replace (first_address krs) with (start_address v2); [exact F4 |].
    rewrite Hs2, G5. destruct krs; reflexivity.
  - cbn [upload_as]. unfold uploadSrec. rewrite Hfs. fold st'.
    rewrite source_text_srec.
    destruct (srecLoop_quiet krs locals0 ending st' _ Hwf Hc' Hx' He'
                (Nat.lt_succ_diag_r _))
      as (v1 & st1 & E & G1 & G2 & G3 & G4 & G5).
    rewrite E.
    destruct (srecLoop_ending ending v1 st1 (S (length ending)) Hend (Nat.lt_0_succ _))
      as (v2 & E2 & Hs2).
    rewrite E2.
    destruct (upload_finish v2 st1 G1) as (F1 & F2 & F3 & F4).
    cbv zeta in F1, F2, F3, F4.
    eexists. split; [reflexivity |].
    rewrite F1, F2, F3, G3, G4, Ht', Hd', <- app_assoc.
    repeat split; try assumption.
    replace (first_address krs) with (start_address v2); [exact F4 |].
    rewrite Hs2, G5. destruct krs; reflexivity.
Qed.

Lemma upload_dispatch fmt (base e : text) fs st :
  connected st = true ->
  ~ In "/"%char e -> ~ In "."%char e ->
  map tolower e = extension fmt ->
  upload (Some (base ++ "."%char :: e)) fs st =
  upload_as fmt fs (base ++ "."%char :: e) st.
Proof.
  intros Hc Hs Hd He.
  unfold upload. rewrite Hc. cbn [negb]. cbv zeta.
  unfold fl_filename_ext. rewrite ext_from_last_dot by assumption.
  pose proof (strcasecmp_dot e (txt "hex") eq_refl) as Hh.
  pose proof (strcasecmp_dot e (txt "srec") eq_refl) as Hr.
  change ("."%char :: txt "hex") with (txt ".hex") in Hh.
  change ("."%char :: txt "srec") with (txt ".srec") in Hr.
  destruct fmt; cbn [extension upload_as] in *.
  - rewrite (proj2 Hh He). reflexivity.
  - replace (strcasecmp_eq ("."%char :: e) (txt ".hex")) with false.
    + rewrite (proj2 Hr He). reflexivity.
    + symmetry. apply Bool.not_true_iff_false. intros X. apply Hh in X.
      rewrite X in He. discriminate He.
Qed.

(** X13.  From the menu entry to the last byte: on an open link, with
    the cancel flag down and nobody pressing escape while the records
    go out, [upload] of a file whose name ends in [.hex] or [.srec] (in
    any case) and which holds well-formed data records followed by the
    end of the file, by an Intel-HEX line of count [00], or by an
    S-record line of a type other than 0, 1, 2, sends the load record of
    every source record in order and then the terminator, reports the
    address of the first record as start address ([-1] for a file
    without records), leaves the cancel flag down and shows no dialog. *)
Theorem upload_of_a_well_formed_file :
  forall (fmt : Format) (base e : text) (fs : text -> option file)
         (krs : list (SKind * DataRecord)) (ending : text) (st : State),
    ~ In "/"%char e ->
    ~ In "."%char e ->
    map tolower e = extension fmt ->
    Forall (wf_source fmt) krs ->
    ending_ok fmt ending ->
    fs (base ++ "."%char :: e) = Some (source_text fmt krs ++ ending) ->
    connected st = true ->
    cancelled st = false ->
    no_press (length krs) (esc st) = true ->
    exists st1,
      upload (Some (base ++ "."%char :: e)) fs st = Done st1 /\
      tx st1 = tx st ++ loads_on_wire krs ++ [on_wire terminator] /\
      reports st1 (first_address krs) /\
      cancelled st1 = false /\
      dialogs st1 = dialogs st.
Proof.
  intros fmt base e fs krs ending st Hs Hd He Hwf Hend Hfs Hc Hx Hq.
  rewrite (upload_dispatch fmt base e fs st Hc Hs Hd He).
  apply (quiet_upload fmt fs _ krs ending st); assumption.
Qed.

(** ** What was sent can be uploaded again *)

Lemma hexfield6_bytes a :
  hexfield 6 a =
  hexfield 2 (Z.land (Z.shiftr a 16) 255)
  ++ hexfield 2 (Z.land (Z.shiftr a 8) 255)
  ++ hexfield 2 (Z.land a 255).
Proof.
  rewrite !land255, !Z.shiftr_div_pow2 by lia.
  cbn [hexfield app].
  change (16 ^ Z.of_nat 5) with 1048576. change (16 ^ Z.of_nat 4) with 65536.
  change (16 ^ Z.of_nat 3) with 4096. change (16 ^ Z.of_nat 2) with 256.
  change (16 ^ Z.of_nat 1) with 16. change (16 ^ Z.of_nat 0) with 1.
  change (2 ^ 16) with 65536. change (2 ^ 8) with 256.
  repeat (f_equal; [f_equal; Z.to_euclidean_division_equations; lia |]).
  do 2 f_equal. Z.to_euclidean_division_equations. lia.
Qed.

Lemma hexfield_no_NL w : forall v, ~ In NL (hexfield w v).
Proof.
  induction w as [| w IH]; intros v; cbn [hexfield In]; [tauto |].
  intros [H | H]; [| exact (IH v H)].
  pose proof (hexdigit_not_NL _ (digit_range v w)) as E.
  rewrite H in E. discriminate E.
Qed.

Lemma load_as_s2 kr : load_of (snd kr) = srec_line (as_source kr).
Proof.
  unfold load_of, load_record, srec_line, as_source, s2_line, rec_len.
  cbn [fst snd rec_address rec_data rec_tail].
  rewrite hexfield6_bytes, <- !app_assoc. reflexivity.
Qed.

Lemma wf_as_source kr : wf_record 24 (snd kr) -> wf_srec (as_source kr).
Proof.
  intros (Hl & Ha & Hb & _). unfold wf_srec, as_source, wf_record, rec_len.
  cbn [fst snd rec_address rec_data rec_tail].
  repeat split; try assumption; try apply Hl; try apply Ha.
  - apply hexfield_no_NL.
  - rewrite hexfield_length. lia.
Qed.

Lemma transcript_as_source krs :
  transcript krs = source_text SREC (map as_source krs) ++ terminator.
Proof.
  unfold transcript, source_text. rewrite map_map. f_equal. f_equal.
  apply map_ext. intros kr. apply load_as_s2.
Qed.

Lemma loads_as_source krs : loads_on_wire (map as_source krs) = loads_on_wire krs.
Proof. unfold loads_on_wire. rewrite map_map. reflexivity. Qed.

Lemma on_wire_concat l : on_wire (concat l) = concat (map on_wire l).
Proof. unfold on_wire. apply concat_map. Qed.

Lemma terminator_ends : srec_ending terminator.
Proof. cbn. repeat split; discriminate. Qed.

(** X14.  The text an upload puts on the line (load records and
    terminator, with line feeds for the carriage returns) is itself an
    S-record file that [uploadSrec] accepts: uploaded in turn, with
    nobody pressing escape, it puts exactly its own bytes on the line,
    line feeds turned into carriage returns, and the start address
    reported is again the address of the first record. *)
Theorem what_was_sent_uploads_to_itself :
  forall (fs : text -> option file) (filename : text)
         (krs : list (SKind * DataRecord)) (st : State),
    Forall (fun kr => wf_record 24 (snd kr)) krs ->
    fs filename = Some (transcript krs) ->
    connected st = true ->
    cancelled st = false ->
    no_press (length krs) (esc st) = true ->
    exists st1 sent,
      uploadSrec fs filename st = Done st1 /\
      tx st1 = tx st ++ sent /\
      concat sent = on_wire (transcript krs) /\
      sent = loads_on_wire krs ++ [on_wire terminator] /\
      reports st1 (first_address krs).
Proof.
  intros fs filename krs st Hwf Hfs Hc Hx Hq.
  rewrite transcript_as_source in Hfs.
  assert (Hwf' : Forall (wf_source SREC) (map as_source krs)).
  { rewrite Forall_map. eapply Forall_impl; [| exact Hwf].
    intros kr H. apply wf_as_source. exact H. }
  destruct (quiet_upload SREC fs filename (map as_source krs) terminator st Hwf'
              terminator_ends Hfs Hc Hx ltac:(rewrite length_map; exact Hq))
    as (st1 & E & Ht & Hr & _).
  exists st1, (loads_on_wire krs ++ [on_wire terminator]).
  rewrite loads_as_source in Ht.
  split; [exact E |]. split; [exact Ht |].
  split; [| split; [reflexivity |]].
  - unfold transcript, loads_on_wire.
    rewrite concat_app, on_wire_app, on_wire_concat, map_map.
    cbn [concat]. rewrite app_nil_r. reflexivity.
  - destruct krs; exact Hr.
Qed.

(** ** What the bytes sent depend on *)

Lemma same_loads krs : forall krs',
  Forall2 same_load krs krs' -> loads_on_wire krs = loads_on_wire krs'.
Proof.
  induction krs as [| kr krs IH]; intros krs' H; inversion H as [| ? kr' ? krs2 Hs Hr]; subst.
  - reflexivity.
  - unfold loads_on_wire in *. cbn [map]. rewrite (IH krs2 Hr).
    destruct Hs as [Ha Hd]. unfold load_of. rewrite Ha, Hd. reflexivity.
Qed.

(** X15.  What goes on the line depends on the addresses and the data
    bytes of the source records only: not on the format of the file, not
    on the kind of an S-record (16-bit or 24-bit address), and not on the
    characters that follow the data on a line, where the source formats
    keep their checksum.  Two files that agree on addresses and data send
    the same bytes, and neither raises a dialog: a damaged checksum in
    the source goes unnoticed. *)
Theorem sent_bytes_depend_on_address_and_data_only :
  forall (fmt fmt' : Format) (fs fs' : text -> option file)
         (filename filename' : text)
         (krs krs' : list (SKind * DataRecord)) (ending ending' : text)
         (st : State),
    Forall (wf_source fmt) krs ->
    Forall (wf_source fmt') krs' ->
    Forall2 same_load krs krs' ->
    ending_ok fmt ending ->
    ending_ok fmt' ending' ->
    fs filename = Some (source_text fmt krs ++ ending) ->
    fs' filename' = Some (source_text fmt' krs' ++ ending') ->
    connected st = true ->
    cancelled st = false ->
    no_press (length krs) (esc st) = true ->
    exists st1 st2,
      upload_as fmt fs filename st = Done st1 /\
      upload_as fmt' fs' filename' st = Done st2 /\
      tx st2 = tx st1 /\
      dialogs st1 = dialogs st /\
      dialogs st2 = dialogs st.
Proof.
  intros fmt fmt' fs fs' filename filename' krs krs' ending ending' st
         Hwf Hwf' Hsame Hend Hend' Hfs Hfs' Hc Hx Hq.
  assert (Hlen : length krs' = length krs).
  { symmetry. eapply Forall2_length. exact Hsame. }
  destruct (quiet_upload fmt fs filename krs ending st Hwf Hend Hfs Hc Hx Hq)
    as (st1 & E1 & T1 & _ & _ & D1).
  destruct (quiet_upload fmt' fs' filename' krs' ending' st Hwf' Hend' Hfs' Hc Hx
              ltac:(rewrite Hlen; exact Hq))
    as (st2 & E2 & T2 & _ & _ & D2).
  exists st1, st2. repeat split; try assumption.
  rewrite T1, T2, (same_loads krs krs' Hsame). reflexivity.
Qed.

(** ** Intel-HEX lines that carry no data *)

Lemma char_code_inj a b : char_code a = char_code b -> a = b.
Proof.
  unfold char_code. intros H. apply N2Z.inj in H.
  rewrite <- (ascii_N_embedding a), <- (ascii_N_embedding b), H. reflexivity.
Qed.

Lemma char_code_not_EOF c : (char_code c =? EOF) = false.
Proof. apply Z.eqb_neq. unfold char_code, EOF. lia. Qed.

(** X16.  An Intel-HEX line of a type other than [00] (end-of-file
    lines with a count, extended-address lines and so on) puts nothing on
    the line and shows nothing; its address field is nevertheless taken
    as the start address when none was captured yet, because the capture
    comes before the type is read; and [segment] holds the address field
    after a line of type [04] and zero after any other.  A file that
    begins with such a line therefore reports the address field of that
    line as start address, whatever follows, as long as no later record
    makes the routine write past its array [s]. *)
Theorem hex_lines_of_other_types :
  forall (len a t : Z) (tail rest : text) (v : Locals) (st : State)
         (fs : text -> option file) (filename : text),
    0 < len < 256 ->
    0 <= a < 65536 ->
    0 < t < 256 ->
    ~ In NL tail ->
    (length tail < 256)%nat ->
    (exists v1,
        hexRecord v (hex_typed_body len a t tail ++ rest) st =
        (if cancelled (Fl_check st)
         then (Break, v1, rest, setCancelled false (Fl_check st))
         else (Next, v1, rest, Fl_check st)) /\
        tx (Fl_check st) = tx st /\
        ui (Fl_check st) = ui st /\
        start_address v1 =
        (if start_address v =? -1 then a else start_address v) /\
        segment v1 = (if t =? 4 then a else 0)) /\
    (fs filename = Some (":"%char :: hex_typed_body len a t tail ++ rest) ->
     uploadHex fs filename st <> Overrun ->
     exists st1, uploadHex fs filename st = Done st1 /\ reports st1 a).
Proof.
  intros len a t tail rest v st fs filename Hlen Ha Ht Hn Hl.
  assert (Pass : forall (v : Locals) (st : State),
             exists v1,
               hexRecord v (hex_typed_body len a t tail ++ rest) st =
               (if cancelled (Fl_check st)
                then (Break, v1, rest, setCancelled false (Fl_check st))
                else (Next, v1, rest, Fl_check st)) /\
               tx (Fl_check st) = tx st /\
               ui (Fl_check st) = ui st /\
               start_address v1 =
               (if start_address v =? -1 then a else start_address v) /\
               segment v1 = (if t =? 4 then a else 0)).
  { clear v st. intros v st.
    destruct (Fl_check_tx st) as (_ & F2 & F3).
    unfold hexRecord, hex_typed_body. rewrite <- !app_assoc.
    rewrite fscanfX_hexfield by lia.
    rewrite scan_failed_1.
    replace (len =? 0) with false by (symmetry; apply Z.eqb_neq; lia).
    cbn [count address start_address code value segment].
    rewrite fscanfX_hexfield by lia.
    rewrite scan_failed_1.
    rewrite fscanfX_hexfield by lia.
    rewrite scan_failed_1.
    destruct (t =? 4) eqn:E4; cbv beta iota.
    - rewrite pass_end_tail by assumption.
      eexists. split; [reflexivity |]. repeat split; assumption.
    - replace (t =? 0) with false by (symmetry; apply Z.eqb_neq; lia).
      rewrite pass_end_tail by assumption.
      eexists. split; [reflexivity |]. repeat split; assumption. }
  split; [apply Pass |].
  intros Hfs. unfold uploadHex. rewrite Hfs.
  set (st' := call (Gui_append uploading_banner) st).
  cbn [hexLoop fgetc].
  change (char_code ":" =? EOF) with false.
  change (char_code ":" =? char_code ":") with true. cbv beta iota.
  destruct (Pass locals0 st') as (v1 & E & _ & _ & Hs & _).
  rewrite E. change (start_address locals0 =? -1) with true in Hs. cbv iota in Hs.
  destruct (cancelled (Fl_check st')).
  - intros _. eexists. split; [reflexivity |].
    unfold reports. cbn [ui call]. rewrite Hs. eexists. reflexivity.
  - destruct (hexLoop_total (length (":"%char :: hex_typed_body len a t tail ++ rest))
                v1 rest (Fl_check st'))
      as [E2 | (v2 & st2 & E2 & _ & Hk)].
    { cbn [length]. rewrite length_app. lia. }
    { rewrite E2. intros Hrun. contradiction Hrun. reflexivity. }
    rewrite E2. intros _. eexists. split; [reflexivity |].
    unfold reports. cbn [ui call]. rewrite (Hk ltac:(lia)), Hs.
    eexists. reflexivity.
Qed.

Lemma hexLoop_no_colon fuel : forall (v : Locals) (fp : file) (st : State),
  ~ In ":"%char fp -> (length fp < fuel)%nat ->
  hexLoop fuel v fp st = Done (v, st).
Proof.
  induction fuel as [| fuel IH]; intros v fp st Hn Hf; [lia |].
  cbn [hexLoop]. destruct fp as [| c fp]; cbn [fgetc]; [reflexivity |].
  rewrite char_code_not_EOF.
  replace (char_code c =? char_code ":") with false.
  - apply IH; [intro H; apply Hn; right; exact H | cbn [length] in Hf; lia].
  - symmetry. apply Z.eqb_neq. intros H. apply char_code_inj in H.
    apply Hn. left. exact H.
Qed.

(** X17.  [uploadHex] takes any file it can open: when the file holds
    no colon at all (an S-record file under the wrong name, an empty
    file) nothing of it is sent and no error is shown; the terminator
    goes out all the same and the start address reported is [-1]. *)
Theorem hex_upload_of_a_file_without_records :
  forall (fs : text -> option file) (filename : text) (fp : file) (st : State),
    fs filename = Some fp ->
    ~ In ":"%char fp ->
    connected st = true ->
    exists st1,
      uploadHex fs filename st = Done st1 /\
      tx st1 = tx st ++ [on_wire terminator] /\
      reports st1 (-1) /\
      dialogs st1 = dialogs st /\
      cancelled st1 = cancelled st /\
      esc st1 = esc st.
Proof.
  intros fs filename fp st Hfs Hn Hc.
  unfold uploadHex. rewrite Hfs.
  rewrite (hexLoop_no_colon _ locals0 fp _ Hn (Nat.lt_succ_diag_r _)).
  set (st' := call (Gui_append uploading_banner) st).
  assert (Hc' : connected st' = true) by exact Hc.
  destruct (upload_finish locals0 st' Hc') as (F1 & F2 & F3 & F4).
  destruct (sendString_frame terminator st' Hc') as (_ & _ & _ & _ & _ & _ & _ & F5).
  cbv zeta in F1, F2, F3, F4.
  eexists. split; [reflexivity |].
  rewrite F1, F2, F3. subst st'. rewrite banner_dialogs.
  repeat split; assumption.
Qed.

(** ** The cancel flag across an upload *)

Lemma sendString_shape s st :
  cancelled (sendString s st) = cancelled st /\
  (length (tx (sendString s st)) <= S (length (tx st)))%nat.
Proof.
  unfold sendString. destruct (connected st).
  - cbn [cancelled tx write set_buf]. rewrite length_app. cbn [length]. split; [reflexivity | lia].
  - split; [reflexivity | lia].
Qed.

Lemma sent_shape s st :
  let st2 := getData (sendString s st) in
  let st3 := call (Gui_append (cstr (buf st2))) st2 in
  cancelled st3 = cancelled st /\
  (length (tx st3) <= S (length (tx st)))%nat.
Proof.
  cbv zeta. cbn [cancelled tx call].
  destruct (getData_frame (sendString s st)) as (_ & H2 & _ & H4 & _).
  destruct (sendString_shape s st) as (S1 & S2).
  rewrite H2, H4, S1. split; [reflexivity | exact S2].
Qed.

Lemma hexSend_shape v fp st flow v1 fp1 st1 :
  hexSend v fp st = (flow, v1, fp1, st1) ->
  cancelled st1 = cancelled st /\
  (length (tx st1) <= S (length (tx st)))%nat.
Proof.
  unfold hexSend. cbv zeta.
  match goal with
  | |- context [hexData ?n ?f ?x ?c ?s ?i] =>
      destruct (hexData n f x c s i)
        as [[[[[[cancel fp2] value2] checksum2] s2] index2] |]
  end; [| intros E; tuple4_inv E; split; [reflexivity | lia]].
  destruct cancel; [| destruct (fits _ _)]; intros E; tuple4_inv E.
  - split; [reflexivity | cbn [tx fileError call]; lia].
  - apply sent_shape.
  - split; [reflexivity | lia].
Qed.

Lemma srecSend_shape v fp st flow v1 fp1 st1 :
  srecSend v fp st = (flow, v1, fp1, st1) ->
  cancelled st1 = cancelled st /\
  (length (tx st1) <= S (length (tx st)))%nat.
Proof.
  unfold srecSend. cbv zeta. rewrite srecData_hexData.
  match goal with
  | |- context [hexData ?n ?f ?x ?c ?s ?i] =>
      destruct (hexData n f x c s i)
        as [[[[[[cancel fp2] value2] checksum2] s2] index2] |]
  end; [| intros E; tuple4_inv E; split; [reflexivity | lia]].
  destruct (fits _ _); intros E; tuple4_inv E.
  - match goal with
    | |- context [sendString ?s ?x] => destruct (sent_shape s x) as (H1 & H2)
    end.
    cbv zeta in H1, H2.
    destruct cancel; split; first [exact H1 | exact H2].
  - destruct cancel; split; first [reflexivity | cbn [tx fileError call]; lia].
Qed.

Lemma srecAddress_shape v fp st flow v1 fp1 st1 :
  srecAddress v fp st = (flow, v1, fp1, st1) ->
  cancelled st1 = cancelled st /\ tx st1 = tx st.
Proof.
  unfold srecAddress.
  destruct (code v =? 1).
  - scan_step. destruct (scan_failed _); intros E; tuple4_inv E; split; reflexivity.
  - destruct (code v =? 2); [| intros E; tuple4_inv E; split; reflexivity].
    scan_step. destruct (scan_failed _); intros E; tuple4_inv E; split; reflexivity.
Qed.

Lemma Fl_check_keeps_raised st :
  cancelled st = true -> cancelled (Fl_check st) = true.
Proof.
  intros H. unfold Fl_check. destruct (esc st); [exact H |].
  cbn [cancelled]. rewrite H. reflexivity.
Qed.

(** What a pass leaves, whatever the file holds: at most one more
    record on the line, the flag down if it was down, and the loop left
    if the flag was up. *)
Lemma pass_end_shape (v : Locals) fp st0 st flow v1 fp1 st1 :
  (length (tx st) <= S (length (tx st0)))%nat ->
  cancelled st = cancelled st0 ->
  pass_end v fp st = (flow, v1, fp1, st1) ->
  (length (tx st1) <= S (length (tx st0)))%nat /\
  (cancelled st0 = false -> cancelled st1 = false) /\
  (cancelled st0 = true -> flow <> Next).
Proof.
  intros Hl Hx. unfold pass_end. cbv zeta.
  destruct (Fl_check_tx st) as (_ & F2 & _).
  destruct (cancelled (Fl_check st)) eqn:E; intros X; tuple4_inv X.
  - cbn [tx cancelled setCancelled]. rewrite F2.
    split; [exact Hl |]. split; [reflexivity | discriminate].
  - rewrite F2. split; [exact Hl |]. split; [intros _; exact E |].
    intros H. rewrite <- Hx in H. apply Fl_check_keeps_raised in H. congruence.
Qed.

Lemma break_shape (f : Flow) (a : Locals) (b : file) st0 c flow v1 fp1 st1 :
  f <> Next ->
  (length (tx c) <= S (length (tx st0)))%nat ->
  cancelled c = cancelled st0 ->
  (f, a, b, c) = (flow, v1, fp1, st1) ->
  (length (tx st1) <= S (length (tx st0)))%nat /\
  (cancelled st0 = false -> cancelled st1 = false) /\
  (cancelled st0 = true -> flow <> Next).
Proof.
  intros Hf Hl Hx E. tuple4_inv E.
  split; [exact Hl |]. split; [congruence | intros _; exact Hf].
Qed.

Ltac stay :=
  first [discriminate | reflexivity | cbn [tx cancelled fileError call]; lia].

Lemma hexRecord_shape v fp st flow v1 fp1 st1 :
  hexRecord v fp st = (flow, v1, fp1, st1) ->
  (length (tx st1) <= S (length (tx st)))%nat /\
  (cancelled st = false -> cancelled st1 = false) /\
  (cancelled st = true -> flow <> Next).
Proof.
  unfold hexRecord.
  scan_step. destruct (scan_failed _); [apply break_shape; stay |].
  destruct (_ =? 0); [apply break_shape; stay |].
  scan_step. destruct (scan_failed _); [apply break_shape; stay |].
  scan_step. destruct (scan_failed _); [apply break_shape; stay |].
  cbn [count address start_address code value segment].
  destruct (_ =? 4).
  - apply pass_end_shape; stay.
  - destruct (_ =? 0).
    + match goal with
      | |- context [hexSend ?a ?b ?c] =>
          destruct (hexSend a b c) as [[[fl2 v2] fp2] st2] eqn:Es
      end.
      apply hexSend_shape in Es. destruct Es as (Hx & Hl).
      destruct fl2; [apply pass_end_shape | apply break_shape | apply break_shape];
        try discriminate; assumption.
    + apply pass_end_shape; stay.
Qed.

Lemma srecRecord_shape v fp st flow v1 fp1 st1 :
  srecRecord v fp st = (flow, v1, fp1, st1) ->
  (length (tx st1) <= S (length (tx st)))%nat /\
  (cancelled st = false -> cancelled st1 = false) /\
  (cancelled st = true -> flow <> Next).
Proof.
  unfold srecRecord.
  destruct fp as [| c0 [| c1 fp]]; cbn [fgetc].
  - rewrite to_char_EOF. apply break_shape; stay.
  - destruct (to_char (char_code c0) =? EOF); [apply break_shape; stay |].
    rewrite to_char_EOF. apply break_shape; stay.
  - destruct (to_char (char_code c0) =? EOF); [apply break_shape; stay |].
    destruct (to_char (char_code c1) =? EOF); [apply break_shape; stay |].
    cbn [count address start_address code value segment].
    destruct (_ || _); [apply break_shape; stay |].
    scan_step. destruct (scan_failed _); [apply break_shape; stay |].
    destruct (_ =? 0); [apply break_shape; stay |].
    destruct (0 <? _); [| apply pass_end_shape; stay].
    match goal with
    | |- context [srecAddress ?a ?b ?c] =>
        destruct (srecAddress a b c) as [[[fl2 v2] fp2] st2] eqn:Ea
    end.
    apply srecAddress_shape in Ea. destruct Ea as (Hx2 & Ht2).
    destruct fl2;
      [| apply break_shape; [discriminate | rewrite Ht2; lia | exact Hx2]
       | apply break_shape; [discriminate | rewrite Ht2; lia | exact Hx2]].
    match goal with
    | |- context [srecSend ?a ?b ?c] =>
        destruct (srecSend a b c) as [[[fl3 v3] fp3] st3] eqn:Es
    end.
    apply srecSend_shape in Es. destruct Es as (Hx3 & Hl3).
    rewrite Ht2 in Hl3. rewrite Hx2 in Hx3.
    destruct fl3; [apply pass_end_shape | apply break_shape | apply break_shape];
      try discriminate; assumption.
Qed.

Lemma hexLoop_shape fuel : forall v fp st v1 st1,
  hexLoop fuel v fp st = Done (v1, st1) ->
  (cancelled st = false -> cancelled st1 = false) /\
  (cancelled st = true -> (length (tx st1) <= S (length (tx st)))%nat).
Proof.
  induction fuel as [| fuel IH]; intros v fp st v1 st1 E; [discriminate E |].
  cbn [hexLoop] in E. destruct fp as [| c fp]; cbn [fgetc] in E.
  - change (EOF =? EOF) with true in E. cbv iota in E.
    injection E as <- <-. split; [auto | intros _; lia].
  - rewrite char_code_not_EOF in E.
    destruct (char_code c =? char_code ":"); [| exact (IH _ _ _ _ _ E)].
    destruct (hexRecord v fp st) as [[[flow v2] fp2] st2] eqn:Er.
    apply hexRecord_shape in Er. destruct Er as (Hl & Hdown & Hup).
    destruct flow; [| | discriminate E].
    + apply IH in E. destruct E as (E1 & _).
      split; [intros H; apply E1, Hdown, H
             | intros H; exfalso; apply (Hup H); reflexivity].
    + injection E as <- <-. split; [exact Hdown | intros _; exact Hl].
Qed.

Lemma srecLoop_shape fuel : forall v fp st v1 st1,
  srecLoop fuel v fp st = Done (v1, st1) ->
  (cancelled st = false -> cancelled st1 = false) /\
  (cancelled st = true -> (length (tx st1) <= S (length (tx st)))%nat).
Proof.
  induction fuel as [| fuel IH]; intros v fp st v1 st1 E; [discriminate E |].
  cbn [srecLoop] in E.
  destruct (srecRecord v fp st) as [[[flow v2] fp2] st2] eqn:Er.
  apply srecRecord_shape in Er. destruct Er as (Hl & Hdown & Hup).
  destruct flow; [| | discriminate E].
  - apply IH in E. destruct E as (E1 & _).
    split; [intros H; apply E1, Hdown, H
           | intros H; exfalso; apply (Hup H); reflexivity].
  - injection E as <- <-. split; [exact Hdown | intros _; exact Hl].
Qed.

(** X18.  An upload that starts with the cancel flag down and keeps
    within its array [s] ends, and ends with the flag down: whatever the
    file holds otherwise, whenever escape is pressed, whatever the
    device answers, with the link open or closed, and also when the file
    cannot be opened.  A key press seen by a pass is used up by that
    pass. *)
Theorem upload_leaves_the_cancel_flag_down :
  forall (fmt : Format) (fs : text -> option file) (filename : text) (st : State),
    cancelled st = false ->
    upload_as fmt fs filename st <> Overrun ->
    exists st1,
      upload_as fmt fs filename st = Done st1 /\ cancelled st1 = false.
Proof.
  intros fmt fs filename st Hx.
  destruct fmt; cbn [upload_as].
  - unfold uploadHex. destruct (fs filename) as [fp |];
      [| intros _; eexists; split; [reflexivity | exact Hx]].
    destruct (hexLoop_total (S (length fp)) locals0 fp
                (call (Gui_append uploading_banner) st) ltac:(lia))
      as [E | (v1 & st1 & E & _ & _)];
      rewrite E; intros Hrun; [contradiction Hrun; reflexivity |].
    apply hexLoop_shape in E. destruct E as (E1 & _).
    eexists. split; [reflexivity |].
    cbn [cancelled call]. rewrite (proj1 (sendString_shape terminator st1)).
    apply E1. exact Hx.
  - unfold uploadSrec. destruct (fs filename) as [fp |];
      [| intros _; eexists; split; [reflexivity | exact Hx]].
    destruct (srecLoop_total (S (length fp)) locals0 fp
                (call (Gui_append uploading_banner) st) ltac:(lia))
      as [E | (v1 & st1 & E & _ & _)];
      rewrite E; intros Hrun; [contradiction Hrun; reflexivity |].
    apply srecLoop_shape in E. destruct E as (E1 & _).
    eexists. split; [reflexivity |].
    cbn [cancelled call]. rewrite (proj1 (sendString_shape terminator st1)).
    apply E1. exact Hx.
Qed.

Lemma stale_finish (v1 : Locals) st st1 :
  connected st = true ->
  extends (call (Gui_append uploading_banner) st) st1 ->
  (length (tx st1) <= S (length (tx st)))%nat ->
  exists st2 recs,
    Done (call (Gui_setAddress (start_address v1)) (sendString terminator st1))
    = Done st2 /\
    tx st2 = tx st ++ recs ++ [on_wire terminator] /\
    (length recs <= 1)%nat.
Proof.
  intros Hc [Hc1 (recs & Ht & _)] Hl.
  cbn [connected tx call] in Hc1, Ht.
  destruct (sendString_frame terminator st1 ltac:(congruence)) as (_ & H2 & _).
  eexists. exists recs. split; [reflexivity |].
  cbn [tx call]. rewrite H2, Ht, <- app_assoc. split; [reflexivity |].
  rewrite Ht, length_app in Hl. lia.
Qed.

(** X19.  Neither upload routine clears the cancel flag before its
    loop: when the flag is already up on entry, the first pass that
    reaches its test leaves the loop.  Whatever the file holds, as long
    as the routine keeps within its array [s], at most one data load
    record goes out before the terminator. *)
Theorem stale_cancel_flag_stops_the_upload :
  forall (fmt : Format) (fs : text -> option file) (filename : text)
         (fp : file) (st : State),
    fs filename = Some fp ->
    connected st = true ->
    cancelled st = true ->
    upload_as fmt fs filename st <> Overrun ->
    exists st1 recs,
      upload_as fmt fs filename st = Done st1 /\
      tx st1 = tx st ++ recs ++ [on_wire terminator] /\
      (length recs <= 1)%nat.
Proof.
  intros fmt fs filename fp st Hfs Hc Hx.
  destruct fmt; cbn [upload_as].
  - unfold uploadHex. rewrite Hfs.
    destruct (hexLoop_total (S (length fp)) locals0 fp
                (call (Gui_append uploading_banner) st) ltac:(lia))
      as [E | (v1 & st1 & E & He & _)];
      rewrite E; intros Hrun; [contradiction Hrun; reflexivity |].
    apply hexLoop_shape in E. destruct E as (_ & E2).
    apply stale_finish; [exact Hc | exact He | exact (E2 Hx)].
  - unfold uploadSrec. rewrite Hfs.
    destruct (srecLoop_total (S (length fp)) locals0 fp
                (call (Gui_append uploading_banner) st) ltac:(lia))
      as [E | (v1 & st1 & E & He & _)];
      rewrite E; intros Hrun; [contradiction Hrun; reflexivity |].
    apply srecLoop_shape in E. destruct E as (_ & E2).
    apply stale_finish; [exact Hc | exact He | exact (E2 Hx)].
Qed.

(** ** Values wider than the register *)

Lemma hexdigits_wide w : forall fuel v,
  (w < fuel)%nat -> 16 ^ Z.of_nat w <= v ->
  (w < length (hexdigits fuel v))%nat.
Proof.
  induction w as [| w IH]; intros fuel v Hf Hv;
    (destruct fuel as [| f]; [lia |]); cbn [hexdigits]; rewrite length_app;
    cbn [length]; [lia |].
  rewrite pow16_succ in Hv. pose proof (pow16_pos w) as Hp.
  assert (Hq : 16 ^ Z.of_nat w <= v / 16) by (apply Z.div_le_lower_bound; lia).
  replace (v / 16 =? 0) with false by (symmetry; apply Z.eqb_neq; lia).
  specialize (IH f (v / 16) ltac:(lia) Hq). lia.
Qed.

Lemma fmtX_wide w v :
  (w <= 7)%nat -> 16 ^ Z.of_nat w <= v < 2 ^ 32 -> (w < length (fmtX w v))%nat.
Proof.
  intros Hw Hv. unfold fmtX. pose proof (pow16_pos w) as Hp.
  rewrite Z.mod_small by lia. rewrite length_app.
  pose proof (hexdigits_wide w 8 v ltac:(lia) (proj1 Hv)). lia.
Qed.

(** X20.  The 24-bit dialect cuts nothing either: a value that does
    not fit the register (16 bits for A, X, Y, S and D, 8 bits for F and
    B, 24 bits for the program counter) is printed with all its digits,
    so that the command is longer than the one for a value that fits. *)
Theorem dialect_A_does_not_cut_wide_values :
  forall (reg : Reg) (num : Z) (st : State),
    connected st = true ->
    mode st = MODE_265 ->
    2 ^ bits265 reg <= num < 2 ^ 31 ->
    exists cmd,
      tx (changeReg reg num st) = tx st ++ [cmd; txt "R"] /\
      (length (txt "|" ++ [letter265 reg] ++ field265 reg 0) < length cmd)%nat.
Proof.
  intros reg num st Hc Hm Hn.
  assert (H0 : 0 <= num) by (pose proof (Z.pow_pos_nonneg 2 (bits265 reg));
                             destruct reg; cbn [bits265] in *; lia).
  rewrite (changeReg_265 reg num st Hc Hm H0).
  eexists. split; [reflexivity |].
  destruct reg; cbn [bits265] in Hn; cbn [field265 letter265];
    rewrite !length_app, ?hexfield_length; cbn [length txt list_ascii_of_string];
    try (pose proof (fmtX_wide 4 num ltac:(lia) ltac:(cbn; lia)); lia);
    try (pose proof (fmtX_wide 2 num ltac:(lia) ltac:(cbn; lia)); lia).
  rewrite fmtX_offset, hexfield_length.
  assert (H : 256 <= Z.shiftr num 16 < 2 ^ 32).
  { rewrite shiftr16. split; [apply Z.div_le_lower_bound; lia |].
    apply Z.div_lt_upper_bound; lia. }
  pose proof (fmtX_wide 2 (Z.shiftr num 16) ltac:(lia) H). lia.
Qed.

(** ** Records too long for the array *)

Lemma srecSend_oversize v data rest st :
  Forall is_byte data ->
  count v = Z.of_nat (length data) ->
  (121 < length data <= 255)%nat ->
  exists v1 fp1, srecSend v (hexbytes data ++ rest) st = (Overflow, v1, fp1, st).
Proof.
  intros Hb Hc Hlen. unfold srecSend. rewrite Hc, Nat2Z.id.
  rewrite srecData_hexData.
  destruct (Nat.le_gt_cases s_size (10 + 2 * length data)) as [Hbig | Hsmall].
  - rewrite hexData_spill by (try assumption; unfold s_size; lia).
    eexists. eexists. reflexivity.
  - assert (H122 : length data = 122%nat) by (unfold s_size in Hsmall; lia).
    match goal with
    | |- context [hexData _ _ ?x ?c ?s 10] =>
        destruct (hexData_bytes data rest x c s 10 Hb) as [value1 E]
    end.
    { cbn [txt list_ascii_of_string]. rewrite !length_app.
      rewrite !fmtX2_byte by first [apply land255_range | lia].
      rewrite !hexfield_length. reflexivity. }
    { exact Hsmall. }
    rewrite E. cbv beta iota.
    rewrite checksum_fits.
    replace (length data <=? 121)%nat with false by (symmetry; apply Nat.leb_gt; lia).
    eexists. eexists. reflexivity.
Qed.

Lemma srecRecord_oversize v kr rest st :
  data_record (match fst kr with K1 => 16 | K2 => 24 end) (snd kr) ->
  121 < rec_len (snd kr) ->
  rec_len (snd kr) + (match fst kr with K1 => 3 | K2 => 4 end) <= 255 ->
  exists v1 fp1, srecRecord v (srec_line kr ++ rest) st = (Overflow, v1, fp1, st).
Proof.
  destruct kr as [k r]. unfold srec_line. cbn [fst snd].
  intros (Hlen & Ha & Hb & Hn & Ht) Hbig Hcount.
  assert (Hnat : (121 < length (rec_data r) <= 255)%nat) by (unfold rec_len in *; lia).
  destruct k.
  - unfold srecRecord, s1_line. cbn [txt list_ascii_of_string app fgetc].
    change (to_char (char_code "S") =? EOF) with false.
    change (to_char (char_code "1") =? EOF) with false.
    change (to_char (char_code "1") - char_code "0") with 1.
    cbv beta iota. cbn [count address start_address code value segment].
    change ((1 <? 0) || (2 <? 1)) with false. cbv beta iota.
    rewrite <- !app_assoc.
    rewrite fscanfX_hexfield by lia.
    rewrite scan_failed_1.
    change (1 =? 1) with true. change (0 <? 1) with true. cbv beta iota.
    replace (rec_len r + 3 - 3) with (rec_len r) by ring.
    replace (rec_len r =? 0) with false by (symmetry; apply Z.eqb_neq; lia).
    unfold srecAddress. cbn [count address start_address code value segment].
    change (1 =? 1) with true. cbv beta iota.
    rewrite fscanfX_hexfield by (try lia; exact Ha).
    rewrite scan_failed_1. cbv beta iota.
    match goal with
    | |- context [srecSend ?a (hexbytes (rec_data r) ++ ?b) st] =>
        destruct (srecSend_oversize a (rec_data r) b st Hb eq_refl Hnat)
          as (v1 & fp1 & E)
    end.
    rewrite E. eexists. eexists. reflexivity.
  - unfold srecRecord, s2_line. cbn [txt list_ascii_of_string app fgetc].
    change (to_char (char_code "S") =? EOF) with false.
    change (to_char (char_code "2") =? EOF) with false.
    change (to_char (char_code "2") - char_code "0") with 2.
    cbv beta iota. cbn [count address start_address code value segment].
    change ((2 <? 0) || (2 <? 2)) with false. cbv beta iota.
    rewrite <- !app_assoc.
    rewrite fscanfX_hexfield by lia.
    rewrite scan_failed_1.
    change (2 =? 1) with false. change (2 =? 2) with true.
    change (0 <? 2) with true. cbv beta iota.
    replace (rec_len r + 4 - 4) with (rec_len r) by ring.
    replace (rec_len r =? 0) with false by (symmetry; apply Z.eqb_neq; lia).
    unfold srecAddress. cbn [count address start_address code value segment].
    change (2 =? 1) with false. change (2 =? 2) with true. cbv beta iota.
    rewrite fscanfX_hexfield by (try lia; exact Ha).
    rewrite scan_failed_1. cbv beta iota.
    match goal with
    | |- context [srecSend ?a (hexbytes (rec_data r) ++ ?b) st] =>
        destruct (srecSend_oversize a (rec_data r) b st Hb eq_refl Hnat)
          as (v1 & fp1 & E)
    end.
    rewrite E. eexists. eexists. reflexivity.
Qed.

(** X21.  The S-record routine has the same array and the same writes:
    a type-1 or type-2 record of more than 121 data bytes, which its
    count byte allows (up to 252 and 251 bytes), makes the pass write
    past the end of [s] while it builds the load record, whatever the
    state and the locals it starts from, and an upload of a file that
    begins with such a record is lost there. *)
Theorem srec_records_too_long_for_the_array :
  forall (kr : SKind * DataRecord) (v : Locals) (rest : text) (st : State)
         (fs : text -> option file) (filename : text),
    data_record (match fst kr with K1 => 16 | K2 => 24 end) (snd kr) ->
    121 < rec_len (snd kr) ->
    rec_len (snd kr) + (match fst kr with K1 => 3 | K2 => 4 end) <= 255 ->
    (exists v1 fp1, srecRecord v (srec_line kr ++ rest) st = (Overflow, v1, fp1, st)) /\
    (fs filename = Some (srec_line kr ++ rest) ->
     uploadSrec fs filename st = Overrun).
Proof.
  intros kr v rest st fs filename Hd Hbig Hcount.
  split; [exact (srecRecord_oversize v kr rest st Hd Hbig Hcount) |].
  intros Hfs. unfold uploadSrec. rewrite Hfs.
  cbn [srecLoop].
  destruct (srecRecord_oversize locals0 kr rest
              (call (Gui_append uploading_banner) st) Hd Hbig Hcount)
    as (v1 & fp1 & E).
  rewrite E. reflexivity.
Qed.

(** ** The further properties at work on samples *)

Lemma wf_five_records : Forall (wf_source HEX) five_records.
Proof.
  repeat (apply Forall_cons; [cbn [wf_source snd]; wf_sample |]). apply Forall_nil.
Qed.

Lemma wf24_rec1 : wf_record 24 rec1.
Proof. wf_sample. Qed.

Lemma wf24_rec1_damaged : wf_record 24 rec1_damaged.
Proof. wf_sample. Qed.

Lemma hex_eof_line_ends : hex_ending hex_eof_line.
Proof. right. exists (txt "000001FF" ++ [NL]). reflexivity. Qed.

Lemma register_line_available : available [register_line].
Proof.
  apply Forall_cons; [split; [discriminate | cbn; lia] | apply Forall_nil].
Qed.

(** X2 on a device that has one line ready. *)
Lemma getData_takes_all_that_is_there_witness :
  buf (getData session_regs) = txt "pc 12AB, a 3F" ++ [NL] /\
  rx (getData session_regs) = [].
Proof.
  destruct (getData_takes_all_that_is_there session_regs [register_line] []
              eq_refl register_line_available ltac:(cbn; lia) eq_refl eq_refl)
    as (B & _ & R & _).
  split; [exact B | exact R].
Defined.

(** X3 on the same line: digits, capitals and blanks are what is
    shown. *)
Lemma updateRegs_shows_the_filtered_answer_witness :
  exists st1,
    updateRegs session_regs = Done st1 /\
    tx st1 = [txt "R"] /\
    ui st1 = [Gui_updateRegs (txt " 12AB  3F")].
Proof.
  destruct (updateRegs_shows_the_filtered_answer session_regs [register_line] []
              eq_refl register_line_available ltac:(cbn; lia) eq_refl eq_refl)
    as (H & _).
  destruct (H ltac:(vm_compute; lia)) as (st1 & E & T & U & _).
  exists st1. split; [exact E |]. split; [exact T | exact U].
Defined.

(** X4 on a command that ends in a line feed. *)
Lemma line_feeds_leave_as_carriage_returns_witness :
  exists w, tx (sendString (txt "G" ++ [NL]) session) = [w] /\ ~ In NL w.
Proof.
  destruct (line_feeds_leave_as_carriage_returns session (txt "G" ++ [NL]) NL eq_refl)
    as [(w & T & _ & N & _) _].
  - cbn. lia.
  - intros H. cbn in H. repeat (destruct H as [H | H]; [discriminate H |]). exact H.
  - exists w. split; [exact T | exact N].
Defined.

(** X5 on Y set to [0x1234]. *)
Lemma dialect_A_register_command_witness :
  tx (changeReg REG_Y 4660 session265) = [txt "|Y1234"; txt "R"].
Proof.
  exact (dialect_A_register_command REG_Y 4660 session265 eq_refl eq_refl
           ltac:(cbn [bits265]; lia)).
Defined.

(** X6 on the status register set to a negative value. *)
Lemma changeReg_clamps_and_refreshes_toggles_witness :
  changeReg REG_SR (-5) session = changeReg REG_SR (Z.max 0 (-5)) session /\
  ui (changeReg REG_SR (-5) session) = [Gui_setToggles 0].
Proof.
  destruct (changeReg_clamps_and_refreshes_toggles REG_SR (-5) session eq_refl)
    as (E & U).
  split; [exact E | exact U].
Defined.

(** X7 on a jump to [0x018000] in the 24-bit dialect. *)
Lemma jump_and_call_commands_witness :
  tx (jml 98304 session265) = [txt "G"; txt "018000"] /\
  tx (jsl 98304 session265) = [txt "J"; txt "018000"].
Proof.
  destruct (jump_and_call_commands 98304 session265 eq_refl ltac:(lia))
    as (G & J & _).
  split; [exact G | exact J].
Defined.

(** X8 on a dump of the page at [0x8000] in the 16-bit dialect. *)
Lemma dump_request_witness :
  tx (dump 32768 session) = [txt "D"; txt "800080FF"].
Proof.
  destruct (dump_request 32768 session eq_refl ltac:(lia) ltac:(lia)) as (T & _).
  exact T.
Defined.

(** X9 on seventy idle polls. *)
Lemma receive_cycles_the_flash_counter_witness :
  flash (Nat.iter 70 receive session) = 6.
Proof.
  destruct (receive_cycles_the_flash_counter session 70 ltac:(cbn; lia)) as (F & _).
  exact F.
Defined.

(** X12 on a name with two periods and an upper-case extension. *)
Lemma upload_picks_the_routine_by_extension_witness :
  upload (Some (txt "/home/me/prog.v2" ++ "."%char :: txt "HEX"))
         (one_file hex_eof_line) session
  = uploadHex (one_file hex_eof_line)
              (txt "/home/me/prog.v2" ++ "."%char :: txt "HEX") session.
Proof.
  destruct (upload_picks_the_routine_by_extension (txt "/home/me/prog.v2") (txt "HEX")
              (one_file hex_eof_line) session eq_refl)
    as (H & _).
  - intros H. cbn in H. repeat (destruct H as [H | H]; [discriminate H |]). exact H.
  - intros H. cbn in H. repeat (destruct H as [H | H]; [discriminate H |]). exact H.
  - exact (H eq_refl).
Defined.

(** X13 on the file of five records. *)
Lemma upload_of_a_well_formed_file_witness :
  exists st1,
    upload (Some (txt "prog" ++ "."%char :: txt "hex"))
           (one_file (source_text HEX five_records ++ hex_eof_line)) session
    = Done st1 /\
    tx st1 = tx session ++ loads_on_wire five_records ++ [on_wire terminator] /\
    reports st1 32768.
Proof.
  destruct (upload_of_a_well_formed_file HEX (txt "prog") (txt "hex")
              (one_file (source_text HEX five_records ++ hex_eof_line))
              five_records hex_eof_line session)
    as (st1 & E & T & R & _).
  - intros H. cbn in H. repeat (destruct H as [H | H]; [discriminate H |]). exact H.
  - intros H. cbn in H. repeat (destruct H as [H | H]; [discriminate H |]). exact H.
  - reflexivity.
  - exact wf_five_records.
  - exact hex_eof_line_ends.
  - reflexivity.
  - reflexivity.
  - reflexivity.
  - reflexivity.
  - exists st1. split; [exact E |]. split; [exact T | exact R].
Defined.

(** X14 on what an upload of two records sent. *)
Lemma what_was_sent_uploads_to_itself_witness :
  exists st1 sent,
    uploadSrec (one_file (transcript [(K1, rec1); (K2, rec_bank1)])) (txt "a.srec")
               session = Done st1 /\
    tx st1 = tx session ++ sent /\
    concat sent = on_wire (transcript [(K1, rec1); (K2, rec_bank1)]).
Proof.
  destruct (what_was_sent_uploads_to_itself
              (one_file (transcript [(K1, rec1); (K2, rec_bank1)])) (txt "a.srec")
              [(K1, rec1); (K2, rec_bank1)] session)
    as (st1 & sent & E & T & C & _).
  - apply Forall_cons; [exact wf24_rec1 |].
    apply Forall_cons; [exact wf_rec_bank1 | apply Forall_nil].
  - reflexivity.
  - reflexivity.
  - reflexivity.
  - reflexivity.
  - exists st1, sent. split; [exact E |]. split; [exact T | exact C].
Defined.

(** X15 on an Intel-HEX record and a type-2 line for the same bytes
    whose checksum field is wrong. *)
Lemma sent_bytes_depend_on_address_and_data_only_witness :
  exists st1 st2,
    upload_as HEX (one_file (source_text HEX [(K1, rec1)] ++ hex_eof_line))
              (txt "a.hex") session = Done st1 /\
    upload_as SREC (one_file (source_text SREC [(K2, rec1_damaged)] ++ []))
              (txt "a.srec") session = Done st2 /\
    tx st2 = tx st1 /\
    dialogs st2 = dialogs session.
Proof.
  destruct (sent_bytes_depend_on_address_and_data_only HEX SREC
              (one_file (source_text HEX [(K1, rec1)] ++ hex_eof_line))
              (one_file (source_text SREC [(K2, rec1_damaged)] ++ []))
              (txt "a.hex") (txt "a.srec")
              [(K1, rec1)] [(K2, rec1_damaged)] hex_eof_line [] session)
    as (st1 & st2 & E1 & E2 & T & _ & D).
  - apply Forall_cons; [exact wf_rec1 | apply Forall_nil].
  - apply Forall_cons; [exact wf24_rec1_damaged | apply Forall_nil].
  - apply Forall2_cons; [split; reflexivity | apply Forall2_nil].
  - exact hex_eof_line_ends.
  - exact I.
  - reflexivity.
  - reflexivity.
  - reflexivity.
  - reflexivity.
  - reflexivity.
  - exists st1, st2. split; [exact E1 |]. split; [exact E2 |]. split; [exact T | exact D].
Defined.

(** X16 on an extended-address line with the address field [0001]
    ahead of a data record at [0x8000]: the start address reported is 1. *)
Lemma hex_lines_of_other_types_witness :
  exists st1,
    uploadHex (one_file segment_file) (txt "a.hex") session = Done st1 /\
    reports st1 1.
Proof.
  destruct (hex_lines_of_other_types 2 1 4 (txt "0001F8")
              (txt ":0180000055AA" ++ [NL] ++ hex_eof_line) locals0 session
              (one_file segment_file) (txt "a.hex"))
    as (_ & U).
  - lia.
  - lia.
  - lia.
  - intros H. cbn in H. repeat (destruct H as [H | H]; [discriminate H |]). exact H.
  - cbn. lia.
  - apply (U eq_refl). within_s.
Defined.

(** X17 on an S-record file handed to [uploadHex]. *)
Lemma hex_upload_of_a_file_without_records_witness :
  exists st1,
    uploadHex (one_file (txt "S1058000010277" ++ [NL])) (txt "a.hex") session
    = Done st1 /\
    tx st1 = tx session ++ [on_wire terminator] /\
    reports st1 (-1).
Proof.
  destruct (hex_upload_of_a_file_without_records
              (one_file (txt "S1058000010277" ++ [NL])) (txt "a.hex")
              (txt "S1058000010277" ++ [NL]) session eq_refl)
    as (st1 & E & T & R & _).
  - intros H. cbn in H. repeat (destruct H as [H | H]; [discriminate H |]). exact H.
  - reflexivity.
  - exists st1. split; [exact E |]. split; [exact T | exact R].
Defined.

(** X18 on the upload of five records that is cancelled during the
    second turn. *)
Lemma upload_leaves_the_cancel_flag_down_witness :
  exists st1,
    upload_as HEX (one_file (source_text HEX five_records ++ hex_eof_line))
              (txt "a.hex") session_esc2 = Done st1 /\
    cancelled st1 = false.
Proof.
  apply (upload_leaves_the_cancel_flag_down HEX
           (one_file (source_text HEX five_records ++ hex_eof_line))
           (txt "a.hex") session_esc2 eq_refl).
  within_s.
Defined.

(** X19 on the file of five records, with the flag up beforehand. *)
Lemma stale_cancel_flag_stops_the_upload_witness :
  exists st1 recs,
    upload_as HEX (one_file (source_text HEX five_records ++ hex_eof_line))
              (txt "a.hex") session_stale = Done st1 /\
    tx st1 = tx session_stale ++ recs ++ [on_wire terminator] /\
    (length recs <= 1)%nat.
Proof.
  apply (stale_cancel_flag_stops_the_upload HEX
           (one_file (source_text HEX five_records ++ hex_eof_line))
           (txt "a.hex") (source_text HEX five_records ++ hex_eof_line)
           session_stale eq_refl eq_refl eq_refl).
  within_s.
Defined.

(** X20 on the accumulator set to [0x12345]. *)
Lemma dialect_A_does_not_cut_wide_values_witness :
  exists cmd,
    tx (changeReg REG_A 74565 session265) = [cmd; txt "R"] /\
    (6 < length cmd)%nat.
Proof.
  destruct (dialect_A_does_not_cut_wide_values REG_A 74565 session265 eq_refl eq_refl
              ltac:(cbn [bits265]; lia))
    as (cmd & T & L).
  exists cmd. split; [exact T | exact L].
Defined.

(** X21 on a type-1 record of 122 bytes. *)
Lemma srec_records_too_long_for_the_array_witness :
  uploadSrec (one_file (srec_line (K1, rec_122) ++ [])) (txt "a.srec") session
  = Overrun.
Proof.
  destruct (srec_records_too_long_for_the_array (K1, rec_122) locals0 [] session
              (one_file (srec_line (K1, rec_122) ++ [])) (txt "a.srec")
              data_record_rec_122)
    as (_ & U).
  - unfold rec_len, rec_122. cbn [snd rec_data]. rewrite repeat_length. lia.
  - unfold rec_len, rec_122. cbn [fst snd rec_data]. rewrite repeat_length. lia.
  - exact (U eq_refl).
Defined.
